(** * Verification of the benchmark data-analysis scripts

    A shallow embedding of [data_scripts/analyze_data.py] and of the
    file-naming part of [data_scripts/analyze_aggregate_data.py].

    Conventions of the embedding.
    - Python floats are read as real numbers ([R]): rounding, infinities and
      NaN are outside the model.  Division is the total division of [R].
    - A pandas data frame is kept column-wise, as pandas keeps it: one list
      per column, all of the same length, rows being positions.
    - [statsmodels] and [scipy] are external libraries.  The formulas of
      [DescrStatsW] and [CompareMeans] are written out; the quantile function
      of Student's t distribution ([scipy.stats.t.ppf]) is a variable of the
      section that uses it.
    - Text produced with format strings is kept as the tuple of the values
      interpolated into the format string. *)

From Stdlib Require Import Reals Lra List String Ascii Bool Arith ZArith Lia Permutation.
Import ListNotations.

Set Default Proof Using "Type".

Local Open Scope R_scope.
Local Open Scope string_scope.
Local Open Scope list_scope.

(* ================================================================= *)
(** ** Comparisons on reals, as booleans *)

Definition Rleb (x y : R) : bool := if Rle_dec x y then true else false.
Definition Rltb (x y : R) : bool := if Rlt_dec x y then true else false.

(* ================================================================= *)
(** ** The statistics library *)

Module Stats.

(** [arr.sum()] *)
Definition sum (xs : list R) : R := fold_right Rplus 0 xs.

(** [DescrStatsW.sum_weights] with unit weights, also [nobs]. *)
Definition nobs (xs : list R) : R := INR (List.length xs).

(** [DescrStatsW.mean] *)
Definition mean (xs : list R) : R := sum xs / nobs xs.

(** [DescrStatsW.sumsquares]: the sum of squares of [demeaned]. *)
Definition sumsquares (xs : list R) : R :=
  sum (map (fun x => (x - mean xs) * (x - mean xs)) xs).

(** [DescrStatsW._var]: the variance with [ddof = 0]; it is also
    [DescrStatsW.var], the script never setting [ddof]. *)
Definition var (xs : list R) : R := sumsquares xs / nobs xs.

(** [DescrStatsW.std] *)
Definition std (xs : list R) : R := sqrt (var xs).

(** [DescrStatsW.std_mean] with [ddof = 0]. *)
Definition std_mean (xs : list R) : R := std xs / sqrt (nobs xs - 1).

(** [CompareMeans.std_meandiff_separatevar] *)
Definition std_meandiff_separatevar (xs ys : list R) : R :=
  sqrt (var xs / (nobs xs - 1) + var ys / (nobs ys - 1)).

(** [CompareMeans.dof_satt]: Welch-Satterthwaite degrees of freedom. *)
Definition dof_satt (xs ys : list R) : R :=
  let sem1 := var xs / (nobs xs - 1) in
  let sem2 := var ys / (nobs ys - 1) in
  let semsum := sem1 + sem2 in
  let z1 := (sem1 / semsum) * (sem1 / semsum) / (nobs xs - 1) in
  let z2 := (sem2 / semsum) * (sem2 / semsum) / (nobs ys - 1) in
  1 / (z1 + z2).

Section Quantile.

(** [scipy.stats.t.ppf p dof] *)
Variable tppf : R -> R -> R.

(** [_tconfint_generic mean std_mean dof alpha "two-sided"] *)
Definition tconfint_generic (m sd dof alpha : R) : R * R :=
  let tcrit := tppf (1 - alpha / 2) dof in
  (m - tcrit * sd, m + tcrit * sd).

(** [DescrStatsW.tconfint_mean(alpha)] *)
Definition tconfint_mean (xs : list R) (alpha : R) : R * R :=
  tconfint_generic (mean xs) (std_mean xs) (nobs xs - 1) alpha.

(** [CompareMeans(d1, d2).tconfint_diff(usevar="unequal", alpha)]:
    the interval is centred on [d1.mean - d2.mean]. *)
Definition tconfint_diff (xs ys : list R) (alpha : R) : R * R :=
  tconfint_generic (mean xs - mean ys) (std_meandiff_separatevar xs ys)
                   (dof_satt xs ys) alpha.

End Quantile.

End Stats.

(* ================================================================= *)
(** ** Data frames *)

(** A data frame read from a results file: the ["deployment-mechanism"]
    column, and every other column (all numeric) under its name, in file
    order.  Row [i] of the frame is position [i] of every column. *)
Record DataFrame := mkDataFrame {
  deployment_mechanism : list string;
  columns : list (string * list R)
}.

Module Frame.

(** [name in names] *)
Definition mem (name : string) (names : list string) : bool :=
  existsb (String.eqb name) names.

(** [xs[mask]]: the positions of [xs] where the mask is [True]. *)
Fixpoint select {A} (mask : list bool) (xs : list A) : list A :=
  match mask, xs with
  | b :: mask', x :: xs' => if b then x :: select mask' xs' else select mask' xs'
  | _, _ => []
  end.

(** [df[mask]] *)
Definition select_rows (mask : list bool) (df : DataFrame) : DataFrame :=
  {| deployment_mechanism := select mask (deployment_mechanism df);
     columns := map (fun c => (fst c, select mask (snd c))) (columns df) |}.

(** [df[name]] for a numeric column; [None] is pandas' [KeyError]. *)
Fixpoint get_column (name : string) (cols : list (string * list R)) : option (list R) :=
  match cols with
  | [] => None
  | (n, c) :: rest => if String.eqb n name then Some c else get_column name rest
  end.

(** [df[name] = values]: overwrite the column in place, or append it. *)
Fixpoint set_column (name : string) (values : list R) (cols : list (string * list R))
  : list (string * list R) :=
  match cols with
  | [] => [(name, values)]
  | (n, c) :: rest =>
      if String.eqb n name then (n, values) :: rest
      else (n, c) :: set_column name values rest
  end.

(** [df.drop(df.columns.difference(keep), axis=1)] *)
Definition keep_columns (keep : list string) (df : DataFrame) : DataFrame :=
  {| deployment_mechanism := deployment_mechanism df;
     columns := filter (fun c => mem (fst c) keep) (columns df) |}.

(** [df["deployment-mechanism"] = df["deployment-mechanism"].apply(f)] *)
Definition apply_mechanism (f : string -> string) (df : DataFrame) : DataFrame :=
  {| deployment_mechanism := map f (deployment_mechanism df);
     columns := columns df |}.

(** [df[~df["deployment-mechanism"].str.startswith(p)]] *)
Definition drop_startswith (p : string) (df : DataFrame) : DataFrame :=
  select_rows (map (fun m => negb (String.prefix p m)) (deployment_mechanism df)) df.

(** Element-wise quotient of two columns. *)
Fixpoint divide (xs ys : list R) : list R :=
  match xs, ys with
  | x :: xs', y :: ys' => (x / y) :: divide xs' ys'
  | _, _ => []
  end.

(** [series.unique()]: the distinct values in order of first appearance. *)
Fixpoint unique (l : list string) : list string :=
  match l with
  | [] => []
  | x :: t => x :: filter (fun y => negb (String.eqb x y)) (unique t)
  end.

(** [itertools.combinations(l, 2)] *)
Fixpoint combinations {A} (l : list A) : list (A * A) :=
  match l with
  | [] => []
  | x :: t => map (pair x) t ++ combinations t
  end.

End Frame.

(* ================================================================= *)
(** ** analyze_data.py: the loader *)

Definition NON_METRIC_COLUMNS : list string :=
  ["index"; "deployment-mechanism"; "trial-number"].

Definition COMPUTED_COLUMNS : list string :=
  ["instructions-per-cycle"; "cycles-per-instruction"].

Definition DOCKER_OVERHEAD_EXCLUDE_DAEMON : Z := 0.
Definition DOCKER_OVERHEAD_INCLUDE_FULL_DAEMON : Z := 1.
Definition DOCKER_OVERHEAD_INCLUDE_ADDITIONAL_DAEMON : Z := 2.

(** The renaming and the row removals of one overhead view (lines 249-271). *)
Definition apply_docker_overhead_view (docker_overhead_view : Z) (df : DataFrame)
  : DataFrame :=
  if Z.eqb docker_overhead_view DOCKER_OVERHEAD_EXCLUDE_DAEMON then
    let df := Frame.apply_mechanism
                (fun m => if String.eqb m "docker_container" then "docker" else m) df in
    Frame.drop_startswith "docker_container_and_daemon" df
  else if Z.eqb docker_overhead_view DOCKER_OVERHEAD_INCLUDE_FULL_DAEMON then
    let df := Frame.apply_mechanism
                (fun m => if String.prefix "docker_container_and_daemon" m
                          then "docker" else m) df in
    let df := Frame.drop_startswith "docker_container" df in
    Frame.drop_startswith "docker_container_and_daemon_extra_overhead" df
  else if Z.eqb docker_overhead_view DOCKER_OVERHEAD_INCLUDE_ADDITIONAL_DAEMON then
    let df := Frame.apply_mechanism
                (fun m => if String.prefix "docker_container_and_daemon_extra_overhead" m
                          then "docker" else m) df in
    let df := Frame.drop_startswith "docker_container" df in
    Frame.drop_startswith "docker_container_and_daemon" df
  else df.

(** The two computed columns of a perf file (lines 273-278). *)
Definition add_computed_columns (df : DataFrame) : DataFrame :=
  match Frame.get_column "cpu-cycles" (columns df),
        Frame.get_column "instructions" (columns df) with
  | Some cycles, Some instructions =>
      {| deployment_mechanism := deployment_mechanism df;
         columns :=
           Frame.set_column "cycles-per-instruction" (Frame.divide cycles instructions)
             (Frame.set_column "instructions-per-cycle"
                (Frame.divide instructions cycles) (columns df)) |}
  | _, _ => df
  end.

(** [parse_csv_rows], from the frame [pd.read_csv] returned.  The last step
    drops by index label; the labels of a frame just read are the row
    numbers, so it removes exactly the rows of the mask. *)
Definition parse_csv_rows (df : DataFrame) (deployment_mechanisms metrics : list string)
    (docker_overhead_view : Z) (is_perf_file : bool) : DataFrame :=
  let df := Frame.keep_columns (NON_METRIC_COLUMNS ++ metrics) df in
  let df := apply_docker_overhead_view docker_overhead_view df in
  let df := if is_perf_file then add_computed_columns df else df in
  Frame.select_rows
    (map (fun m => Frame.mem m deployment_mechanisms) (deployment_mechanism df)) df.

(** [get_metrics_in_df] *)
Definition get_metrics_in_df (df : DataFrame) : list string :=
  filter (fun c => negb (Frame.mem c NON_METRIC_COLUMNS)) (map fst (columns df)).

(* ================================================================= *)
(** ** analyze_data.py: the comparator and the orchestrator *)

(** The tuple [welch_t_test_with_confidence_interval] returns. *)
Record WelchResult := mkWelchResult {
  x_mean : R;
  y_mean : R;
  mean_diff : R;
  ci_lower : R;
  ci_upper : R;
  ci_half_width : R;
  statistically_significant : bool;
  x_ci : R * R;
  y_ci : R * R
}.

(** One row of [aggregate_df].  The three columns ["{metric}-mean"],
    ["{metric}-error-lower"] and ["{metric}-error-upper"] are one entry
    under the metric's name: [None] while the three cells are empty, the
    triple (mean, error-lower, error-upper) once they are assigned; the
    script only ever assigns the three together. *)
Record AggregateRow := mkAggregateRow {
  agg_model : string;
  agg_input : string;
  agg_deployment_mechanism : string;
  agg_metrics : list (string * option (R * R * R))
}.

(** The suffixes of the three aggregate columns of a metric.  A column name
    determines its metric and its suffix, which is what lets one entry
    stand for the three columns. *)
Definition METRIC_SUFFIXES : list string := ["-mean"; "-error-lower"; "-error-upper"].

(** One row of [comparison_df].  The ["{x}-value"] and ["{y}-value"] cells
    are the two bounds put into ["{lo:,.2f}-{hi:,.2f}"], the ["effect-size"]
    cell the two bounds put into ["{min:.2f}x-{max:.2f}x"]. *)
Record ComparisonRow := mkComparisonRow {
  cmp_metric : string;
  cmp_x_value : R * R;
  cmp_y_value : R * R;
  cmp_statistically_significant : bool;
  cmp_effect_size : R * R
}.

(** The lines [print_if_true] may print, with the values they interpolate. *)
Inductive Message :=
| MsgSignificant (x y metric : string)
| MsgNotSignificant (x y metric : string)
| MsgMeanDifference (mean_diff ci_half_width confidence_percent : R)
| MsgAverage (mechanism : string) (mean lo hi : R)
| MsgRatio (subject : string) (ratio_min ratio_max : R) (object metric : string)
| MsgBlank.

(** A comparison file written by [to_csv]: its name inside
    [analyzed_results_path], the two mechanisms naming its value columns,
    and its rows. *)
Record ComparisonFile := mkComparisonFile {
  file_name : string;
  file_x : string;
  file_y : string;
  file_rows : list ComparisonRow
}.

(** What a run of the orchestrator leaves behind. *)
Record Analysis := mkAnalysis {
  aggregate_df : list AggregateRow;
  printed : list Message;
  saved : list ComparisonFile
}.

(** [print_if_true]: the console after the call. *)
Definition print_if_true (console : list Message) (message : Message) (condition : bool)
  : list Message :=
  if condition then console ++ [message] else console.

(** The columns [initialize_aggregate_df] creates for the metrics: assigning
    a column that exists already keeps its place. *)
Definition initialize_columns (metric_cols : list string)
  : list (string * option (R * R * R)) :=
  fold_left (fun cols metric =>
               if Frame.mem metric (map fst cols) then cols
               else cols ++ [(metric, None)])
            metric_cols [].

(** [initialize_aggregate_df] *)
Definition initialize_aggregate_df (metric_cols deployment_mechanisms : list string)
    (model input : string) : list AggregateRow :=
  map (fun m => mkAggregateRow model input m (initialize_columns metric_cols))
      deployment_mechanisms.

(** Assignment of the three cells of [metric] in one row. *)
Definition set_metric (metric : string) (v : R * R * R)
    (cells : list (string * option (R * R * R))) : list (string * option (R * R * R)) :=
  map (fun c => if String.eqb (fst c) metric then (fst c, Some v) else c) cells.

(** [aggregate_df.loc[aggregate_df["deployment-mechanism"] == m, cols] = v] *)
Definition update_aggregate (m metric : string) (v : R * R * R)
    (agg : list AggregateRow) : list AggregateRow :=
  map (fun row =>
         if String.eqb (agg_deployment_mechanism row) m
         then mkAggregateRow (agg_model row) (agg_input row)
                (agg_deployment_mechanism row) (set_metric metric v (agg_metrics row))
         else row)
      agg.

(** Lines 152-164: the bounds of the ratio and the mechanisms that the
    message names first and second. *)
Definition effect_size (x y : string) (x_mean y_mean ci_half_width : R)
  : R * R * (string * string) :=
  if Rltb x_mean y_mean then
    let ratio := y_mean / x_mean in
    let ratio_ci := ci_half_width / x_mean in
    (ratio - ratio_ci, ratio + ratio_ci, (x, y))
  else
    let ratio := x_mean / y_mean in
    let ratio_ci := ci_half_width / y_mean in
    (ratio - ratio_ci, ratio + ratio_ci, (y, x)).

Section Orchestrator.

(** [scipy.stats.t.ppf] *)
Variable tppf : R -> R -> R.

(** [welch_t_test_with_confidence_interval], on two samples of at least two
    observations whose variances are not both zero.  On other samples
    statsmodels divides zero by zero: the bounds the code returns are NaN
    and its flag is [True].  The reals have no such value; there the
    definition follows the same formulas with [x / 0 = 0] and is not what
    the code computes. *)
Definition welch_t_test_with_confidence_interval (arr_x arr_y : list R) (alpha : R)
  : WelchResult :=
  let ci := Stats.tconfint_diff tppf arr_x arr_y alpha in
  let ci_lower := fst ci in
  let ci_upper := snd ci in
  let x_mean := Stats.mean arr_x in
  let y_mean := Stats.mean arr_y in
  {| x_mean := x_mean;
     y_mean := y_mean;
     mean_diff := Rabs (y_mean - x_mean);
     ci_lower := ci_lower;
     ci_upper := ci_upper;
     ci_half_width := (ci_upper - ci_lower) / 2;
     statistically_significant := negb (Rleb ci_lower 0 && Rleb 0 ci_upper);
     x_ci := Stats.tconfint_mean tppf arr_x alpha;
     y_ci := Stats.tconfint_mean tppf arr_y alpha |}.

Variable df : DataFrame.
Variable significance_level : R.
Variable model input : string.
Variable include_insignificant_output view_output save_output : bool.

(** [grouped_df.get_group(m)[metric]], from the metric's column. *)
Definition get_group (m : string) (column : list R) : list R :=
  Frame.select (map (String.eqb m) (deployment_mechanism df)) column.

(** The state of the loop over the metrics of one pair. *)
Definition MetricState : Type :=
  (list AggregateRow * list ComparisonRow * list Message)%type.

(** One turn of the loop of line 145, for the metric and its column. *)
Definition metric_step (x y : string) (st : MetricState)
    (mc : string * list R) : MetricState :=
  let '(agg, rows, console) := st in
  let metric := fst mc in
  let arr_x := get_group x (snd mc) in
  let arr_y := get_group y (snd mc) in
  let w := welch_t_test_with_confidence_interval arr_x arr_y significance_level in
  let '(ratio_min, ratio_max, (subject, object)) :=
    effect_size x y (x_mean w) (y_mean w) (ci_half_width w) in
  let agg := update_aggregate x metric
               (x_mean w, x_mean w - fst (x_ci w), snd (x_ci w) - x_mean w) agg in
  let agg := update_aggregate y metric
               (y_mean w, y_mean w - fst (y_ci w), snd (y_ci w) - y_mean w) agg in
  let rows := rows ++ [ {| cmp_metric := metric;
                           cmp_x_value := x_ci w;
                           cmp_y_value := y_ci w;
                           cmp_statistically_significant := statistically_significant w;
                           cmp_effect_size := (ratio_min, ratio_max) |} ] in
  let details (console : list Message) :=
    let console := print_if_true console
      (MsgMeanDifference (mean_diff w) (ci_half_width w)
         ((1 - significance_level) * 100)) view_output in
    let console := print_if_true console
      (MsgAverage x (x_mean w) (fst (x_ci w)) (snd (x_ci w))) view_output in
    let console := print_if_true console
      (MsgAverage y (y_mean w) (fst (y_ci w)) (snd (y_ci w))) view_output in
    let console := print_if_true console
      (MsgRatio subject ratio_min ratio_max object metric) view_output in
    print_if_true console MsgBlank view_output in
  if statistically_significant w then
    let console := print_if_true console (MsgSignificant x y metric) view_output in
    (agg, rows, details console)
  else
    let console := print_if_true console (MsgNotSignificant x y metric) view_output in
    if negb include_insignificant_output then (agg, rows, console)
    else (agg, rows, details console).

(** [f"{model}-{input}-{x}-{y}-comparison.csv"] *)
Definition comparison_csv_filename (x y : string) : string :=
  (model ++ "-" ++ input ++ "-" ++ x ++ "-" ++ y ++ "-comparison.csv")%string.

(** One turn of the loop of line 138, over the selected metric columns. *)
Definition pair_step (grouped : list (string * list R)) (st : Analysis)
    (xy : string * string) : Analysis :=
  let '(x, y) := xy in
  let '(agg, rows, console) :=
    fold_left (metric_step x y) grouped (aggregate_df st, [], printed st) in
  {| aggregate_df := agg;
     printed := console;
     saved := if save_output
              then saved st ++ [mkComparisonFile (comparison_csv_filename x y) x y rows]
              else saved st |}.

(** [df.groupby("deployment-mechanism")[metrics]]: the columns of the
    metrics, or pandas' [KeyError] when one is not a column.  A metric
    listed twice is selected twice, as pandas does; the code then raises
    inside the first comparison (a selection of two columns reaches the
    comparator), which is not modelled: what is said of a run that returns
    is said for distinct metrics. *)
Fixpoint select_metrics (metrics : list string) : option (list (string * list R)) :=
  match metrics with
  | [] => Some []
  | metric :: rest =>
      match Frame.get_column metric (columns df), select_metrics rest with
      | Some c, Some cs => Some ((metric, c) :: cs)
      | _, _ => None
      end
  end.

(** The orchestrator over a given enumeration of the pairs. *)
Definition analyze_pairs (metrics : list string) (grouped : list (string * list R))
    (pairs : list (string * string)) : Analysis :=
  let deployment_mechanisms := Frame.unique (deployment_mechanism df) in
  fold_left (pair_step grouped) pairs
    {| aggregate_df :=
         initialize_aggregate_df metrics deployment_mechanisms model input;
       printed := [];
       saved := [] |}.

(** [analyze_data_significant_difference]; the script returns
    [aggregate_df], the console and the files are its effects. *)
Definition analyze_data_significant_difference (metrics : list string)
  : option Analysis :=
  match select_metrics metrics with
  | None => None
  | Some grouped =>
      Some (analyze_pairs metrics grouped
              (Frame.combinations (Frame.unique (deployment_mechanism df))))
  end.

End Orchestrator.

(* ================================================================= *)
(** ** analyze_data.py: the aggregate store *)

(** The aggregate frame with its header: what [to_csv] is handed, and what
    [pd.read_csv] returns.  The two differ, see [read_csv] below. *)
Record AggregateTable := mkAggregateTable {
  table_columns : list string;
  table_rows : list AggregateRow
}.

(** [pd.concat([existing, new], ignore_index=True)]: the rows of the first
    frame then those of the second, under the union of the columns. *)
Definition concat (existing new : AggregateTable) : AggregateTable :=
  {| table_columns :=
       table_columns existing ++
       filter (fun c => negb (Frame.mem c (table_columns existing))) (table_columns new);
     table_rows := table_rows existing ++ table_rows new |}.

(** [create_or_update_aggregate_csv] on frames: the frame handed to
    [to_csv] (lines 344, 351), from the frame [pd.read_csv] returned at
    line 347 ([None] when the file does not exist). *)
Definition create_or_update_aggregate_csv (aggregate : AggregateTable)
    (store : option AggregateTable) : AggregateTable :=
  match store with
  | None => aggregate
  | Some existing_aggregate_df => concat existing_aggregate_df aggregate
  end.

(** *** The store as pandas reads it back

    [pd.read_csv] infers the type of every column.  A column of names whose
    every cell is a decimal integer literal (of at most 18 digits, so that
    it fits 64 bits) is read as integers, and [to_csv] writes an integer
    without leading zeros.  What the reading makes of a cell of any other
    column of names is a variable of the section.  The cells of the
    measurements are floats or empty and are read back as written.  A
    header of distinct, non-empty names is read as written; what the
    reading makes of any other header is a variable too. *)

Definition is_digit (c : ascii) : bool :=
  (48 <=? nat_of_ascii c)%nat && (nat_of_ascii c <=? 57)%nat.

Fixpoint all_digits (s : string) : bool :=
  match s with
  | EmptyString => true
  | String c rest => is_digit c && all_digits rest
  end.

Definition is_integer_literal (s : string) : bool :=
  (1 <=? String.length s)%nat && (String.length s <=? 18)%nat && all_digits s.

(** The decimal writing of the integer a literal denotes. *)
Fixpoint strip_leading_zeros (s : string) : string :=
  match s with
  | EmptyString => s
  | String c rest =>
      match rest with
      | EmptyString => s
      | String _ _ => if Ascii.eqb c "0"%char then strip_leading_zeros rest else s
      end
  end.

(** Whether the names of a list are pairwise different. *)
Fixpoint distinct (l : list string) : bool :=
  match l with
  | [] => true
  | x :: rest => negb (Frame.mem x rest) && distinct rest
  end.

Section ReadCsv.

(** A header with an empty or a repeated name, as [pd.read_csv] names its
    columns. *)
Variable read_header : list string -> list string.

(** A cell of a column of names that are not all integer literals, as it
    is written after [pd.read_csv] has read the column. *)
Variable read_other : list string -> string -> string.

Definition read_columns (header : list string) : list string :=
  if distinct header && forallb (fun c => negb (String.eqb c "")) header
  then header
  else read_header header.

Definition read_name (column : list string) (cell : string) : string :=
  if forallb is_integer_literal column then strip_leading_zeros cell
  else read_other column cell.

(** [pd.read_csv] of the file [to_csv] wrote for a frame. *)
Definition read_csv (written : AggregateTable) : AggregateTable :=
  let rows := table_rows written in
  {| table_columns := read_columns (table_columns written);
     table_rows :=
       map (fun r =>
              mkAggregateRow
                (read_name (map agg_model rows) (agg_model r))
                (read_name (map agg_input rows) (agg_input r))
                (read_name (map agg_deployment_mechanism rows)
                           (agg_deployment_mechanism r))
                (agg_metrics r))
           rows |}.

(** [create_or_update_aggregate_csv] on files: the frame written to
    [aggregate_csv_path], from the frame that was written there before
    ([None] when the file does not exist). *)
Definition store_after (aggregate : AggregateTable) (store : option AggregateTable)
  : AggregateTable :=
  create_or_update_aggregate_csv aggregate (option_map read_csv store).

End ReadCsv.

(* ================================================================= *)
(** ** analyze_aggregate_data.py: the cross-experiment charts *)

Module Aggregate.

Definition DEPLOYMENT_MECHANISM_TO_COLOR : list (string * string) :=
  [("wasm_aot", "tab:red"); ("wasm_interpreted", "tab:blue");
   ("docker", "tab:green"); ("native", "tab:orange")].

Definition DEPLOYMENT_MECHANISM_TO_LINESTYLE : list (string * string) :=
  [("wasm_aot", "-"); ("wasm_interpreted", "--"); ("docker", "-."); ("native", ":")].

(** [d[key]] on a dictionary of strings. *)
Fixpoint lookup (key : string) (d : list (string * string)) : option string :=
  match d with
  | [] => None
  | (k, v) :: rest => if String.eqb k key then Some v else lookup key rest
  end.

(** Whether [d[key]] returns, rather than raising [KeyError]. *)
Definition has_key (key : string) (d : list (string * string)) : bool :=
  match lookup key d with Some _ => true | None => false end.

(** [s.replace("-", "_")] *)
Fixpoint replace_hyphen (s : string) : string :=
  match s with
  | EmptyString => EmptyString
  | String c rest =>
      String (if Ascii.eqb c "-"%char then "_"%char else c) (replace_hyphen rest)
  end.

(** How a run over the metrics ends: normally, or on the first exception;
    either way with the plot files saved so far. *)
Inductive Outcome :=
| Completed (plots : list string)
| Raised (plots : list string).

Definition plots_of (o : Outcome) : list string :=
  match o with Completed p | Raised p => p end.

Section Chart.

Variable aggregate_df : AggregateTable.
Variable across_models : bool.
Variable variable_values : list string.
Variable constant_value : string.
Variable save_output : bool.

(** Lines 58-67. *)
Definition plot_filename_prefix : string :=
  let variable_values_str := String.concat "_" variable_values in
  if across_models then
    ("aggregate_models_" ++ variable_values_str ++ "_for_input_" ++ constant_value)%string
  else
    ("aggregate_models_" ++ variable_values_str ++ "_for_model_" ++ constant_value)%string.

(** [f"{plot_filename_prefix}-{metric_with_underscores}-lineplot.png"] *)
Definition plot_filename (metric : string) : string :=
  (plot_filename_prefix ++ "-" ++ replace_hyphen metric ++ "-lineplot.png")%string.

(** Whether [plt.errorbar] for one mechanism returns: the two error
    columns and the two dictionary entries exist, and the mechanism has as
    many rows as there are values on the x axis (matplotlib refuses x and
    y of different lengths).  matplotlib also refuses a negative error;
    that test is not part of this definition: what is said of a chart
    that completes is said under [errors_are_non_negative]. *)
Definition errorbar_ok (metric deployment_mechanism : string) : bool :=
  let rows := filter (fun r => String.eqb (agg_deployment_mechanism r) deployment_mechanism)
                     (table_rows aggregate_df) in
  Frame.mem (metric ++ "-error-lower")%string (table_columns aggregate_df)
  && Frame.mem (metric ++ "-error-upper")%string (table_columns aggregate_df)
  && Nat.eqb (List.length variable_values) (List.length rows)
  && has_key deployment_mechanism DEPLOYMENT_MECHANISM_TO_COLOR
  && has_key deployment_mechanism DEPLOYMENT_MECHANISM_TO_LINESTYLE.

(** One turn of the loop of line 69. *)
Definition chart_metric (o : Outcome) (metric : string) : Outcome :=
  match o with
  | Raised plots => Raised plots
  | Completed plots =>
      if Frame.mem (metric ++ "-mean")%string (table_columns aggregate_df) then
        let deployment_mechanisms :=
          Frame.unique (map agg_deployment_mechanism (table_rows aggregate_df)) in
        if forallb (errorbar_ok metric) deployment_mechanisms then
          Completed (if save_output then plots ++ [plot_filename metric] else plots)
        else Raised plots
      else Completed plots
  end.

(** [chart_compare_across_models_or_inputs]: the plot files it saves in
    [plots_path]. *)
Definition chart_compare_across_models_or_inputs (metrics : list string) : Outcome :=
  fold_left chart_metric metrics (Completed []).

End Chart.

(** [compare_across_models_or_inputs]: the rows of the requested values of
    the variable and of the constant, then the charts. *)
Definition compare_across_models_or_inputs (aggregate_df : AggregateTable)
    (across_models : bool) (variable_values : list string) (constant_value : string)
    (metrics : list string) (save_output : bool) : Outcome :=
  let variable := if across_models then agg_model else agg_input in
  let constant := if across_models then agg_input else agg_model in
  let rows := filter (fun r => Frame.mem (variable r) variable_values)
                     (table_rows aggregate_df) in
  let rows := filter (fun r => String.eqb (constant r) constant_value) rows in
  chart_compare_across_models_or_inputs
    (mkAggregateTable (table_columns aggregate_df) rows)
    across_models variable_values constant_value save_output metrics.

(** [compare_across_models] *)
Definition compare_across_models (aggregate_df : AggregateTable)
    (models_to_compare : list string) (input : string) (metrics : list string)
    (save_output : bool) : Outcome :=
  compare_across_models_or_inputs aggregate_df true models_to_compare input metrics
                                  save_output.

(** [compare_across_inputs] *)
Definition compare_across_inputs (aggregate_df : AggregateTable)
    (inputs_to_compare : list string) (model : string) (metrics : list string)
    (save_output : bool) : Outcome :=
  compare_across_models_or_inputs aggregate_df false inputs_to_compare model metrics
                                  save_output.

End Aggregate.

(* ================================================================= *)
(** ** Quantities read off the orchestrator's loop

    Names for what one turn of the loops computes, so that the results
    below can say what the loops leave behind. *)

Section Readings.

Variable tppf : R -> R -> R.
Variable df : DataFrame.
Variable significance_level : R.

(** The comparison of the groups of [x] and [y] on one metric column. *)
Definition comparison (x y : string) (column : list R) : WelchResult :=
  welch_t_test_with_confidence_interval tppf
    (get_group df x column) (get_group df y column) significance_level.

(** The triple assigned to the aggregate cells of mechanism [m]: it is
    computed from the sample of [m] alone. *)
Definition own_summary (m : string) (column : list R) : R * R * R :=
  let arr := get_group df m column in
  let ci := Stats.tconfint_mean tppf arr significance_level in
  (Stats.mean arr, Stats.mean arr - fst ci, snd ci - Stats.mean arr).

(** The row appended to [comparison_df] at line 176. *)
Definition comparison_row (x y : string) (mc : string * list R) : ComparisonRow :=
  let w := comparison x y (snd mc) in
  {| cmp_metric := fst mc;
     cmp_x_value := x_ci w;
     cmp_y_value := y_ci w;
     cmp_statistically_significant := statistically_significant w;
     cmp_effect_size := fst (effect_size x y (x_mean w) (y_mean w) (ci_half_width w)) |}.

(** The five lines of lines 194-198. *)
Definition detail_messages (x y : string) (mc : string * list R) : list Message :=
  let w := comparison x y (snd mc) in
  let e := effect_size x y (x_mean w) (y_mean w) (ci_half_width w) in
  [ MsgMeanDifference (mean_diff w) (ci_half_width w) ((1 - significance_level) * 100);
    MsgAverage x (x_mean w) (fst (x_ci w)) (snd (x_ci w));
    MsgAverage y (y_mean w) (fst (y_ci w)) (snd (y_ci w));
    MsgRatio (fst (snd e)) (fst (fst e)) (snd (fst e)) (snd (snd e)) (fst mc);
    MsgBlank ].

(** Everything one comparison prints. *)
Definition comparison_messages (include_insignificant_output view_output : bool)
    (x y : string) (mc : string * list R) : list Message :=
  if view_output then
    if statistically_significant (comparison x y (snd mc))
    then MsgSignificant x y (fst mc) :: detail_messages x y mc
    else if include_insignificant_output
         then MsgNotSignificant x y (fst mc) :: detail_messages x y mc
         else [MsgNotSignificant x y (fst mc)]
  else [].

(** The aggregate cells of mechanism [m] once it has been compared:
    every metric that is a column of the frame carries [own_summary]. *)
Definition populate (m : string) (cells : list (string * option (R * R * R)))
  : list (string * option (R * R * R)) :=
  map (fun c => match Frame.get_column (fst c) (columns df) with
                | Some column => (fst c, Some (own_summary m column))
                | None => c
                end) cells.

(** Whether a mechanism occurs in one of the pairs. *)
Definition compared (m : string) (pairs : list (string * string)) : bool :=
  existsb (fun xy => String.eqb (fst xy) m || String.eqb (snd xy) m) pairs.

(** The aggregate frame after the loop over the metrics of the pair
    [(x, y)]: lines 170-173, once per metric. *)
Definition fill_pair (x y : string) (grouped : list (string * list R))
    (agg : list AggregateRow) : list AggregateRow :=
  fold_left (fun a mc => update_aggregate y (fst mc) (own_summary y (snd mc))
                           (update_aggregate x (fst mc) (own_summary x (snd mc)) a))
            grouped agg.

(** The cells of one row of mechanism [m] after the assignments of one
    loop over the metrics. *)
Definition fill_cells (m : string) (grouped : list (string * list R))
    (cells : list (string * option (R * R * R))) : list (string * option (R * R * R)) :=
  fold_left (fun c mc => set_metric (fst mc) (own_summary m (snd mc)) c) grouped cells.

(** The selected columns are those the frame holds under the metric names. *)
Definition consistent (grouped : list (string * list R)) : Prop :=
  Forall (fun mc => Frame.get_column (fst mc) (columns df) = Some (snd mc)) grouped.

(** One row of the aggregate frame after the pair [(x, y)]. *)
Definition fill_row (x y : string) (grouped : list (string * list R))
    (row : AggregateRow) : AggregateRow :=
  if String.eqb (agg_deployment_mechanism row) x
     || String.eqb (agg_deployment_mechanism row) y
  then mkAggregateRow (agg_model row) (agg_input row) (agg_deployment_mechanism row)
         (fill_cells (agg_deployment_mechanism row) grouped (agg_metrics row))
  else row.

(** One row of the aggregate frame once the pairs have been processed:
    populated when its mechanism occurs in a pair, untouched otherwise. *)
Definition settle_row (pairs : list (string * string)) (row : AggregateRow)
  : AggregateRow :=
  if compared (agg_deployment_mechanism row) pairs
  then mkAggregateRow (agg_model row) (agg_input row) (agg_deployment_mechanism row)
         (populate (agg_deployment_mechanism row) (agg_metrics row))
  else row.

(** The comparison file of one pair: a row for every selected metric. *)
Definition comparison_file (model input : string) (grouped : list (string * list R))
    (xy : string * string) : ComparisonFile :=
  mkComparisonFile (comparison_csv_filename model input (fst xy) (snd xy))
    (fst xy) (snd xy) (map (comparison_row (fst xy) (snd xy)) grouped).

(** The metrics of a row are among the selected ones. *)
Definition keys_within (grouped : list (string * list R)) (row : AggregateRow) : Prop :=
  incl (map fst (agg_metrics row)) (map fst grouped).

(** The aggregate frame the orchestrator returns when at least two
    mechanisms are present, written without the loops. *)
Definition own_aggregate (model input : string) (metrics : list string)
  : list AggregateRow :=
  map (fun m => mkAggregateRow model input m (populate m (initialize_columns metrics)))
      (Frame.unique (deployment_mechanism df)).

End Readings.

(* ================================================================= *)
(** ** Worked data *)

(** The quantile function of Student's t in the two cases where it has an
    elementary closed form: [tan (PI (p - 1/2))] for one degree of freedom,
    [(2p - 1) / sqrt (2p (1 - p))] for two.  The examples below use samples
    of two observations with equal variances, for which these are the
    degrees of freedom that occur. *)
Definition t_ppf_small (p dof : R) : R :=
  if Req_dec_T dof 1 then tan (PI * (p - / 2))
  else (2 * p - 1) / sqrt (2 * p * (1 - p)).

(** Two mechanisms with the same two latencies. *)
Definition df_equal : DataFrame :=
  {| deployment_mechanism := ["native"; "native"; "docker"; "docker"];
     columns := [("latency", [1; 3; 1; 3])] |}.

(** Two mechanisms with different latencies of equal spread. *)
Definition df_apart : DataFrame :=
  {| deployment_mechanism := ["native"; "native"; "docker"; "docker"];
     columns := [("latency", [1; 3; 5; 7])] |}.

(** One trial of each raw Docker variant and one native trial. *)
Definition df_variants : DataFrame :=
  {| deployment_mechanism :=
       ["docker_container"; "docker_container_and_daemon";
        "docker_container_and_daemon_extra_overhead"; "native"];
     columns := [("trial-number", [1; 1; 1; 1]); ("task-clock", [10; 20; 30; 40])] |}.

(** An aggregate store with one mechanism measured on two inputs. *)
Definition store_two_inputs : AggregateTable :=
  {| table_columns := ["model"; "input"; "deployment-mechanism";
                       "task-clock-mean"; "task-clock-error-lower";
                       "task-clock-error-upper"];
     table_rows :=
       [ mkAggregateRow "resnet" "cat" "native" [("task-clock", Some (10, 1, 1))];
         mkAggregateRow "resnet" "dog" "native" [("task-clock", Some (12, 1, 1))] ] |}.

(* ================================================================= *)
(** ** Readings of the loader, the store and the charts *)

(** A frame as pandas holds it: every column is as long as the
    ["deployment-mechanism"] column. *)
Definition well_shaped (df : DataFrame) : Prop :=
  Forall (fun c => List.length (snd c) = List.length (deployment_mechanism df))
         (columns df).

(** The name a view gives to a raw mechanism name (lines 251, 258, 266). *)
Definition docker_overhead_rename (docker_overhead_view : Z) (m : string) : string :=
  if Z.eqb docker_overhead_view DOCKER_OVERHEAD_EXCLUDE_DAEMON then
    if String.eqb m "docker_container" then "docker" else m
  else if Z.eqb docker_overhead_view DOCKER_OVERHEAD_INCLUDE_FULL_DAEMON then
    if String.prefix "docker_container_and_daemon" m then "docker" else m
  else if Z.eqb docker_overhead_view DOCKER_OVERHEAD_INCLUDE_ADDITIONAL_DAEMON then
    if String.prefix "docker_container_and_daemon_extra_overhead" m then "docker" else m
  else m.

(** The mask of [xs[first][second]] over the positions of [xs]. *)
Fixpoint then_mask (first second : list bool) : list bool :=
  match first with
  | [] => []
  | false :: first' => false :: then_mask first' second
  | true :: first' =>
      match second with
      | [] => false :: then_mask first' []
      | b :: second' => b :: then_mask first' second'
      end
  end.

(** The three raw names of the Docker variants. *)
Definition DOCKER_VARIANTS : list string :=
  ["docker_container"; "docker_container_and_daemon";
   "docker_container_and_daemon_extra_overhead"].

(** Whether a view keeps a row, from the name the view gave it (lines 255,
    262-263, 270-271). *)
Definition docker_overhead_keeps (docker_overhead_view : Z) (renamed : string) : bool :=
  if Z.eqb docker_overhead_view DOCKER_OVERHEAD_EXCLUDE_DAEMON then
    negb (String.prefix "docker_container_and_daemon" renamed)
  else if Z.eqb docker_overhead_view DOCKER_OVERHEAD_INCLUDE_FULL_DAEMON then
    negb (String.prefix "docker_container" renamed)
    && negb (String.prefix "docker_container_and_daemon_extra_overhead" renamed)
  else if Z.eqb docker_overhead_view DOCKER_OVERHEAD_INCLUDE_ADDITIONAL_DAEMON then
    negb (String.prefix "docker_container" renamed)
    && negb (String.prefix "docker_container_and_daemon" renamed)
  else true.

(** The rows of the raw frame that the loader returns: renamed by the view,
    kept by the view, and of a requested mechanism. *)
Definition loader_mask (docker_overhead_view : Z) (deployment_mechanisms : list string)
    (raw : list string) : list bool :=
  map (fun m => let renamed := docker_overhead_rename docker_overhead_view m in
                docker_overhead_keeps docker_overhead_view renamed
                && Frame.mem renamed deployment_mechanisms)
      raw.

Module AggregateMain.

(** [NON_METRIC_COLUMNS] of analyze_aggregate_data.py. *)
Definition NON_METRIC_COLUMNS : list string :=
  ["model"; "input"; "deployment-mechanism"].

(** [metric_cols] of [main] (lines 203-204). *)
Definition metric_cols (metrics : list string) : list string :=
  flat_map (fun metric => map (fun suffix => (metric ++ suffix)%string) METRIC_SUFFIXES)
           metrics.

(** [cols_to_keep] of [remove_irrelevant_df_columns] (line 173), from the
    header of the frame; the function returns [df[cols_to_keep]]. *)
Definition cols_to_keep (df_columns metric_cols : list string) : list string :=
  filter (fun col => Frame.mem col df_columns) (NON_METRIC_COLUMNS ++ metric_cols).

End AggregateMain.

(** The rows of the store a mechanism has. *)
Definition rows_of_mechanism (df : AggregateTable) (m : string) : list AggregateRow :=
  filter (fun r => String.eqb (agg_deployment_mechanism r) m) (table_rows df).


(** No error cell of the frame is negative: the orchestrator writes such
    cells whenever the quantile is not negative. *)
Definition errors_are_non_negative (df : AggregateTable) : Prop :=
  Forall (fun r =>
            Forall (fun c => match snd c with
                             | Some (_, lower, upper) => 0 <= lower /\ 0 <= upper
                             | None => True
                             end) (agg_metrics r))
         (table_rows df).

Section ChartReadings.

Variable aggregate_df : AggregateTable.
Variable across_models : bool.
Variable variable_values : list string.
Variable constant_value : string.
Variable save_output : bool.

(** The test of line 72. *)
Definition metric_is_present (metric : string) : bool :=
  Frame.mem (metric ++ "-mean")%string (table_columns aggregate_df).

(** Whether the loop of line 77 passes every mechanism of the frame. *)
Definition metric_is_drawable (metric : string) : bool :=
  forallb (Aggregate.errorbar_ok aggregate_df variable_values metric)
          (Frame.unique (map agg_deployment_mechanism (table_rows aggregate_df))).

(** The plot files of the metrics that are present, when plots are saved. *)
Definition plots_named (metrics : list string) : list string :=
  if save_output
  then map (Aggregate.plot_filename across_models variable_values constant_value)
           (filter metric_is_present metrics)
  else [].

End ChartReadings.

(** *** More worked data *)

(** Two trials of one mechanism. *)
Definition df_single : DataFrame :=
  {| deployment_mechanism := ["native"; "native"];
     columns := [("latency", [1; 3])] |}.

(** One trial of a perf file with its two raw counters. *)
Definition df_counters : DataFrame :=
  {| deployment_mechanism := ["native"];
     columns := [("cpu-cycles", [1000]); ("instructions", [500])] |}.

(** A store whose inputs are numbered. *)
Definition store_numbered : AggregateTable :=
  {| table_columns := ["model"; "input"; "deployment-mechanism";
                       "task-clock-mean"; "task-clock-error-lower";
                       "task-clock-error-upper"];
     table_rows :=
       [ mkAggregateRow "resnet" "007" "native" [("task-clock", Some (10, 1, 1))];
         mkAggregateRow "resnet" "008" "native" [("task-clock", Some (12, 1, 1))] ] |}.

(** A reading that leaves every cell it is asked about as written. *)
Definition read_as_written (column : list string) (cell : string) : string := cell.

(** A reading that leaves every header it is asked about as written. *)
Definition header_as_written (header : list string) : list string := header.

(** The aggregate frame of a second analysis of the experiment on ["cat"]. *)
Definition aggregate_cat_again : AggregateTable :=
  {| table_columns := ["model"; "input"; "deployment-mechanism";
                       "task-clock-mean"; "task-clock-error-lower";
                       "task-clock-error-upper"];
     table_rows :=
       [ mkAggregateRow "resnet" "cat" "native" [("task-clock", Some (10, 1, 1))] ] |}.

(* ================================================================= *)
(** ** Facts about the statistics *)

Module StatsFacts.
Import Stats.

Lemma sum_scale (c : R) (xs : list R) : sum (map (Rmult c) xs) = c * sum xs.
Proof.
  induction xs as [|x xs IH]; simpl.
  - ring.
  - rewrite IH. ring.
Qed.

Lemma nobs_map (f : R -> R) (xs : list R) : nobs (map f xs) = nobs xs.
Proof. unfold nobs. now rewrite length_map. Qed.

Lemma mean_scale (c : R) (xs : list R) : mean (map (Rmult c) xs) = c * mean xs.
Proof.
  unfold mean. rewrite sum_scale, nobs_map. unfold Rdiv. ring.
Qed.

Lemma sum_ext (f g : R -> R) (xs : list R) :
  (forall x, f x = g x) -> sum (map f xs) = sum (map g xs).
Proof.
  intros H. induction xs as [|x xs IH]; simpl; [reflexivity|].
  now rewrite H, IH.
Qed.

Lemma sumsquares_scale (c : R) (xs : list R) :
  sumsquares (map (Rmult c) xs) = c * c * sumsquares xs.
Proof.
  unfold sumsquares. rewrite mean_scale, map_map.
  rewrite <- sum_scale, map_map.
  apply sum_ext. intros x. ring.
Qed.

Lemma var_scale (c : R) (xs : list R) : var (map (Rmult c) xs) = c * c * var xs.
Proof.
  unfold var. rewrite sumsquares_scale, nobs_map. unfold Rdiv. ring.
Qed.

Lemma sqrt_scale (c s : R) : 0 <= c -> sqrt (c * c * s) = c * sqrt s.
Proof.
  intros Hc. rewrite sqrt_mult_alt by nra. now rewrite sqrt_square.
Qed.

Lemma std_meandiff_scale (c : R) (xs ys : list R) :
  0 <= c ->
  std_meandiff_separatevar (map (Rmult c) xs) (map (Rmult c) ys)
  = c * std_meandiff_separatevar xs ys.
Proof.
  intros Hc. unfold std_meandiff_separatevar.
  rewrite !var_scale, !nobs_map. rewrite <- sqrt_scale by assumption.
  f_equal. unfold Rdiv. ring.
Qed.

Lemma quotient_scale (c a b : R) : c <> 0 -> (c * c * a) / (c * c * b) = a / b.
Proof.
  intros Hc. destruct (Req_dec_T b 0) as [->|Hb].
  - unfold Rdiv. rewrite Rmult_0_r, Rinv_0. ring.
  - field. split; assumption.
Qed.

Lemma dof_satt_scale (c : R) (xs ys : list R) :
  c <> 0 -> dof_satt (map (Rmult c) xs) (map (Rmult c) ys) = dof_satt xs ys.
Proof.
  intros Hc. unfold dof_satt. cbv zeta.
  rewrite !var_scale, !nobs_map.
  replace (c * c * var xs / (nobs xs - 1) + c * c * var ys / (nobs ys - 1))
    with (c * c * (var xs / (nobs xs - 1) + var ys / (nobs ys - 1)))
    by (unfold Rdiv; ring).
  replace (c * c * var xs / (nobs xs - 1)) with (c * c * (var xs / (nobs xs - 1)))
    by (unfold Rdiv; ring).
  replace (c * c * var ys / (nobs ys - 1)) with (c * c * (var ys / (nobs ys - 1)))
    by (unfold Rdiv; ring).
  now rewrite !quotient_scale by assumption.
Qed.

Lemma dof_satt_sym (xs ys : list R) : dof_satt xs ys = dof_satt ys xs.
Proof.
  unfold dof_satt. cbv zeta.
  rewrite (Rplus_comm (var ys / (nobs ys - 1))).
  f_equal. apply Rplus_comm.
Qed.

Lemma std_meandiff_sym (xs ys : list R) :
  std_meandiff_separatevar xs ys = std_meandiff_separatevar ys xs.
Proof. unfold std_meandiff_separatevar. now rewrite Rplus_comm. Qed.

Lemma sum_squares_nonneg (f : R -> R) (xs : list R) :
  0 <= sum (map (fun x => f x * f x) xs).
Proof.
  induction xs as [|x xs IH]; simpl; [lra|].
  pose proof (Rle_0_sqr (f x)) as H. unfold Rsqr in H. lra.
Qed.

Lemma sumsquares_nonneg (xs : list R) : 0 <= sumsquares xs.
Proof. unfold sumsquares. apply (sum_squares_nonneg (fun x => x - mean xs)). Qed.

Lemma nobs_nonneg (xs : list R) : 0 <= nobs xs.
Proof. unfold nobs. apply pos_INR. Qed.

Lemma nobs_ge_2 (xs : list R) : (2 <= List.length xs)%nat -> 2 <= nobs xs.
Proof. intros H. unfold nobs. apply le_INR in H. simpl in H. lra. Qed.

Lemma var_nonneg (xs : list R) : 0 <= var xs.
Proof.
  unfold var. pose proof (sumsquares_nonneg xs) as Hs.
  pose proof (nobs_nonneg xs) as Hn.
  destruct (Req_dec_T (nobs xs) 0) as [->|Hz].
  - unfold Rdiv. rewrite Rinv_0. lra.
  - apply Rmult_le_pos; [assumption|]. left. apply Rinv_0_lt_compat. lra.
Qed.

Lemma std_mean_pos (xs : list R) :
  (2 <= List.length xs)%nat -> var xs <> 0 -> 0 < std_mean xs.
Proof.
  intros Hn Hv. unfold std_mean, std.
  pose proof (var_nonneg xs) as Hv0. pose proof (nobs_ge_2 xs Hn) as Hn2.
  apply Rmult_lt_0_compat.
  - apply sqrt_lt_R0. lra.
  - apply Rinv_0_lt_compat, sqrt_lt_R0. lra.
Qed.

End StatsFacts.

Import StatsFacts.

(* ================================================================= *)
(** ** The comparator *)

Lemma Rleb_true_iff (x y : R) : Rleb x y = true <-> x <= y.
Proof. unfold Rleb. destruct (Rle_dec x y); split; auto; discriminate. Qed.

Lemma Rltb_true_iff (x y : R) : Rltb x y = true <-> x < y.
Proof. unfold Rltb. destruct (Rlt_dec x y); split; auto; discriminate. Qed.

Lemma Rleb_opp (x y : R) : Rleb (- x) (- y) = Rleb y x.
Proof.
  unfold Rleb. destruct (Rle_dec (- x) (- y)), (Rle_dec y x); auto; exfalso; lra.
Qed.

Lemma Rltb_scale (c x y : R) : 0 < c -> Rltb (c * x) (c * y) = Rltb x y.
Proof.
  intros Hc. unfold Rltb.
  destruct (Rlt_dec (c * x) (c * y)), (Rlt_dec x y); auto; exfalso; nra.
Qed.

(** The squared standard error of a mean is positive on a sample of at
    least two observations and non-zero variance. *)
Lemma sem_pos (xs : list R) :
  (2 <= List.length xs)%nat -> Stats.var xs <> 0 ->
  0 < Stats.var xs / (Stats.nobs xs - 1).
Proof.
  intros Hn Hv. pose proof (var_nonneg xs) as Hv0. pose proof (nobs_ge_2 xs Hn) as Hn2.
  apply Rdiv_lt_0_compat; lra.
Qed.

Lemma std_meandiff_pos (xs ys : list R) :
  (2 <= List.length xs)%nat -> (2 <= List.length ys)%nat ->
  Stats.var xs <> 0 -> Stats.var ys <> 0 ->
  0 < Stats.std_meandiff_separatevar xs ys.
Proof.
  intros Hnx Hny Hvx Hvy. unfold Stats.std_meandiff_separatevar.
  pose proof (sem_pos xs Hnx Hvx). pose proof (sem_pos ys Hny Hvy).
  apply sqrt_lt_R0. lra.
Qed.

Lemma dof_satt_pos (xs ys : list R) :
  (2 <= List.length xs)%nat -> (2 <= List.length ys)%nat ->
  Stats.var xs <> 0 -> Stats.var ys <> 0 ->
  0 < Stats.dof_satt xs ys.
Proof.
  intros Hnx Hny Hvx Hvy. unfold Stats.dof_satt. cbv zeta.
  pose proof (sem_pos xs Hnx Hvx) as Ha. pose proof (sem_pos ys Hny Hvy) as Hb.
  pose proof (nobs_ge_2 xs Hnx) as Hn1. pose proof (nobs_ge_2 ys Hny) as Hn2.
  set (a := Stats.var xs / (Stats.nobs xs - 1)) in *.
  set (b := Stats.var ys / (Stats.nobs ys - 1)) in *.
  assert (Hra : 0 < a / (a + b)) by (apply Rdiv_lt_0_compat; lra).
  assert (Hrb : 0 < b / (a + b)) by (apply Rdiv_lt_0_compat; lra).
  assert (Hz1 : 0 < a / (a + b) * (a / (a + b)) / (Stats.nobs xs - 1)).
  { apply Rdiv_lt_0_compat; [now apply Rmult_lt_0_compat | lra]. }
  assert (Hz2 : 0 < b / (a + b) * (b / (a + b)) / (Stats.nobs ys - 1)).
  { apply Rdiv_lt_0_compat; [now apply Rmult_lt_0_compat | lra]. }
  apply Rdiv_lt_0_compat; lra.
Qed.

Section Comparator.
Variable tppf : R -> R -> R.

Lemma tconfint_diff_swap (xs ys : list R) (alpha : R) :
  Stats.tconfint_diff tppf ys xs alpha =
  (- snd (Stats.tconfint_diff tppf xs ys alpha),
   - fst (Stats.tconfint_diff tppf xs ys alpha)).
Proof.
  unfold Stats.tconfint_diff, Stats.tconfint_generic. cbn [fst snd].
  rewrite (dof_satt_sym ys xs), (std_meandiff_sym ys xs).
  f_equal; ring.
Qed.

Lemma significant_false_iff (arr_x arr_y : list R) (alpha : R) :
  let w := welch_t_test_with_confidence_interval tppf arr_x arr_y alpha in
  statistically_significant w = false <-> ci_lower w <= 0 <= ci_upper w.
Proof.
  cbn. rewrite negb_false_iff, andb_true_iff, !Rleb_true_iff. tauto.
Qed.

(** The flag is the negation of "the interval of [mean(Y) - mean(X)]
    contains zero"; the bounds the function returns are those of
    [mean(X) - mean(Y)], the mirror image. *)
Lemma flag_of_either_interval (arr_x arr_y : list R) (alpha : R) :
  let w := welch_t_test_with_confidence_interval tppf arr_x arr_y alpha in
  let ci := Stats.tconfint_diff tppf arr_y arr_x alpha in
  statistically_significant w = negb (Rleb (fst ci) 0 && Rleb 0 (snd ci))
  /\ (statistically_significant w = false <-> fst ci <= 0 <= snd ci)
  /\ statistically_significant w = negb (Rleb (ci_lower w) 0 && Rleb 0 (ci_upper w)).
Proof.
  cbv zeta. rewrite <- and_assoc. split; [|reflexivity].
  assert (E : statistically_significant
                (welch_t_test_with_confidence_interval tppf arr_x arr_y alpha)
              = negb (Rleb (fst (Stats.tconfint_diff tppf arr_y arr_x alpha)) 0
                      && Rleb 0 (snd (Stats.tconfint_diff tppf arr_y arr_x alpha)))).
  { rewrite tconfint_diff_swap. cbn [fst snd statistically_significant
      welch_t_test_with_confidence_interval].
    rewrite <- (Rleb_opp 0), <- (Rleb_opp _ 0), Ropp_0.
    f_equal. apply andb_comm. }
  split; [exact E|].
  rewrite E, negb_false_iff, andb_true_iff, !Rleb_true_iff. tauto.
Qed.

(** C1.  For two samples of at least two observations and of non-zero
    variance, [alpha] in (0,1) and a quantile function that is positive above
    the median: the significance flag is the negation of "the interval
    contains zero", for the two-sided Welch interval of [mean(Y) - mean(X)];
    it is [false] exactly when that interval straddles zero; and for
    [X = Y] the interval does straddle zero, with zero strictly inside, and
    the flag is [false].  (The bounds the function returns are those of
    [mean(X) - mean(Y)], the mirror image; zero lies in one interval exactly
    when it lies in the other.) *)
Theorem significance_flag (arr_x arr_y : list R) (alpha : R) :
  (2 <= List.length arr_x)%nat -> (2 <= List.length arr_y)%nat ->
  Stats.var arr_x <> 0 -> Stats.var arr_y <> 0 ->
  0 < alpha < 1 ->
  (forall p dof, / 2 < p < 1 -> 0 < dof -> 0 < tppf p dof) ->
  let w := welch_t_test_with_confidence_interval tppf arr_x arr_y alpha in
  let ci := Stats.tconfint_diff tppf arr_y arr_x alpha in
  statistically_significant w = negb (Rleb (fst ci) 0 && Rleb 0 (snd ci))
  /\ (statistically_significant w = false <-> fst ci <= 0 <= snd ci)
  /\ statistically_significant w = negb (Rleb (ci_lower w) 0 && Rleb 0 (ci_upper w))
  /\ (arr_x = arr_y ->
      fst ci < 0 < snd ci /\ statistically_significant w = false).
Proof.
  intros Hnx Hny Hvx Hvy Halpha Hq. cbv zeta.
  destruct (flag_of_either_interval arr_x arr_y alpha) as (E1 & E2 & E3).
  cbv zeta in E1, E2, E3.
  split; [exact E1|]. split; [exact E2|]. split; [exact E3|].
  intros Heq.
  assert (Hin : fst (Stats.tconfint_diff tppf arr_y arr_x alpha) < 0
                < snd (Stats.tconfint_diff tppf arr_y arr_x alpha)).
  { subst arr_y. unfold Stats.tconfint_diff, Stats.tconfint_generic. cbn [fst snd].
    pose proof (std_meandiff_pos arr_x arr_x Hnx Hnx Hvx Hvx) as Hs.
    pose proof (dof_satt_pos arr_x arr_x Hnx Hnx Hvx Hvx) as Hd.
    assert (Hp : / 2 < 1 - alpha / 2 < 1) by lra.
    pose proof (Hq _ _ Hp Hd) as Ht.
    pose proof (Rmult_lt_0_compat _ _ Ht Hs) as Hw.
    lra. }
  split; [exact Hin|]. apply E2. lra.
Qed.

(** A sample compared with itself is never significant, the quantile being
    non-negative: the interval is centred on zero. *)
Lemma same_sample_not_significant (arr : list R) (alpha : R) :
  0 <= tppf (1 - alpha / 2) (Stats.dof_satt arr arr) ->
  statistically_significant
    (welch_t_test_with_confidence_interval tppf arr arr alpha) = false.
Proof.
  intros Hq. apply significant_false_iff.
  cbn. unfold Stats.tconfint_diff, Stats.tconfint_generic. cbn [fst snd].
  pose proof (sqrt_pos (Stats.var arr / (Stats.nobs arr - 1)
                        + Stats.var arr / (Stats.nobs arr - 1))) as Hs.
  fold (Stats.std_meandiff_separatevar arr arr) in Hs.
  nra.
Qed.

(** The bounds of lines 152-164 in terms of the smaller and the larger mean. *)
Lemma effect_size_bounds (x y : string) (mx my h : R) :
  fst (effect_size x y mx my h)
  = (Rmax mx my / Rmin mx my - h / Rmin mx my,
     Rmax mx my / Rmin mx my + h / Rmin mx my).
Proof.
  unfold effect_size, Rltb, Rmin, Rmax.
  destruct (Rlt_dec mx my) as [Hlt|Hge]; destruct (Rle_dec mx my) as [Hle|Hgt];
    cbn [fst]; try reflexivity.
  - exfalso; lra.
  - assert (E : mx = my) by lra. rewrite E. reflexivity.
Qed.


Lemma welch_scale (c : R) (arr_x arr_y : list R) (alpha : R) :
  0 < c ->
  let w := welch_t_test_with_confidence_interval tppf arr_x arr_y alpha in
  let w' := welch_t_test_with_confidence_interval tppf
              (map (Rmult c) arr_x) (map (Rmult c) arr_y) alpha in
  x_mean w' = c * x_mean w /\ y_mean w' = c * y_mean w
  /\ ci_half_width w' = c * ci_half_width w.
Proof.
  intros Hc. cbn. rewrite !mean_scale. repeat split.
  unfold Stats.tconfint_diff, Stats.tconfint_generic. cbn [fst snd].
  rewrite dof_satt_scale by lra. rewrite std_meandiff_scale by lra.
  rewrite ?mean_scale. field.
Qed.

(** C6.  Multiplying both samples by the same positive constant leaves
    the effect-size ratio range unchanged (samples of positive means). *)
Theorem effect_size_scale_invariant (x y : string) (c : R)
    (arr_x arr_y : list R) (alpha : R) :
  0 < c -> 0 < Stats.mean arr_x -> 0 < Stats.mean arr_y ->
  let w := welch_t_test_with_confidence_interval tppf arr_x arr_y alpha in
  let w' := welch_t_test_with_confidence_interval tppf
              (map (Rmult c) arr_x) (map (Rmult c) arr_y) alpha in
  effect_size x y (x_mean w') (y_mean w') (ci_half_width w')
  = effect_size x y (x_mean w) (y_mean w) (ci_half_width w).
Proof.
  intros Hc Hx Hy. cbv zeta.
  destruct (welch_scale c arr_x arr_y alpha Hc) as (Ex & Ey & Eh).
  cbv zeta in Ex, Ey, Eh. rewrite Ex, Ey, Eh.
  change (x_mean (welch_t_test_with_confidence_interval tppf arr_x arr_y alpha))
    with (Stats.mean arr_x).
  change (y_mean (welch_t_test_with_confidence_interval tppf arr_x arr_y alpha))
    with (Stats.mean arr_y).
  unfold effect_size. rewrite Rltb_scale by assumption.
  destruct (Rltb (Stats.mean arr_x) (Stats.mean arr_y));
    f_equal; f_equal; field; lra.
Qed.
End Comparator.

(* ================================================================= *)
(** ** The orchestrator, loop by loop *)

Lemma mem_true_iff (name : string) (names : list string) :
  Frame.mem name names = true <-> In name names.
Proof.
  unfold Frame.mem. rewrite existsb_exists. split.
  - intros (k & Hin & E). apply String.eqb_eq in E. now subst.
  - intros Hin. exists name. split; [assumption | apply String.eqb_refl].
Qed.

(** *** The names of the aggregate columns *)

Ltac peel_suffix H m :=
  repeat (destruct m as [|? m]; cbn in H;
          [ discriminate H | first [ discriminate H | injection H as _ H ] ]).

Lemma suffix_not_inside (s1 s2 m : string) (c : ascii) :
  In s1 METRIC_SUFFIXES -> In s2 METRIC_SUFFIXES ->
  s1 <> (String c m ++ s2)%string.
Proof.
  intros H1 H2 E.
  destruct H1 as [<-|[<-|[<-|[]]]]; destruct H2 as [<-|[<-|[<-|[]]]];
    cbn in E; injection E as _ E; peel_suffix E m.
Qed.

(** Two aggregate columns of the same name belong to the same metric and
    carry the same suffix. *)
Lemma metric_column_injective (m1 m2 s1 s2 : string) :
  In s1 METRIC_SUFFIXES -> In s2 METRIC_SUFFIXES ->
  (m1 ++ s1 = m2 ++ s2)%string -> m1 = m2 /\ s1 = s2.
Proof.
  intros H1 H2. revert m2.
  induction m1 as [|c m1 IH]; intros [|d m2] E; cbn in E.
  - now split.
  - exfalso. now apply (suffix_not_inside s1 s2 m2 d).
  - exfalso. symmetry in E. now apply (suffix_not_inside s2 s1 m1 c).
  - injection E as -> E. destruct (IH m2 E) as [-> ->]. now split.
Qed.

(** *** The initial frame and the selected columns *)

Lemma initialize_columns_from (metric_cols : list string)
    (acc : list (string * option (R * R * R))) :
  let cols := fold_left (fun cols metric =>
                           if Frame.mem metric (map fst cols) then cols
                           else cols ++ [(metric, None)]) metric_cols acc in
  incl (map fst cols) (map fst acc ++ metric_cols)
  /\ (Forall (fun c => snd c = None) acc -> Forall (fun c => snd c = None) cols).
Proof.
  revert acc. induction metric_cols as [|metric rest IH]; intros acc; cbn [fold_left].
  - split; [|auto]. rewrite app_nil_r. apply incl_refl.
  - destruct (Frame.mem metric (map fst acc)) eqn:E.
    + destruct (IH acc) as [Hk Hn]. split; [|exact Hn].
      intros k Hin. apply Hk in Hin. apply in_app_iff in Hin. apply in_app_iff.
      destruct Hin; [now left | right; now right].
    + destruct (IH (acc ++ [(metric, None)])) as [Hk Hn]. split.
      * intros k Hin. apply Hk in Hin. rewrite map_app in Hin. cbn in Hin.
        rewrite !in_app_iff in Hin. cbn in Hin. apply in_app_iff. cbn. tauto.
      * intros Hacc. apply Hn. apply Forall_app. split; [assumption|].
        now constructor.
Qed.

Lemma initialize_columns_keys (metric_cols : list string) :
  incl (map fst (initialize_columns metric_cols)) metric_cols.
Proof. exact (proj1 (initialize_columns_from metric_cols [])). Qed.

Lemma initialize_columns_empty (metric_cols : list string) :
  Forall (fun c => snd c = None) (initialize_columns metric_cols).
Proof. apply (proj2 (initialize_columns_from metric_cols [])). constructor. Qed.

Lemma get_column_in (name : string) (cols : list (string * list R)) :
  In name (map fst cols) -> exists c, Frame.get_column name cols = Some c.
Proof.
  induction cols as [|[n c] cols IH]; cbn; [tauto|].
  intros [->|Hin].
  - rewrite String.eqb_refl. now exists c.
  - destruct (String.eqb n name); [now exists c | now apply IH].
Qed.

Section Loop.
Variable tppf : R -> R -> R.
Variable df : DataFrame.
Variable significance_level : R.
Variable model input : string.
Variable include_insignificant_output view_output save_output : bool.

Local Abbreviation own := (own_summary tppf df significance_level).
Local Abbreviation row_of := (comparison_row tppf df significance_level).
Local Abbreviation messages :=
  (comparison_messages tppf df significance_level
     include_insignificant_output view_output).
Local Abbreviation step :=
  (metric_step tppf df significance_level include_insignificant_output view_output).
Local Abbreviation turn :=
  (pair_step tppf df significance_level model input include_insignificant_output
     view_output save_output).
Local Abbreviation fill := (fill_row tppf df significance_level).
Local Abbreviation settle := (settle_row tppf df significance_level).
Local Abbreviation populated := (populate tppf df significance_level).

(** *** One turn of the inner loop *)

(** What one turn does to the three parts of the state. *)
Lemma metric_step_eq (x y : string) agg rows console (mc : string * list R) :
  step x y (agg, rows, console) mc =
  (update_aggregate y (fst mc) (own y (snd mc))
     (update_aggregate x (fst mc) (own x (snd mc)) agg),
   rows ++ [row_of x y mc],
   console ++ messages x y mc).
Proof.
  unfold metric_step, comparison_row, comparison_messages, detail_messages,
    comparison, own_summary, print_if_true.
  cbn [x_ci y_ci x_mean y_mean welch_t_test_with_confidence_interval].
  set (w := welch_t_test_with_confidence_interval tppf _ _ _).
  destruct (effect_size x y (Stats.mean _) (Stats.mean _) (ci_half_width w))
    as [[ratio_min ratio_max] [subject object]].
  cbn [fst snd].
  destruct (statistically_significant w), include_insignificant_output, view_output;
    cbn [negb]; rewrite <- ?app_assoc, ?app_nil_r; reflexivity.
Qed.

Lemma metric_loop_eq (x y : string) (grouped : list (string * list R))
    agg rows console :
  fold_left (step x y) grouped (agg, rows, console) =
  (fill_pair tppf df significance_level x y grouped agg,
   rows ++ map (row_of x y) grouped,
   console ++ flat_map (messages x y) grouped).
Proof.
  revert agg rows console.
  induction grouped as [|mc grouped IH]; intros agg rows console; cbn [fold_left].
  - cbn. now rewrite !app_nil_r.
  - rewrite metric_step_eq, IH. cbn [map flat_map fill_pair fold_left].
    now rewrite <- !app_assoc.
Qed.

(** The effect size written in the row of a comparison is the range
    around the ratio of the larger to the smaller mean of the two groups. *)
Lemma comparison_row_effect_size (x y : string) (mc : string * list R) :
  let w := comparison tppf df significance_level x y (snd mc) in
  let small := Rmin (x_mean w) (y_mean w) in
  let large := Rmax (x_mean w) (y_mean w) in
  cmp_effect_size (row_of x y mc)
  = (large / small - ci_half_width w / small, large / small + ci_half_width w / small).
Proof. cbv zeta. apply effect_size_bounds. Qed.

(** *** The cells of one row *)

(** The assignments of one loop over the metrics, cell by cell. *)
Lemma fill_cells_eq (m : string) (grouped : list (string * list R)) cells :
  consistent df grouped ->
  fill_cells tppf df significance_level m grouped cells =
  map (fun c => if Frame.mem (fst c) (map fst grouped)
                then match Frame.get_column (fst c) (columns df) with
                     | Some column => (fst c, Some (own m column))
                     | None => c
                     end
                else c) cells.
Proof.
  intros Hg. revert cells.
  induction Hg as [|mc grouped Hmc Hg IH]; intros cells.
  - cbn. symmetry. rewrite <- (map_id cells) at 2. reflexivity.
  - unfold fill_cells in *. cbn [fold_left]. rewrite IH.
    unfold set_metric. rewrite map_map. apply map_ext. intros c.
    cbn [map Frame.mem existsb]. fold (Frame.mem (fst c) (map fst grouped)).
    destruct (String.eqb (fst c) (fst mc)) eqn:E.
    + apply String.eqb_eq in E. cbn [fst orb]. rewrite E, Hmc.
      now destruct (Frame.mem (fst mc) (map fst grouped)).
    + reflexivity.
Qed.

Lemma fill_cells_populate (m : string) (grouped : list (string * list R)) cells :
  consistent df grouped ->
  incl (map fst cells) (map fst grouped) ->
  fill_cells tppf df significance_level m grouped cells = populated m cells.
Proof.
  intros Hg Hk. rewrite fill_cells_eq by assumption. unfold populate.
  apply map_ext_in. intros c Hc.
  assert (Hm : Frame.mem (fst c) (map fst grouped) = true).
  { apply mem_true_iff, Hk, in_map, Hc. }
  now rewrite Hm.
Qed.

Lemma populate_keys (m : string) cells :
  map fst (populated m cells) = map fst cells.
Proof.
  unfold populate. rewrite map_map. apply map_ext. intros c.
  now destruct (Frame.get_column (fst c) (columns df)).
Qed.

Lemma populate_idempotent (m : string) cells :
  populated m (populated m cells) = populated m cells.
Proof.
  unfold populate. rewrite map_map. apply map_ext. intros c.
  destruct (Frame.get_column (fst c) (columns df)) eqn:E; cbn [fst]; now rewrite E.
Qed.

(** *** The rows of the aggregate frame *)

Lemma set_metric_twice metric v cells :
  set_metric metric v (set_metric metric v cells) = set_metric metric v cells.
Proof.
  unfold set_metric. rewrite map_map. apply map_ext. intros c.
  destruct (String.eqb (fst c) metric) eqn:E; cbn [fst]; now rewrite E.
Qed.

Lemma fill_row_nil (x y : string) (row : AggregateRow) :
  fill x y [] row = row.
Proof.
  unfold fill_row, fill_cells. cbn [fold_left].
  destruct row; cbn. now destruct (_ || _).
Qed.

Lemma fill_row_cons (x y : string) mc grouped (row : AggregateRow) :
  fill x y grouped (fill x y [mc] row) = fill x y (mc :: grouped) row.
Proof.
  unfold fill_row.
  destruct (String.eqb (agg_deployment_mechanism row) x
            || String.eqb (agg_deployment_mechanism row) y) eqn:E.
  - cbn [agg_deployment_mechanism agg_model agg_input agg_metrics]. now rewrite E.
  - now rewrite E.
Qed.

(** The two assignments of lines 170-173, row by row. *)
Lemma update_pair_row (x y : string) (mc : string * list R) (agg : list AggregateRow) :
  update_aggregate y (fst mc) (own y (snd mc))
    (update_aggregate x (fst mc) (own x (snd mc)) agg)
  = map (fill x y [mc]) agg.
Proof.
  unfold update_aggregate. rewrite map_map. apply map_ext. intros row.
  unfold fill_row, fill_cells. cbn [fold_left fst snd].
  destruct (String.eqb (agg_deployment_mechanism row) x) eqn:Ex;
    cbn [agg_deployment_mechanism agg_model agg_input agg_metrics orb];
    destruct (String.eqb (agg_deployment_mechanism row) y) eqn:Ey;
    try reflexivity.
  - apply String.eqb_eq in Ex, Ey. subst x y. now rewrite set_metric_twice.
  - apply String.eqb_eq in Ex. now subst x.
  - apply String.eqb_eq in Ey. now subst y.
Qed.

Lemma fill_pair_eq (x y : string) grouped (agg : list AggregateRow) :
  fill_pair tppf df significance_level x y grouped agg = map (fill x y grouped) agg.
Proof.
  revert agg. induction grouped as [|mc grouped IH]; intros agg.
  - cbn. rewrite <- (map_id agg) at 1. apply map_ext. intros row.
    now rewrite fill_row_nil.
  - unfold fill_pair in *. cbn [fold_left]. rewrite IH, update_pair_row, map_map.
    apply map_ext. intros row. apply fill_row_cons.
Qed.

(** *** One turn of the outer loop, and the loop *)

Lemma pair_step_eq grouped (st : Analysis) (x y : string) :
  turn grouped st (x, y)
  = {| aggregate_df := map (fill x y grouped) (aggregate_df st);
       printed := printed st ++ flat_map (messages x y) grouped;
       saved :=
         if save_output
         then saved st ++
              [mkComparisonFile (comparison_csv_filename model input x y) x y
                 (map (row_of x y) grouped)]
         else saved st |}.
Proof.
  unfold pair_step. rewrite metric_loop_eq, fill_pair_eq. reflexivity.
Qed.

Lemma pair_loop_eq grouped (pairs : list (string * string)) (st : Analysis) :
  fold_left (turn grouped) pairs st
  = {| aggregate_df :=
         fold_left (fun agg xy => map (fill (fst xy) (snd xy) grouped) agg)
                   pairs (aggregate_df st);
       printed :=
         printed st ++
         flat_map (fun xy => flat_map (messages (fst xy) (snd xy)) grouped) pairs;
       saved :=
         if save_output
         then saved st ++
              map (comparison_file tppf df significance_level model input grouped) pairs
         else saved st |}.
Proof.
  revert st. induction pairs as [|[x y] pairs IH]; intros st; cbn [fold_left].
  - destruct st; cbn. rewrite !app_nil_r. now destruct save_output.
  - rewrite IH, pair_step_eq. cbn [aggregate_df printed saved flat_map map fst snd].
    rewrite <- !app_assoc. f_equal.
    destruct save_output; [|reflexivity].
    now rewrite <- app_assoc.
Qed.

(** A row settled by the pairs still to come, after the turn of [(x, y)]. *)
Lemma fill_row_settle grouped (x y : string) (pairs : list (string * string))
    (row : AggregateRow) :
  consistent df grouped -> keys_within grouped row ->
  settle pairs (fill x y grouped row) = settle ((x, y) :: pairs) row.
Proof.
  intros Hg Hk. unfold settle_row, fill_row. cbn [compared existsb fst snd].
  fold (compared (agg_deployment_mechanism row) pairs).
  rewrite (String.eqb_sym x), (String.eqb_sym y).
  destruct (String.eqb (agg_deployment_mechanism row) x
            || String.eqb (agg_deployment_mechanism row) y) eqn:E;
    cbn [orb agg_deployment_mechanism agg_model agg_input agg_metrics]; [|reflexivity].
  rewrite (fill_cells_populate _ _ _ Hg Hk).
  destruct (compared (agg_deployment_mechanism row) pairs); [|reflexivity].
  now rewrite populate_idempotent.
Qed.

Lemma fill_row_keys grouped (x y : string) (row : AggregateRow) :
  consistent df grouped -> keys_within grouped row ->
  keys_within grouped (fill x y grouped row).
Proof.
  intros Hg Hk. unfold keys_within, fill_row in *.
  destruct (_ || _); [|assumption]. cbn [agg_metrics].
  rewrite (fill_cells_populate _ _ _ Hg Hk), populate_keys. assumption.
Qed.

Lemma aggregate_loop_eq grouped (pairs : list (string * string))
    (agg : list AggregateRow) :
  consistent df grouped -> Forall (keys_within grouped) agg ->
  fold_left (fun agg xy => map (fill (fst xy) (snd xy) grouped) agg) pairs agg
  = map (settle pairs) agg.
Proof.
  intros Hg. revert agg.
  induction pairs as [|[x y] pairs IH]; intros agg Hk; cbn [fold_left fst snd].
  - cbn. rewrite <- (map_id agg) at 1. reflexivity.
  - rewrite IH, map_map.
    + apply map_ext_in. intros row Hrow. apply fill_row_settle; [assumption|].
      rewrite Forall_forall in Hk. now apply Hk.
    + rewrite Forall_map. eapply Forall_impl; [|exact Hk].
      intros row. now apply fill_row_keys.
Qed.

(** *** The initial frame and the selected columns *)

Lemma select_metrics_spec (metrics : list string) grouped :
  select_metrics df metrics = Some grouped ->
  map fst grouped = metrics /\ consistent df grouped.
Proof.
  revert grouped. induction metrics as [|metric rest IH]; intros grouped H; cbn in H.
  - injection H as <-. split; [reflexivity | constructor].
  - destruct (Frame.get_column metric (columns df)) as [c|] eqn:Ec; [|discriminate].
    destruct (select_metrics df rest) as [cs|]; [|discriminate].
    injection H as <-. destruct (IH cs eq_refl) as [Hk Hc].
    split; [cbn; now f_equal | constructor; assumption].
Qed.

Lemma select_metrics_total (metrics : list string) :
  Forall (fun metric => In metric (map fst (columns df))) metrics ->
  exists grouped, select_metrics df metrics = Some grouped.
Proof.
  induction 1 as [|metric rest Hm _ IH]; cbn.
  - now exists [].
  - destruct (get_column_in _ _ Hm) as [c ->]. destruct IH as [cs ->].
    now exists ((metric, c) :: cs).
Qed.

(** *** The orchestrator without its loops *)

(** The three effects of the orchestrator: every row of a compared
    mechanism populated from its own sample, the messages of every
    comparison in order, a file for every pair. *)
Lemma analyze_pairs_eq (metrics : list string) grouped
    (pairs : list (string * string)) :
  select_metrics df metrics = Some grouped ->
  analyze_pairs tppf df significance_level model input include_insignificant_output
    view_output save_output metrics grouped pairs
  = {| aggregate_df :=
         map (settle pairs)
             (initialize_aggregate_df metrics (Frame.unique (deployment_mechanism df))
                model input);
       printed :=
         flat_map (fun xy => flat_map (messages (fst xy) (snd xy)) grouped) pairs;
       saved :=
         if save_output
         then map (comparison_file tppf df significance_level model input grouped) pairs
         else [] |}.
Proof.
  intros Hsel. destruct (select_metrics_spec _ _ Hsel) as [Hk Hc].
  unfold analyze_pairs. rewrite pair_loop_eq. cbn [aggregate_df printed saved app].
  rewrite aggregate_loop_eq; [reflexivity | assumption |].
  unfold initialize_aggregate_df. rewrite Forall_map. apply Forall_forall.
  intros m _. unfold keys_within. cbn [agg_metrics]. rewrite Hk.
  apply initialize_columns_keys.
Qed.

Lemma settle_row_twice (pairs : list (string * string)) (row : AggregateRow) :
  settle pairs (settle pairs row) = settle pairs row.
Proof.
  unfold settle_row.
  destruct (compared (agg_deployment_mechanism row) pairs) eqn:E;
    cbn [agg_deployment_mechanism agg_model agg_input agg_metrics]; rewrite E;
    [|reflexivity].
  now rewrite populate_idempotent.
Qed.

Lemma settle_row_keys grouped (pairs : list (string * string)) (row : AggregateRow) :
  keys_within grouped row ->
  keys_within grouped (settle pairs row).
Proof.
  unfold keys_within, settle_row. intros Hk.
  destruct (compared _ pairs); [|assumption]. cbn [agg_metrics].
  now rewrite populate_keys.
Qed.
End Loop.

(** *** Which mechanisms are compared *)

Lemma compared_permutation (m : string) (pairs pairs' : list (string * string)) :
  Permutation pairs pairs' -> compared m pairs = compared m pairs'.
Proof.
  unfold compared. induction 1 as [| xy l l' _ IH | xy xy' l | l l' l'' _ IH1 _ IH2];
    cbn [existsb].
  - reflexivity.
  - now rewrite IH.
  - destruct (String.eqb (fst xy) m || String.eqb (snd xy) m),
             (String.eqb (fst xy') m || String.eqb (snd xy') m); reflexivity.
  - congruence.
Qed.

Lemma compared_combinations (m : string) (l : list string) :
  In m l -> (2 <= List.length l)%nat -> compared m (Frame.combinations l) = true.
Proof.
  intros Hin Hlen. unfold compared. apply existsb_exists.
  destruct l as [|a [|b t]]; cbn in Hlen; try lia.
  destruct Hin as [->|Hin].
  - exists (m, b). split.
    + cbn. now left.
    + cbn. now rewrite String.eqb_refl.
  - exists (a, m). split.
    + cbn [Frame.combinations]. apply in_or_app. left. now apply in_map.
    + cbn. rewrite String.eqb_refl. apply orb_true_r.
Qed.

Lemma unique_incl (l : list string) : incl (Frame.unique l) l.
Proof.
  induction l as [|x t IH]; cbn; [apply incl_refl|].
  intros m [->|Hin]; [now left|]. right. apply IH.
  apply filter_In in Hin. tauto.
Qed.

(* ================================================================= *)
(** ** The aggregate frame and the comparison files *)

Section Claims.
Variable tppf : R -> R -> R.
Variable df : DataFrame.
Variable significance_level : R.
Variable model input : string.
Variable include_insignificant_output view_output save_output : bool.

(** The orchestrator returns, whenever every metric is a column of the
    frame. *)
Lemma analyze_returns (metrics : list string) :
  Forall (fun metric => In metric (map fst (columns df))) metrics ->
  exists a,
    analyze_data_significant_difference tppf df significance_level model input
      include_insignificant_output view_output save_output metrics = Some a.
Proof.
  intros Hcols. destruct (select_metrics_total df metrics Hcols) as [grouped Hsel].
  unfold analyze_data_significant_difference. rewrite Hsel. eexists. reflexivity.
Qed.

(** C4.  The aggregate frame is a function of each mechanism's own sample.
    When the metrics are distinct columns of the frame: the orchestrator
    returns;
    with at least two mechanisms its aggregate frame is [own_aggregate],
    where the cells of a mechanism are its mean and the distances from the
    mean to the bounds of its own confidence interval; two enumerations of
    pairs that compare the same mechanisms, with whatever partners, give the
    same aggregate frame, and so do two orders of the same pairs; and
    running the loops once more over the frame they produced leaves it as it
    is. *)
Theorem aggregate_depends_on_own_sample (metrics : list string)
    (grouped : list (string * list R)) :
  NoDup metrics ->
  select_metrics df metrics = Some grouped ->
  let mechanisms := Frame.unique (deployment_mechanism df) in
  let run := analyze_pairs tppf df significance_level model input
               include_insignificant_output view_output save_output metrics grouped in
  analyze_data_significant_difference tppf df significance_level model input
    include_insignificant_output view_output save_output metrics
  = Some (run (Frame.combinations mechanisms))
  /\ ((2 <= List.length mechanisms)%nat ->
      aggregate_df (run (Frame.combinations mechanisms))
      = own_aggregate tppf df significance_level model input metrics)
  /\ (forall pairs pairs',
        (forall m, compared m pairs = compared m pairs') ->
        aggregate_df (run pairs) = aggregate_df (run pairs'))
  /\ (forall pairs pairs', Permutation pairs pairs' ->
                           aggregate_df (run pairs) = aggregate_df (run pairs'))
  /\ (forall pairs,
        aggregate_df
          (fold_left (pair_step tppf df significance_level model input
                        include_insignificant_output view_output save_output grouped)
                     pairs (run pairs))
        = aggregate_df (run pairs)).
Proof.
  intros _ Hsel. cbv zeta. destruct (select_metrics_spec _ _ _ Hsel) as [Hk Hc].
  assert (Hsame : forall pairs pairs',
             (forall m, compared m pairs = compared m pairs') ->
             aggregate_df
               (analyze_pairs tppf df significance_level model input
                  include_insignificant_output view_output save_output metrics
                  grouped pairs)
             = aggregate_df
                 (analyze_pairs tppf df significance_level model input
                    include_insignificant_output view_output save_output metrics
                    grouped pairs')).
  { intros pairs pairs' Hcmp. rewrite !(analyze_pairs_eq _ _ _ _ _ _ _ _ _ _ _ Hsel).
    cbn [aggregate_df]. apply map_ext. intros row. unfold settle_row.
    now rewrite Hcmp. }
  split; [|split; [|split; [exact Hsame|split]]].
  - unfold analyze_data_significant_difference. now rewrite Hsel.
  - intros Hlen. rewrite (analyze_pairs_eq _ _ _ _ _ _ _ _ _ _ _ Hsel).
    cbn [aggregate_df]. unfold initialize_aggregate_df, own_aggregate.
    rewrite map_map. apply map_ext_in. intros m Hm.
    unfold settle_row. cbn [agg_deployment_mechanism agg_model agg_input agg_metrics].
    now rewrite compared_combinations.
  - intros pairs pairs' Hperm. apply Hsame. intros m.
    now apply compared_permutation.
  - intros pairs. rewrite pair_loop_eq. cbn [aggregate_df].
    rewrite (analyze_pairs_eq _ _ _ _ _ _ _ _ _ _ _ Hsel). cbn [aggregate_df].
    rewrite aggregate_loop_eq.
    + rewrite map_map. apply map_ext. intros row. apply settle_row_twice.
    + assumption.
    + rewrite Forall_map. unfold initialize_aggregate_df. rewrite Forall_map.
      apply Forall_forall. intros m _. apply (settle_row_keys tppf df significance_level).
      unfold keys_within. cbn [agg_metrics]. rewrite Hk.
      apply initialize_columns_keys.
Qed.

Lemma own_summary_brackets (m : string) (column : list R) :
  0 < tppf (1 - significance_level / 2) (Stats.nobs (get_group df m column) - 1) ->
  (2 <= List.length (get_group df m column))%nat ->
  Stats.var (get_group df m column) <> 0 ->
  let '(mean, lower, upper) := own_summary tppf df significance_level m column in
  0 < lower /\ 0 < upper /\ mean - lower < mean < mean + upper.
Proof.
  intros Hq Hn Hv. unfold own_summary, Stats.tconfint_mean, Stats.tconfint_generic.
  cbn [fst snd].
  pose proof (std_mean_pos _ Hn Hv) as Hs.
  pose proof (Rmult_lt_0_compat _ _ Hq Hs) as Hw.
  repeat split; lra.
Qed.

(** C8.  In every row of the aggregate frame and for every metric whose
    cells are populated, the two error magnitudes are non-negative and the
    mean lies strictly between [mean - lower] and [mean + upper]; for
    samples of at least two observations and non-zero variance, [alpha] in
    (0,1) and a quantile function that is positive above the median. *)
Theorem aggregate_interval_brackets_mean (metrics : list string) (a : Analysis)
    (row : AggregateRow) (metric : string) (mean lower upper : R) :
  (forall p dof, / 2 < p < 1 -> 0 < dof -> 0 < tppf p dof) ->
  0 < significance_level < 1 ->
  (forall m name column,
      In m (deployment_mechanism df) -> In name metrics ->
      Frame.get_column name (columns df) = Some column ->
      (2 <= List.length (get_group df m column))%nat
      /\ Stats.var (get_group df m column) <> 0) ->
  analyze_data_significant_difference tppf df significance_level model input
    include_insignificant_output view_output save_output metrics = Some a ->
  In row (aggregate_df a) ->
  In (metric, Some (mean, lower, upper)) (agg_metrics row) ->
  0 <= lower /\ 0 <= upper /\ mean - lower < mean < mean + upper.
Proof.
  intros Hq Halpha Hsamples Hrun Hrow Hcell.
  unfold analyze_data_significant_difference in Hrun.
  destruct (select_metrics df metrics) as [grouped|] eqn:Hsel; [|discriminate].
  injection Hrun as <-.
  rewrite (analyze_pairs_eq _ _ _ _ _ _ _ _ _ _ _ Hsel) in Hrow.
  cbn [aggregate_df] in Hrow. unfold initialize_aggregate_df in Hrow.
  rewrite map_map in Hrow. apply in_map_iff in Hrow.
  destruct Hrow as (m & <- & Hm). apply unique_incl in Hm.
  unfold settle_row in Hcell.
  cbn [agg_deployment_mechanism agg_model agg_input agg_metrics] in Hcell.
  assert (Hempty : forall cells, Forall (fun c : string * option (R * R * R) =>
                                           snd c = None) cells ->
                                 ~ In (metric, Some (mean, lower, upper)) cells).
  { intros cells Hall Hin. rewrite Forall_forall in Hall.
    specialize (Hall _ Hin). discriminate. }
  destruct (compared m _).
  - cbn [agg_metrics] in Hcell. unfold populate in Hcell.
    apply in_map_iff in Hcell. destruct Hcell as (c & Hc & Hin).
    destruct (Frame.get_column (fst c) (columns df)) as [column|] eqn:Ecol.
    + assert (Hsum : own_summary tppf df significance_level m column
                     = (mean, lower, upper)) by congruence.
      assert (Hmetric : In (fst c) metrics).
      { apply initialize_columns_keys. now apply in_map. }
      destruct (Hsamples m (fst c) column Hm Hmetric Ecol) as [Hn Hv].
      assert (Hdof : 0 < tppf (1 - significance_level / 2)
                             (Stats.nobs (get_group df m column) - 1)).
      { apply Hq; [lra|]. pose proof (nobs_ge_2 _ Hn). lra. }
      pose proof (own_summary_brackets m column Hdof Hn Hv) as Hb.
      rewrite Hsum in Hb. lra.
    + exfalso. subst c. revert Hin. apply Hempty, initialize_columns_empty.
  - exfalso. revert Hcell. apply Hempty, initialize_columns_empty.
Qed.

(** C2, as the code has it.  With [include_insignificant_output] false, the
    comparison file of every pair still holds one row per metric, the
    insignificant ones included (their flag is in the row); on the console
    an insignificant comparison keeps its "No statistically significant
    difference" line and loses only the detail lines; the files and the
    aggregate frame are those of a run with the option set. *)
Theorem insignificant_comparison_is_still_tabulated (metrics : list string)
    (a : Analysis) :
  analyze_data_significant_difference tppf df significance_level model input
    false view_output save_output metrics = Some a ->
  exists grouped,
    select_metrics df metrics = Some grouped
    /\ (let pairs := Frame.combinations (Frame.unique (deployment_mechanism df)) in
        saved a
        = (if save_output
           then map (comparison_file tppf df significance_level model input grouped) pairs
           else [])
        /\ printed a
           = flat_map (fun xy =>
                         flat_map (fun mc =>
                           if view_output then
                             if statistically_significant
                                  (comparison tppf df significance_level
                                     (fst xy) (snd xy) (snd mc))
                             then MsgSignificant (fst xy) (snd xy) (fst mc)
                                  :: detail_messages tppf df significance_level
                                       (fst xy) (snd xy) mc
                             else [MsgNotSignificant (fst xy) (snd xy) (fst mc)]
                           else []) grouped) pairs
        /\ exists b,
             analyze_data_significant_difference tppf df significance_level model input
               true view_output save_output metrics = Some b
             /\ saved b = saved a /\ aggregate_df b = aggregate_df a).
Proof.
  unfold analyze_data_significant_difference.
  destruct (select_metrics df metrics) as [grouped|] eqn:Hsel; [|discriminate].
  intros H. injection H as <-. exists grouped. split; [reflexivity|].
  cbv zeta. rewrite (analyze_pairs_eq _ _ _ _ _ _ _ _ _ _ _ Hsel).
  cbn [saved printed aggregate_df]. split; [reflexivity|]. split; [reflexivity|].
  eexists. split; [reflexivity|].
  rewrite (analyze_pairs_eq _ _ _ _ _ _ _ _ _ _ _ Hsel). split; reflexivity.
Qed.
End Claims.

(* ================================================================= *)
(** ** The loader, the store and the charts *)

Lemma select_map {A} (p : A -> bool) (xs : list A) :
  Frame.select (map p xs) xs = filter p xs.
Proof.
  induction xs as [|x xs IH]; cbn; [reflexivity|].
  destruct (p x); now rewrite IH.
Qed.

Lemma drop_startswith_mechanism (p : string) (df : DataFrame) :
  deployment_mechanism (Frame.drop_startswith p df)
  = filter (fun m => negb (String.prefix p m)) (deployment_mechanism df).
Proof. unfold Frame.drop_startswith. cbn. apply select_map. Qed.

Lemma add_computed_columns_mechanism (df : DataFrame) :
  deployment_mechanism (add_computed_columns df) = deployment_mechanism df.
Proof.
  unfold add_computed_columns.
  destruct (Frame.get_column "cpu-cycles" (columns df));
    destruct (Frame.get_column "instructions" (columns df)); reflexivity.
Qed.

Lemma parse_csv_rows_mechanism (df : DataFrame) (deployment_mechanisms metrics : list string)
    (docker_overhead_view : Z) (is_perf_file : bool) :
  deployment_mechanism
    (parse_csv_rows df deployment_mechanisms metrics docker_overhead_view is_perf_file)
  = filter (fun m => Frame.mem m deployment_mechanisms)
      (deployment_mechanism
         (apply_docker_overhead_view docker_overhead_view
            (Frame.keep_columns (NON_METRIC_COLUMNS ++ metrics) df))).
Proof.
  unfold parse_csv_rows. cbn [Frame.select_rows deployment_mechanism].
  rewrite select_map. f_equal.
  destruct is_perf_file; [apply add_computed_columns_mechanism | reflexivity].
Qed.

Lemma Forall_filter_weaken {A} (P : A -> Prop) (p : A -> bool) (l : list A) :
  Forall P l -> Forall P (filter p l).
Proof.
  intros H. apply Forall_forall. intros x Hin. apply filter_In in Hin.
  rewrite Forall_forall in H. now apply H.
Qed.

Lemma overhead_view_names (docker_overhead_view : Z) (df : DataFrame) :
  Forall (fun m => m = "docker" \/ In m (deployment_mechanism df))
         (deployment_mechanism (apply_docker_overhead_view docker_overhead_view df)).
Proof.
  assert (Hmap : forall f : string -> string,
             (forall m, f m = "docker" \/ f m = m) ->
             Forall (fun m => m = "docker" \/ In m (deployment_mechanism df))
                    (map f (deployment_mechanism df))).
  { intros f Hf. rewrite Forall_map. apply Forall_forall. intros m Hin.
    destruct (Hf m) as [->| ->]; [now left | now right]. }
  unfold apply_docker_overhead_view.
  destruct (Z.eqb docker_overhead_view DOCKER_OVERHEAD_EXCLUDE_DAEMON);
    [|destruct (Z.eqb docker_overhead_view DOCKER_OVERHEAD_INCLUDE_FULL_DAEMON);
      [|destruct (Z.eqb docker_overhead_view DOCKER_OVERHEAD_INCLUDE_ADDITIONAL_DAEMON)]].
  - rewrite drop_startswith_mechanism. apply Forall_filter_weaken. cbn.
    apply Hmap. intros m. destruct (String.eqb m "docker_container"); auto.
  - rewrite !drop_startswith_mechanism. do 2 apply Forall_filter_weaken. cbn.
    apply Hmap. intros m. destruct (String.prefix _ m); auto.
  - rewrite !drop_startswith_mechanism. do 2 apply Forall_filter_weaken. cbn.
    apply Hmap. intros m. destruct (String.prefix _ m); auto.
  - apply Forall_forall. intros m Hin. now right.
Qed.

(** C10.  Every row the loader returns has a deployment mechanism from the
    requested list, for every frame, list of mechanisms, list of metrics,
    overhead view and kind of file; so a name beginning with
    ["docker_container"] survives only if it was requested; and every
    surviving name is ["docker"] or a name of the raw frame. *)
Theorem parsed_rows_are_requested (df : DataFrame)
    (deployment_mechanisms metrics : list string) (docker_overhead_view : Z)
    (is_perf_file : bool) :
  let parsed := parse_csv_rows df deployment_mechanisms metrics docker_overhead_view
                  is_perf_file in
  Forall (fun m => In m deployment_mechanisms) (deployment_mechanism parsed)
  /\ Forall (fun m => String.prefix "docker_container" m = true ->
                      In m deployment_mechanisms) (deployment_mechanism parsed)
  /\ Forall (fun m => m = "docker" \/ In m (deployment_mechanism df))
            (deployment_mechanism parsed).
Proof.
  cbv zeta. rewrite parse_csv_rows_mechanism.
  assert (Hreq : Forall (fun m => In m deployment_mechanisms)
                   (filter (fun m => Frame.mem m deployment_mechanisms)
                      (deployment_mechanism
                         (apply_docker_overhead_view docker_overhead_view
                            (Frame.keep_columns (NON_METRIC_COLUMNS ++ metrics) df))))).
  { apply Forall_forall. intros m Hin. apply filter_In in Hin.
    now apply mem_true_iff. }
  split; [exact Hreq|]. split.
  - eapply Forall_impl; [|exact Hreq]. intros m Hm _. exact Hm.
  - apply Forall_filter_weaken.
    exact (overhead_view_names docker_overhead_view
             (Frame.keep_columns (NON_METRIC_COLUMNS ++ metrics) df)).
Qed.

(** C3, on the code.  Under the include-full-daemon view the row of
    ["docker_container_and_daemon_extra_overhead"] is not removed: it comes
    out renamed ["docker"], with its measurement (30), next to the row of
    ["docker_container_and_daemon"] (20).  Only ["docker_container"] goes. *)
Theorem full_daemon_view_keeps_extra_overhead_rows :
  parse_csv_rows df_variants ["docker"; "wasm_interpreted"; "wasm_aot"; "native"]
    ["task-clock"] DOCKER_OVERHEAD_INCLUDE_FULL_DAEMON false
  = {| deployment_mechanism := ["docker"; "docker"; "native"];
       columns := [("trial-number", [1; 1; 1]); ("task-clock", [20; 30; 40])] |}.
Proof. reflexivity. Qed.

Lemma prefix_trans (a b c : string) :
  String.prefix a b = true -> String.prefix b c = true -> String.prefix a c = true.
Proof.
  revert b c. induction a as [|x a IH]; intros b c Hab Hbc; [now destruct c|].
  destruct b as [|y b]; [discriminate|]. destruct c as [|z c]; [discriminate|].
  cbn in *. destruct (ascii_dec x y) as [->|]; [|discriminate].
  destruct (ascii_dec y z) as [->|]; [|discriminate].
  now apply (IH b c).
Qed.

(** The include-full-daemon view on any frame: the second removal never
    removes anything, every name it looks for having been renamed or
    removed before. *)
Lemma full_daemon_view_mechanism (df : DataFrame) :
  deployment_mechanism
    (apply_docker_overhead_view DOCKER_OVERHEAD_INCLUDE_FULL_DAEMON df)
  = filter (fun m => negb (String.prefix "docker_container" m))
      (map (fun m => if String.prefix "docker_container_and_daemon" m
                     then "docker" else m) (deployment_mechanism df)).
Proof.
  change (apply_docker_overhead_view DOCKER_OVERHEAD_INCLUDE_FULL_DAEMON df)
    with (Frame.drop_startswith "docker_container_and_daemon_extra_overhead"
            (Frame.drop_startswith "docker_container"
               (Frame.apply_mechanism
                  (fun m => if String.prefix "docker_container_and_daemon" m
                            then "docker" else m) df))).
  rewrite !drop_startswith_mechanism. cbn [Frame.apply_mechanism deployment_mechanism].
  set (l := filter _ (map _ _)).
  assert (H : Forall (fun m => String.prefix "docker_container" m = false) l).
  { apply Forall_forall. intros m Hin. apply filter_In in Hin.
    now apply negb_true_iff. }
  clearbody l. induction H as [|m l Hm _ IH]; cbn [filter]; [reflexivity|].
  destruct (String.prefix "docker_container_and_daemon_extra_overhead" m) eqn:E.
  - rewrite (prefix_trans "docker_container"
               "docker_container_and_daemon_extra_overhead" m eq_refl E) in Hm.
    discriminate.
  - cbn [negb]. now rewrite IH.
Qed.

(** [pd.concat] puts the new rows after the rows it was given. *)
Lemma concat_rows (existing new : AggregateTable) :
  let merged := create_or_update_aggregate_csv new (Some existing) in
  List.length (table_rows merged)
  = (List.length (table_rows existing) + List.length (table_rows new))%nat
  /\ firstn (List.length (table_rows existing)) (table_rows merged)
     = table_rows existing
  /\ skipn (List.length (table_rows existing)) (table_rows merged)
     = table_rows new.
Proof.
  cbn.
  rewrite length_app, firstn_app, skipn_app, Nat.sub_diag, firstn_all, skipn_all.
  cbn. now rewrite app_nil_r.
Qed.

(** The reading keeps the number of rows and the cells of the measurements
    of every row. *)
Lemma read_csv_keeps (read_header : list string -> list string)
    (read_other : list string -> string -> string) (written : AggregateTable) :
  List.length (table_rows (read_csv read_header read_other written))
  = List.length (table_rows written)
  /\ map agg_metrics (table_rows (read_csv read_header read_other written))
     = map agg_metrics (table_rows written).
Proof.
  unfold read_csv. cbn [table_columns table_rows].
  split; [apply length_map|].
  rewrite map_map. apply map_ext. reflexivity.
Qed.

(** C7, as the code has it.  Without a store the new records become the
    store as they are.  Otherwise the store is read back by pandas and
    written again with the new rows after it: the merged store has [m + n]
    rows, the first [m] are the rows of the old store as [read_csv] returns
    them, in place and with their measurements unchanged, the last [n] are
    the new rows; nothing is removed, nothing checked.  The old rows are
    unchanged when the old store reads back as it was written. *)
Theorem store_append (read_header : list string -> list string)
    (read_other : list string -> string -> string)
    (aggregate existing : AggregateTable) :
  store_after read_header read_other aggregate None = aggregate
  /\ let merged := store_after read_header read_other aggregate (Some existing) in
     let m := List.length (table_rows existing) in
     List.length (table_rows merged)
     = (m + List.length (table_rows aggregate))%nat
     /\ firstn m (table_rows merged)
        = table_rows (read_csv read_header read_other existing)
     /\ skipn m (table_rows merged) = table_rows aggregate
     /\ map agg_metrics (firstn m (table_rows merged))
        = map agg_metrics (table_rows existing)
     /\ (read_csv read_header read_other existing = existing ->
         firstn m (table_rows merged) = table_rows existing).
Proof.
  split; [reflexivity|]. cbv zeta. unfold store_after. cbn [option_map].
  destruct (read_csv_keeps read_header read_other existing) as (Hlen & Hcells).
  destruct (concat_rows (read_csv read_header read_other existing) aggregate)
    as (Hcount & Hfirst & Hlast).
  cbv zeta in Hcount, Hfirst, Hlast. rewrite Hlen in Hcount, Hfirst, Hlast.
  split; [exact Hcount|]. split; [exact Hfirst|]. split; [exact Hlast|].
  split; [now rewrite Hfirst|].
  intros Hsame. now rewrite Hfirst, Hsame.
Qed.

(** The store with the inputs ["007"] and ["008"]: its column of inputs is
    read as integers, whatever the reading of the other columns, and the
    first two rows of the merged store are not the rows of the store. *)
Lemma numbered_inputs_are_read_as_integers
    (read_header : list string -> list string)
    (read_other : list string -> string -> string) :
  map agg_input (table_rows (read_csv read_header read_other store_numbered))
  = ["7"; "8"].
Proof. reflexivity. Qed.

Lemma store_append_counterexample :
  let merged := store_after header_as_written read_as_written aggregate_cat_again
                  (Some store_numbered) in
  List.length (table_rows store_numbered) = 2%nat
  /\ map agg_input (firstn 2 (table_rows merged)) = ["7"; "8"]
  /\ map agg_input (table_rows store_numbered) = ["007"; "008"]
  /\ firstn 2 (table_rows merged) <> table_rows store_numbered.
Proof.
  cbv zeta. split; [reflexivity|]. split; [reflexivity|]. split; [reflexivity|].
  intros H. apply (f_equal (map agg_input)) in H. discriminate H.
Qed.

(** C9, on the code.  A comparison across inputs with saving enabled writes
    a plot whose name starts with ["aggregate_models_"], not with
    ["aggregate_inputs_"]. *)
Theorem across_inputs_plot_is_named_aggregate_models :
  Aggregate.compare_across_inputs store_two_inputs ["cat"; "dog"] "resnet"
    ["task-clock"] true
  = Aggregate.Completed ["aggregate_models_cat_dog_for_model_resnet-task_clock-lineplot.png"].
Proof. reflexivity. Qed.

Lemma prefix_append (a s : string) : String.prefix a (a ++ s)%string = true.
Proof.
  induction a as [|x a IH]; cbn.
  - now destruct s.
  - destruct (ascii_dec x x) as [_|N]; [exact IH | now elim N].
Qed.

Lemma append_assoc (a b c : string) : ((a ++ b) ++ c = a ++ (b ++ c))%string.
Proof. induction a as [|x a IH]; cbn; [reflexivity | now rewrite IH]. Qed.

(** Both kinds of comparison name their plots ["aggregate_models_..."]. *)
Lemma plot_filename_prefix_always_models (across_models : bool)
    (variable_values : list string) (constant_value metric : string) :
  String.prefix "aggregate_models_"
    (Aggregate.plot_filename across_models variable_values constant_value metric) = true
  /\ String.prefix "aggregate_inputs_"
       (Aggregate.plot_filename across_models variable_values constant_value metric)
     = false.
Proof.
  unfold Aggregate.plot_filename, Aggregate.plot_filename_prefix.
  destruct across_models; rewrite append_assoc; split;
    solve [apply prefix_append | reflexivity].
Qed.

(* ================================================================= *)
(** ** The worked data *)

Lemma t_ppf_small_pos (p dof : R) : / 2 < p < 1 -> 0 < t_ppf_small p dof.
Proof.
  intros [Hlo Hhi]. unfold t_ppf_small. destruct (Req_dec_T dof 1) as [_|_].
  - pose proof PI_RGT_0 as Hpi. apply tan_gt_0; nra.
  - apply Rdiv_lt_0_compat; [lra|]. apply sqrt_lt_R0. nra.
Qed.

Lemma mean_1_3 : Stats.mean [1; 3] = 2.
Proof. unfold Stats.mean, Stats.sum, Stats.nobs. simpl. lra. Qed.

Lemma var_1_3 : Stats.var [1; 3] = 1.
Proof.
  unfold Stats.var, Stats.sumsquares. rewrite mean_1_3.
  unfold Stats.sum, Stats.nobs. simpl. lra.
Qed.

Lemma mean_5_7 : Stats.mean [5; 7] = 6.
Proof. unfold Stats.mean, Stats.sum, Stats.nobs. simpl. lra. Qed.

Lemma var_5_7 : Stats.var [5; 7] = 1.
Proof.
  unfold Stats.var, Stats.sumsquares. rewrite mean_5_7.
  unfold Stats.sum, Stats.nobs. simpl. lra.
Qed.

Lemma dof_satt_equal_pairs (xs ys : list R) :
  Stats.var xs = 1 -> Stats.var ys = 1 -> Stats.nobs xs = 2 -> Stats.nobs ys = 2 ->
  Stats.dof_satt xs ys = 2.
Proof.
  intros Hx Hy Nx Ny. unfold Stats.dof_satt. cbv zeta.
  rewrite Hx, Hy, Nx, Ny. lra.
Qed.

(** The degrees of freedom that occur in the worked data are those where
    [t_ppf_small] is exact: two for the Welch interval, one for the
    interval of a single mean. *)
Example worked_degrees_of_freedom :
  Stats.dof_satt [1; 3] [1; 3] = 2 /\ Stats.dof_satt [1; 3] [5; 7] = 2
  /\ Stats.nobs [1; 3] - 1 = 1 /\ Stats.nobs [5; 7] - 1 = 1.
Proof.
  assert (N : forall a b : R, Stats.nobs [a; b] = 2) by (intros; cbn; lra).
  repeat split.
  - apply dof_satt_equal_pairs; auto using var_1_3.
  - apply dof_satt_equal_pairs; auto using var_1_3, var_5_7.
  - rewrite N. lra.
  - rewrite N. lra.
Qed.

(** The exclude-daemon view on the four raw names: ["docker_container"]
    becomes ["docker"], the two daemon variants go. *)
Example exclude_daemon_on_variants :
  parse_csv_rows df_variants ["docker"; "wasm_interpreted"; "wasm_aot"; "native"]
    ["task-clock"] DOCKER_OVERHEAD_EXCLUDE_DAEMON false
  = {| deployment_mechanism := ["docker"; "native"];
       columns := [("trial-number", [1; 1]); ("task-clock", [10; 40])] |}.
Proof. reflexivity. Qed.

(** The include-additional-daemon view keeps the extra-overhead row alone. *)
Example additional_daemon_on_variants :
  parse_csv_rows df_variants ["docker"; "wasm_interpreted"; "wasm_aot"; "native"]
    ["task-clock"] DOCKER_OVERHEAD_INCLUDE_ADDITIONAL_DAEMON false
  = {| deployment_mechanism := ["docker"; "native"];
       columns := [("trial-number", [1; 1]); ("task-clock", [30; 40])] |}.
Proof. reflexivity. Qed.

(** The computed columns of a perf file with 1000 cycles and 500
    instructions. *)
Example computed_columns_of_one_row :
  columns (add_computed_columns
             {| deployment_mechanism := ["native"];
                columns := [("cpu-cycles", [1000]); ("instructions", [500])] |})
  = [("cpu-cycles", [1000]); ("instructions", [500]);
     ("instructions-per-cycle", [500 / 1000]); ("cycles-per-instruction", [1000 / 500])].
Proof. reflexivity. Qed.

(** The pairs of three mechanisms, in the order the orchestrator takes them. *)
Example pairs_of_three_mechanisms :
  Frame.combinations (Frame.unique ["native"; "docker"; "native"; "wasm_aot"; "docker"])
  = [("native", "docker"); ("native", "wasm_aot"); ("docker", "wasm_aot")].
Proof. reflexivity. Qed.

(** The samples [1; 3] and [5; 7], doubled. *)
Lemma effect_size_scale_invariant_witness :
  0 < 2 /\ 0 < Stats.mean [1; 3] /\ 0 < Stats.mean [5; 7]
  /\ (let w := welch_t_test_with_confidence_interval t_ppf_small [1; 3] [5; 7] (5 / 100) in
      let w' := welch_t_test_with_confidence_interval t_ppf_small
                  (map (Rmult 2) [1; 3]) (map (Rmult 2) [5; 7]) (5 / 100) in
      effect_size "native" "docker" (x_mean w') (y_mean w') (ci_half_width w')
      = effect_size "native" "docker" (x_mean w) (y_mean w) (ci_half_width w)).
Proof.
  assert (Hc : 0 < 2) by lra.
  assert (Hx : 0 < Stats.mean [1; 3]) by (rewrite mean_1_3; lra).
  assert (Hy : 0 < Stats.mean [5; 7]) by (rewrite mean_5_7; lra).
  repeat split; try assumption.
  exact (effect_size_scale_invariant t_ppf_small "native" "docker" 2 [1; 3] [5; 7]
           (5 / 100) Hc Hx Hy).
Defined.

(** The sample [1; 3] compared with itself at the 5% level. *)
Lemma significance_flag_witness :
  let w := welch_t_test_with_confidence_interval t_ppf_small [1; 3] [1; 3] (5 / 100) in
  let ci := Stats.tconfint_diff t_ppf_small [1; 3] [1; 3] (5 / 100) in
  (2 <= List.length [1; 3])%nat /\ Stats.var [1; 3] <> 0 /\ 0 < 5 / 100 < 1
  /\ fst ci < 0 < snd ci /\ statistically_significant w = false.
Proof.
  cbv zeta.
  assert (Hn : (2 <= List.length [1; 3])%nat) by (cbn; lia).
  assert (Hv : Stats.var [1; 3] <> 0) by (rewrite var_1_3; lra).
  assert (Halpha : 0 < 5 / 100 < 1) by lra.
  split; [exact Hn|]. split; [exact Hv|]. split; [exact Halpha|].
  destruct (significance_flag t_ppf_small [1; 3] [1; 3] (5 / 100) Hn Hn Hv Hv Halpha
              (fun p dof Hp _ => t_ppf_small_pos p dof Hp))
    as (_ & _ & _ & Hsame).
  exact (Hsame eq_refl).
Defined.

(** The frame [df_apart] and its one metric. *)
Lemma aggregate_depends_on_own_sample_witness :
  NoDup ["latency"]
  /\ select_metrics df_apart ["latency"] = Some [("latency", [1; 3; 5; 7])]
  /\ aggregate_df
       (analyze_pairs t_ppf_small df_apart (5 / 100) "resnet" "cat" false true true
          ["latency"] [("latency", [1; 3; 5; 7])]
          (Frame.combinations (Frame.unique (deployment_mechanism df_apart))))
     = own_aggregate t_ppf_small df_apart (5 / 100) "resnet" "cat" ["latency"].
Proof.
  assert (Hdistinct : NoDup ["latency"]) by (constructor; [intros []|constructor]).
  split; [exact Hdistinct|]. split; [reflexivity|].
  apply (aggregate_depends_on_own_sample t_ppf_small df_apart (5 / 100) "resnet" "cat"
           false true true ["latency"] [("latency", [1; 3; 5; 7])] Hdistinct eq_refl).
  cbn. lia.
Defined.

Lemma df_apart_samples (m name : string) (column : list R) :
  In m (deployment_mechanism df_apart) -> In name ["latency"] ->
  Frame.get_column name (columns df_apart) = Some column ->
  (2 <= List.length (get_group df_apart m column))%nat
  /\ Stats.var (get_group df_apart m column) <> 0.
Proof.
  intros Hm [<-|[]] Hcol.
  change (Some [1; 3; 5; 7] = Some column) in Hcol. injection Hcol as <-.
  destruct Hm as [<-|[<-|[<-|[<-|[]]]]].
  - change (get_group df_apart "native" [1; 3; 5; 7]) with [1; 3].
    split; [cbn; lia | rewrite var_1_3; lra].
  - change (get_group df_apart "native" [1; 3; 5; 7]) with [1; 3].
    split; [cbn; lia | rewrite var_1_3; lra].
  - change (get_group df_apart "docker" [1; 3; 5; 7]) with [5; 7].
    split; [cbn; lia | rewrite var_5_7; lra].
  - change (get_group df_apart "docker" [1; 3; 5; 7]) with [5; 7].
    split; [cbn; lia | rewrite var_5_7; lra].
Qed.

(** The native row of [df_apart]: its latency cells bracket its mean. *)
Lemma aggregate_interval_brackets_mean_witness :
  let ci := Stats.tconfint_mean t_ppf_small [1; 3] (5 / 100) in
  let mean := Stats.mean [1; 3] in
  0 < 5 / 100 < 1
  /\ 0 <= mean - fst ci /\ 0 <= snd ci - mean
  /\ mean - (mean - fst ci) < mean < mean + (snd ci - mean).
Proof.
  cbv zeta. split; [lra|].
  apply (aggregate_interval_brackets_mean t_ppf_small df_apart (5 / 100) "resnet" "cat"
           false true true ["latency"]
           (analyze_pairs t_ppf_small df_apart (5 / 100) "resnet" "cat" false true true
              ["latency"] [("latency", [1; 3; 5; 7])]
              (Frame.combinations (Frame.unique (deployment_mechanism df_apart))))
           (mkAggregateRow "resnet" "cat" "native"
              [("latency",
                Some (own_summary t_ppf_small df_apart (5 / 100) "native" [1; 3; 5; 7]))])
           "latency").
  - intros p dof Hp _. now apply t_ppf_small_pos.
  - lra.
  - exact df_apart_samples.
  - reflexivity.
  - rewrite (analyze_pairs_eq t_ppf_small df_apart (5 / 100) "resnet" "cat" false true true
               ["latency"] [("latency", [1; 3; 5; 7])] _ eq_refl).
    left. reflexivity.
  - left. reflexivity.
Defined.

(** The frame [df_equal], with and without the option. *)
Lemma insignificant_comparison_is_still_tabulated_witness :
  let run include_insignificant_output :=
    analyze_pairs t_ppf_small df_equal (5 / 100) "resnet" "cat"
      include_insignificant_output true true
      ["latency"] [("latency", [1; 3; 1; 3])]
      (Frame.combinations (Frame.unique (deployment_mechanism df_equal))) in
  analyze_data_significant_difference t_ppf_small df_equal (5 / 100) "resnet" "cat"
    false true true ["latency"] = Some (run false)
  /\ exists b,
       analyze_data_significant_difference t_ppf_small df_equal (5 / 100) "resnet" "cat"
         true true true ["latency"] = Some b
       /\ saved b = saved (run false) /\ aggregate_df b = aggregate_df (run false).
Proof.
  cbv zeta. split; [reflexivity|].
  destruct (insignificant_comparison_is_still_tabulated t_ppf_small df_equal (5 / 100)
              "resnet" "cat" true true ["latency"] _ eq_refl)
    as (grouped & _ & _ & _ & Hb).
  exact Hb.
Defined.

(** On [df_equal] the two mechanisms have the same latencies: the
    comparison is not significant, the option is off, and yet the saved
    comparison file holds the row of the comparison, and the console its
    line. *)
Lemma insignificant_comparison_counterexample :
  exists a file row,
    analyze_data_significant_difference t_ppf_small df_equal (5 / 100) "resnet" "cat"
      false true true ["latency"] = Some a
    /\ printed a = [MsgNotSignificant "native" "docker" "latency"]
    /\ In file (saved a)
    /\ file_name file = "resnet-cat-native-docker-comparison.csv"
    /\ In row (file_rows file)
    /\ cmp_metric row = "latency"
    /\ cmp_statistically_significant row = false.
Proof.
  assert (Hflag : statistically_significant
                    (comparison t_ppf_small df_equal (5 / 100) "native" "docker"
                       [1; 3; 1; 3]) = false).
  { unfold comparison.
    change (get_group df_equal "native" [1; 3; 1; 3]) with [1; 3].
    change (get_group df_equal "docker" [1; 3; 1; 3]) with [1; 3].
    apply same_sample_not_significant. left. apply t_ppf_small_pos. lra. }
  exists (analyze_pairs t_ppf_small df_equal (5 / 100) "resnet" "cat" false true true
            ["latency"] [("latency", [1; 3; 1; 3])]
            (Frame.combinations (Frame.unique (deployment_mechanism df_equal)))),
         (comparison_file t_ppf_small df_equal (5 / 100) "resnet" "cat"
            [("latency", [1; 3; 1; 3])] ("native", "docker")),
         (comparison_row t_ppf_small df_equal (5 / 100) "native" "docker"
            ("latency", [1; 3; 1; 3])).
  split; [reflexivity|].
  rewrite (analyze_pairs_eq t_ppf_small df_equal (5 / 100) "resnet" "cat" false true true
             ["latency"] [("latency", [1; 3; 1; 3])] _ eq_refl).
  cbn [printed saved].
  split.
  - change (Frame.combinations (Frame.unique (deployment_mechanism df_equal)))
      with [("native", "docker")].
    cbn [flat_map app]. unfold comparison_messages. cbn [fst snd].
    now rewrite Hflag.
  - split; [left; reflexivity|]. split; [reflexivity|].
    split; [left; reflexivity|]. split; [reflexivity|].
    exact Hflag.
Qed.

(* ================================================================= *)
(** ** Further properties of the scripts *)

(** *** More on the statistics *)

Lemma sum_shift (c : R) (xs : list R) :
  Stats.sum (map (Rplus c) xs) = Stats.nobs xs * c + Stats.sum xs.
Proof.
  unfold Stats.nobs. induction xs as [|x xs IH].
  - cbn. lra.
  - cbn [map Stats.sum fold_right List.length]. fold (Stats.sum (map (Rplus c) xs)).
    fold (Stats.sum xs). rewrite IH, S_INR. ring.
Qed.

Lemma nobs_pos (xs : list R) : xs <> [] -> 0 < Stats.nobs xs.
Proof.
  intros H. destruct xs as [|x xs]; [contradiction|].
  unfold Stats.nobs. apply lt_0_INR. cbn. lia.
Qed.

Lemma mean_shift (c : R) (xs : list R) :
  xs <> [] -> Stats.mean (map (Rplus c) xs) = c + Stats.mean xs.
Proof.
  intros H. pose proof (nobs_pos xs H) as Hn.
  unfold Stats.mean. rewrite sum_shift, nobs_map. field. lra.
Qed.

Lemma sumsquares_shift (c : R) (xs : list R) :
  xs <> [] -> Stats.sumsquares (map (Rplus c) xs) = Stats.sumsquares xs.
Proof.
  intros H. unfold Stats.sumsquares. rewrite mean_shift by assumption.
  rewrite map_map. apply sum_ext. intros x. ring.
Qed.

Lemma var_shift (c : R) (xs : list R) :
  xs <> [] -> Stats.var (map (Rplus c) xs) = Stats.var xs.
Proof.
  intros H. unfold Stats.var. now rewrite sumsquares_shift, nobs_map.
Qed.

Lemma Rleb_scale_l (c x : R) : 0 < c -> Rleb (c * x) 0 = Rleb x 0.
Proof.
  intros Hc. unfold Rleb.
  destruct (Rle_dec (c * x) 0), (Rle_dec x 0); auto; exfalso; nra.
Qed.

Lemma Rleb_scale_r (c x : R) : 0 < c -> Rleb 0 (c * x) = Rleb 0 x.
Proof.
  intros Hc. unfold Rleb.
  destruct (Rle_dec 0 (c * x)), (Rle_dec 0 x); auto; exfalso; nra.
Qed.

Section ComparatorSymmetries.
Variable tppf : R -> R -> R.

Lemma tconfint_diff_scale (c : R) (xs ys : list R) (alpha : R) :
  0 < c ->
  Stats.tconfint_diff tppf (map (Rmult c) xs) (map (Rmult c) ys) alpha
  = (c * fst (Stats.tconfint_diff tppf xs ys alpha),
     c * snd (Stats.tconfint_diff tppf xs ys alpha)).
Proof.
  intros Hc. unfold Stats.tconfint_diff, Stats.tconfint_generic. cbn [fst snd].
  rewrite dof_satt_scale by lra. rewrite std_meandiff_scale by lra.
  rewrite !mean_scale. f_equal; ring.
Qed.

Lemma tconfint_diff_shift (c : R) (xs ys : list R) (alpha : R) :
  xs <> [] -> ys <> [] ->
  Stats.tconfint_diff tppf (map (Rplus c) xs) (map (Rplus c) ys) alpha
  = Stats.tconfint_diff tppf xs ys alpha.
Proof.
  intros Hx Hy. unfold Stats.tconfint_diff, Stats.tconfint_generic,
    Stats.dof_satt, Stats.std_meandiff_separatevar.
  rewrite !var_shift, !nobs_map, !mean_shift by assumption.
  f_equal; ring.
Qed.

Lemma welch_interval_facts (arr_x arr_y : list R) (alpha : R) :
  0 <= tppf (1 - alpha / 2) (Stats.dof_satt arr_x arr_y) ->
  let w := welch_t_test_with_confidence_interval tppf arr_x arr_y alpha in
  ci_lower w <= x_mean w - y_mean w <= ci_upper w
  /\ 0 <= ci_half_width w
  /\ (statistically_significant w = true <-> ci_half_width w < mean_diff w).
Proof.
  intros Hq. cbv zeta.
  cbn [ci_lower ci_upper x_mean y_mean ci_half_width mean_diff
       statistically_significant welch_t_test_with_confidence_interval].
  unfold Stats.tconfint_diff, Stats.tconfint_generic. cbn [fst snd].
  set (d := Stats.mean arr_x - Stats.mean arr_y).
  replace (Stats.mean arr_y - Stats.mean arr_x) with (- d) by (unfold d; ring).
  pose proof (sqrt_pos (Stats.var arr_x / (Stats.nobs arr_x - 1)
                        + Stats.var arr_y / (Stats.nobs arr_y - 1))) as Hs.
  fold (Stats.std_meandiff_separatevar arr_x arr_y) in Hs.
  set (s := Stats.std_meandiff_separatevar arr_x arr_y) in *.
  set (q := tppf (1 - alpha / 2) (Stats.dof_satt arr_x arr_y)) in *.
  assert (Hw : 0 <= q * s) by (apply Rmult_le_pos; assumption).
  split; [lra|]. split; [lra|].
  rewrite negb_true_iff, andb_false_iff. unfold Rleb.
  destruct (Rle_dec (d - q * s) 0) as [H1|H1], (Rle_dec 0 (d + q * s)) as [H2|H2];
    rewrite Rabs_Ropp; unfold Rabs; destruct (Rcase_abs d); split;
    try (intros [?|?]; discriminate); try (intros _; tauto); intros; lra.
Qed.

(** X1.  The flag, read on the numbers the comparison returns.  For two
    samples of at least two observations and of non-zero variance, when the
    quantile of Student's t is not negative: the returned interval contains
    the difference of the two means, its half-width is not negative, and the
    flag is set exactly when the absolute difference of the means exceeds that
    half-width.  So the printed line [Mean difference: d +/- h] tells the
    flag: significant exactly when [h < d]. *)
Theorem significant_iff_difference_exceeds_half_width (arr_x arr_y : list R)
    (alpha : R) :
  (2 <= List.length arr_x)%nat -> (2 <= List.length arr_y)%nat ->
  Stats.var arr_x <> 0 -> Stats.var arr_y <> 0 ->
  0 <= tppf (1 - alpha / 2) (Stats.dof_satt arr_x arr_y) ->
  let w := welch_t_test_with_confidence_interval tppf arr_x arr_y alpha in
  ci_lower w <= x_mean w - y_mean w <= ci_upper w
  /\ 0 <= ci_half_width w
  /\ (statistically_significant w = true <-> ci_half_width w < mean_diff w).
Proof. intros _ _ _ _. exact (welch_interval_facts arr_x arr_y alpha). Qed.

(** X2.  Comparing [Y] with [X] instead of [X] with [Y] gives the same flag,
    the same absolute difference and half-width, the mirrored interval, the
    two per-sample intervals exchanged, and the same effect-size range; for
    all samples, level and quantile function.  The order in which two
    mechanisms happen to be paired changes no number of a comparison. *)
Theorem comparison_is_symmetric (x y : string) (arr_x arr_y : list R) (alpha : R) :
  let w := welch_t_test_with_confidence_interval tppf arr_x arr_y alpha in
  let w' := welch_t_test_with_confidence_interval tppf arr_y arr_x alpha in
  statistically_significant w' = statistically_significant w
  /\ mean_diff w' = mean_diff w
  /\ ci_half_width w' = ci_half_width w
  /\ ci_lower w' = - ci_upper w /\ ci_upper w' = - ci_lower w
  /\ x_ci w' = y_ci w /\ y_ci w' = x_ci w
  /\ fst (effect_size y x (x_mean w') (y_mean w') (ci_half_width w'))
     = fst (effect_size x y (x_mean w) (y_mean w) (ci_half_width w)).
Proof.
  cbv zeta.
  assert (Hh : ci_half_width (welch_t_test_with_confidence_interval tppf arr_y arr_x alpha)
               = ci_half_width (welch_t_test_with_confidence_interval tppf arr_x arr_y alpha)).
  { cbn [ci_half_width welch_t_test_with_confidence_interval].
    rewrite (tconfint_diff_swap tppf arr_x arr_y). cbn [fst snd]. field. }
  repeat split.
  - cbn [statistically_significant welch_t_test_with_confidence_interval].
    rewrite (tconfint_diff_swap tppf arr_x arr_y). cbn [fst snd].
    rewrite <- (Rleb_opp 0), <- (Rleb_opp _ 0), Ropp_0, !Ropp_involutive.
    f_equal. apply andb_comm.
  - cbn [mean_diff welch_t_test_with_confidence_interval]. apply Rabs_minus_sym.
  - exact Hh.
  - cbn [ci_lower ci_upper welch_t_test_with_confidence_interval].
    now rewrite (tconfint_diff_swap tppf arr_x arr_y).
  - cbn [ci_lower ci_upper welch_t_test_with_confidence_interval].
    now rewrite (tconfint_diff_swap tppf arr_x arr_y).
  - rewrite !effect_size_bounds, Hh.
    cbn [x_mean y_mean welch_t_test_with_confidence_interval].
    now rewrite (Rmin_comm (Stats.mean arr_y)), (Rmax_comm (Stats.mean arr_y)).
Qed.

(** X3.  Measuring both samples in another unit, that is multiplying every
    observation by the same positive constant, keeps the flag and multiplies
    the absolute difference and the two bounds of the interval by the
    constant. *)
Theorem significance_ignores_the_unit (c : R) (arr_x arr_y : list R) (alpha : R) :
  0 < c ->
  let w := welch_t_test_with_confidence_interval tppf arr_x arr_y alpha in
  let w' := welch_t_test_with_confidence_interval tppf
              (map (Rmult c) arr_x) (map (Rmult c) arr_y) alpha in
  statistically_significant w' = statistically_significant w
  /\ mean_diff w' = c * mean_diff w
  /\ ci_lower w' = c * ci_lower w /\ ci_upper w' = c * ci_upper w.
Proof.
  intros Hc. cbv zeta.
  cbn [statistically_significant mean_diff ci_lower ci_upper
       welch_t_test_with_confidence_interval].
  rewrite tconfint_diff_scale by assumption. cbn [fst snd].
  rewrite Rleb_scale_l, Rleb_scale_r by assumption. rewrite !mean_scale.
  repeat split.
  rewrite <- Rmult_minus_distr_l, Rabs_mult, (Rabs_pos_eq c) by lra. reflexivity.
Qed.

(** X4.  Adding the same constant to every observation of two non-empty
    samples keeps the flag, the absolute difference and the interval of the
    difference, and moves the two means by the constant. *)
Theorem significance_ignores_the_origin (c : R) (arr_x arr_y : list R) (alpha : R) :
  arr_x <> [] -> arr_y <> [] ->
  let w := welch_t_test_with_confidence_interval tppf arr_x arr_y alpha in
  let w' := welch_t_test_with_confidence_interval tppf
              (map (Rplus c) arr_x) (map (Rplus c) arr_y) alpha in
  statistically_significant w' = statistically_significant w
  /\ mean_diff w' = mean_diff w
  /\ ci_lower w' = ci_lower w /\ ci_upper w' = ci_upper w
  /\ x_mean w' = c + x_mean w /\ y_mean w' = c + y_mean w.
Proof.
  intros Hx Hy. cbv zeta.
  cbn [statistically_significant mean_diff ci_lower ci_upper x_mean y_mean
       welch_t_test_with_confidence_interval].
  rewrite tconfint_diff_shift, !mean_shift by assumption.
  repeat split. f_equal. ring.
Qed.

End ComparatorSymmetries.

(** *** Distinct values and pairs *)

Lemma unique_In (x : string) (l : list string) : In x (Frame.unique l) <-> In x l.
Proof.
  split; [apply unique_incl|].
  induction l as [|a t IH]; cbn; [tauto|].
  intros [->|Hin]; [now left|].
  destruct (String.eqb a x) eqn:E.
  - apply String.eqb_eq in E. now left.
  - right. apply filter_In. split; [now apply IH | now rewrite E].
Qed.

Lemma unique_NoDup (l : list string) : NoDup (Frame.unique l).
Proof.
  induction l as [|a t IH]; cbn; constructor.
  - intros Hin. apply filter_In in Hin. destruct Hin as [_ E].
    now rewrite String.eqb_refl in E.
  - now apply NoDup_filter.
Qed.

Lemma combinations_In {A} (x y : A) (l : list A) :
  In (x, y) (Frame.combinations l) <->
  exists l1 l2, l = l1 ++ x :: l2 /\ In y l2.
Proof.
  induction l as [|a t IH]; cbn.
  - split; [tauto|]. intros (l1 & l2 & E & _). now destruct l1.
  - rewrite in_app_iff, in_map_iff, IH. split.
    + intros [(b & E & Hb)|(l1 & l2 & E & Hy)].
      * injection E as <- <-. now exists [], t.
      * exists (a :: l1), l2. split; [now rewrite E | assumption].
    + intros (l1 & l2 & E & Hy). destruct l1 as [|b l1]; cbn in E; injection E as <- E.
      * subst t. left. now exists y.
      * right. now exists l1, l2.
Qed.

Lemma combinations_length {A} (l : list A) :
  (2 * List.length (Frame.combinations l)
   = List.length l * (List.length l - 1))%nat.
Proof.
  induction l as [|a t IH]; cbn [Frame.combinations List.length]; [reflexivity|].
  rewrite length_app, length_map. nia.
Qed.

Lemma combinations_members {A} (x y : A) (l : list A) :
  In (x, y) (Frame.combinations l) -> In x l /\ In y l.
Proof.
  intros Hin. apply combinations_In in Hin. destruct Hin as (l1 & l2 & -> & Hy).
  split; apply in_or_app; right; [now left | now right].
Qed.

Lemma combinations_NoDup {A} (l : list A) : NoDup l -> NoDup (Frame.combinations l).
Proof.
  induction 1 as [|a t Ha Ht IH]; cbn; [constructor|].
  apply NoDup_app.
  - apply Finite.Injective_map_NoDup; [|assumption]. intros b c E. now injection E.
  - assumption.
  - intros xy Hin1 Hin2. apply in_map_iff in Hin1. destruct Hin1 as (b & <- & Hb).
    apply combinations_members in Hin2. now apply Ha.
Qed.

Lemma combinations_distinct {A} (x y : A) (l : list A) :
  NoDup l -> In (x, y) (Frame.combinations l) ->
  x <> y /\ ~ In (y, x) (Frame.combinations l).
Proof.
  induction 1 as [|a t Ha Ht IH]; cbn; [tauto|].
  rewrite !in_app_iff, !in_map_iff.
  intros [(b & E & Hb)|Hin].
  - injection E as <- <-. split; [intros <-; contradiction|].
    intros [(c & E & Hc)|Hin].
    + injection E as <- <-. contradiction.
    + apply combinations_members in Hin. tauto.
  - destruct (IH Hin) as [Hne Hno]. split; [assumption|].
    intros [(c & E & Hc)|Hin'].
    + injection E as <- <-. apply combinations_members in Hin. tauto.
    + contradiction.
Qed.

Lemma combinations_complete {A} (x y : A) (l : list A) :
  In x l -> In y l -> x <> y ->
  In (x, y) (Frame.combinations l) \/ In (y, x) (Frame.combinations l).
Proof.
  induction l as [|a t IH]; cbn; [tauto|].
  rewrite !in_app_iff, !in_map_iff.
  intros [->|Hx] [->|Hy] Hne.
  - contradiction.
  - left. left. now exists y.
  - right. left. now exists x.
  - destruct (IH Hx Hy Hne) as [H|H]; [left; right | right; right]; exact H.
Qed.

(** X5.  The pairs of distinct mechanisms the orchestrator loops over (line
    138): no pair occurs twice; for n distinct mechanisms there are n(n-1)/2
    pairs; the two mechanisms of a pair differ and are mechanisms of the
    frame; a pair does not occur in the other order as well; and every two
    different mechanisms of the frame are paired, in one order or the other. *)
Theorem every_two_mechanisms_are_compared_once (l : list string) :
  let mechanisms := Frame.unique l in
  let pairs := Frame.combinations mechanisms in
  NoDup pairs
  /\ (2 * List.length pairs
      = List.length mechanisms * (List.length mechanisms - 1))%nat
  /\ Forall (fun xy => fst xy <> snd xy /\ In (fst xy) l /\ In (snd xy) l
                       /\ ~ In (snd xy, fst xy) pairs) pairs
  /\ (forall x y, In x l -> In y l -> x <> y -> In (x, y) pairs \/ In (y, x) pairs).
Proof.
  cbv zeta. pose proof (unique_NoDup l) as Hnd.
  split; [now apply combinations_NoDup|]. split; [apply combinations_length|]. split.
  - apply Forall_forall. intros [x y] Hin. cbn [fst snd].
    destruct (combinations_distinct x y _ Hnd Hin) as [Hne Hno].
    destruct (combinations_members x y _ Hin) as [Hx Hy].
    apply unique_incl in Hx. apply unique_incl in Hy. repeat split; assumption.
  - intros x y Hx Hy Hne. apply combinations_complete; [| |assumption];
      now apply unique_In.
Qed.

(** *** The initial aggregate frame *)

Lemma filter_filter_absorb (keys : list string) (x : string) (l : list string) :
  In x keys ->
  filter (fun k => negb (Frame.mem k keys)) (filter (fun y => negb (String.eqb x y)) l)
  = filter (fun k => negb (Frame.mem k keys)) l.
Proof.
  intros Hx. induction l as [|a t IH]; cbn [filter]; [reflexivity|].
  destruct (String.eqb x a) eqn:E; cbn [negb filter].
  - apply String.eqb_eq in E. subst a.
    assert (Hm : Frame.mem x keys = true) by now apply mem_true_iff.
    rewrite Hm. cbn [negb]. exact IH.
  - now rewrite IH.
Qed.

Lemma mem_snoc (k x : string) (keys : list string) :
  Frame.mem k (keys ++ [x]) = Frame.mem k keys || String.eqb k x.
Proof. unfold Frame.mem. rewrite existsb_app. cbn. now rewrite orb_false_r. Qed.

Lemma filter_snoc (keys : list string) (x : string) (l : list string) :
  filter (fun k => negb (Frame.mem k (keys ++ [x]))) l
  = filter (fun k => negb (Frame.mem k keys)) (filter (fun y => negb (String.eqb x y)) l).
Proof.
  induction l as [|a u IH]; cbn [filter]; [reflexivity|].
  rewrite mem_snoc, (String.eqb_sym a x).
  destruct (String.eqb x a); cbn [negb filter].
  - rewrite orb_true_r. cbn [negb]. exact IH.
  - rewrite orb_false_r. destruct (Frame.mem a keys); cbn [negb]; now rewrite IH.
Qed.

Lemma initialize_columns_fold (metric_cols : list string)
    (acc : list (string * option (R * R * R))) :
  fold_left (fun cols metric =>
               if Frame.mem metric (map fst cols) then cols
               else cols ++ [(metric, None)]) metric_cols acc
  = acc ++ map (fun k => (k, None))
             (filter (fun k => negb (Frame.mem k (map fst acc)))
                     (Frame.unique metric_cols)).
Proof.
  revert acc. induction metric_cols as [|x t IH]; intros acc; cbn [fold_left Frame.unique].
  - cbn. now rewrite app_nil_r.
  - destruct (Frame.mem x (map fst acc)) eqn:E.
    + rewrite IH. cbn [filter]. rewrite E. cbn [negb].
      rewrite filter_filter_absorb by now apply mem_true_iff. reflexivity.
    + rewrite IH. cbn [filter]. rewrite E. cbn [negb map].
      rewrite <- app_assoc. cbn [app]. do 2 f_equal. f_equal.
      rewrite map_app. cbn [map fst]. apply filter_snoc.
Qed.

Lemma initialize_columns_unique (metric_cols : list string) :
  initialize_columns metric_cols
  = map (fun k => (k, None)) (Frame.unique metric_cols).
Proof.
  unfold initialize_columns. rewrite initialize_columns_fold. cbn [app map].
  f_equal. induction (Frame.unique metric_cols) as [|a u IH]; cbn; now f_equal.
Qed.

(** X6.  The initial aggregate frame without its loops: one row per given
    mechanism, in the given order and with repetitions, each with the model,
    the input and one empty group of cells for every distinct metric, in the
    order of first occurrence.  A metric listed twice gets its three columns
    once. *)
Theorem initial_frame_is_empty_and_deduplicated
    (metric_cols deployment_mechanisms : list string) (model input : string) :
  initialize_aggregate_df metric_cols deployment_mechanisms model input
  = map (fun m => mkAggregateRow model input m
                    (map (fun k => (k, None)) (Frame.unique metric_cols)))
        deployment_mechanisms.
Proof. unfold initialize_aggregate_df. now rewrite initialize_columns_unique. Qed.

Lemma compared_few (m : string) (l : list string) :
  (List.length l < 2)%nat -> compared m (Frame.combinations l) = false.
Proof.
  intros H. destruct l as [|a [|b t]]; cbn in H; try lia; reflexivity.
Qed.

Lemma get_column_none (name : string) (cols : list (string * list R)) :
  Frame.get_column name cols = None <-> ~ In name (map fst cols).
Proof.
  induction cols as [|[n c] cols IH]; cbn; [tauto|].
  destruct (String.eqb n name) eqn:E.
  - apply String.eqb_eq in E. split; [discriminate | tauto].
  - rewrite IH. apply String.eqb_neq in E. tauto.
Qed.

Lemma select_metrics_none (df : DataFrame) (metrics : list string) :
  select_metrics df metrics = None <->
  exists metric, In metric metrics /\ ~ In metric (map fst (columns df)).
Proof.
  induction metrics as [|metric rest IH]; cbn.
  - split; [discriminate|]. intros (m & [] & _).
  - destruct (Frame.get_column metric (columns df)) as [c|] eqn:Ec.
    + assert (Hin : In metric (map fst (columns df))).
      { destruct (in_dec string_dec metric (map fst (columns df))) as [H|H];
          [assumption|]. apply get_column_none in H. congruence. }
      destruct (select_metrics df rest) as [cs|].
      * split; [discriminate|]. intros (m & [<-|Hm] & Hno); [contradiction|].
        assert (H : @None (list (string * list R)) = None -> False).
        { intros _. assert (Hex : exists metric0, In metric0 rest
                                   /\ ~ In metric0 (map fst (columns df)))
            by now exists m.
          apply IH in Hex. discriminate. }
        exfalso. now apply H.
      * split; [|reflexivity]. intros _. destruct (proj1 IH eq_refl) as (m & Hm & Hno).
        exists m. split; [now right | assumption].
    + split; [|reflexivity]. intros _. exists metric. split; [now left|].
      now apply get_column_none.
Qed.

Lemma get_metrics_in_df_columns (df : DataFrame) :
  Forall (fun metric => In metric (map fst (columns df))
                        /\ ~ In metric NON_METRIC_COLUMNS) (get_metrics_in_df df).
Proof.
  unfold get_metrics_in_df. apply Forall_forall. intros m Hin.
  apply filter_In in Hin. destruct Hin as [Hin Hno]. split; [assumption|].
  apply negb_true_iff in Hno. intros H. apply mem_true_iff in H. congruence.
Qed.

Lemma filter_absent (x : string) (l : list string) :
  ~ In x l -> filter (fun y => negb (String.eqb x y)) l = l.
Proof.
  intros Hx. induction l as [|a t IH]; cbn; [reflexivity|].
  destruct (String.eqb x a) eqn:E.
  - apply String.eqb_eq in E. subst a. exfalso. apply Hx. now left.
  - cbn. f_equal. apply IH. intros H. apply Hx. now right.
Qed.

Lemma unique_distinct (l : list string) : NoDup l -> Frame.unique l = l.
Proof.
  induction 1 as [|x l Hx _ IH]; cbn; [reflexivity|]. rewrite IH.
  f_equal. now apply filter_absent.
Qed.

Lemma flat_map_nil {A B} (f : A -> list B) (l : list A) :
  (forall x, f x = []) -> flat_map f l = [].
Proof.
  intros H. induction l as [|x l IH]; cbn; [reflexivity|]. now rewrite H, IH.
Qed.

Section OrchestratorOutcome.
Variable tppf : R -> R -> R.
Variable df : DataFrame.
Variable significance_level : R.
Variable model input : string.
Variable include_insignificant_output view_output save_output : bool.

(** X7.  For distinct metrics, none of them the grouping column: the
    orchestrator fails (the [KeyError] of line 128) exactly when one of the
    metrics is not a column of the frame.  Neither the level, the names nor
    the three flags play a part, and a frame without rows or with one
    mechanism makes no difference. *)
Theorem analysis_fails_exactly_on_a_missing_metric (metrics : list string) :
  NoDup metrics -> ~ In "deployment-mechanism" metrics ->
  (analyze_data_significant_difference tppf df significance_level model input
     include_insignificant_output view_output save_output metrics = None
   <-> exists metric, In metric metrics /\ ~ In metric (map fst (columns df))).
Proof.
  intros _ _. rewrite <- select_metrics_none.
  unfold analyze_data_significant_difference.
  destruct (select_metrics df metrics); split; congruence.
Qed.

(** X8.  The call [main] makes.  For a frame of distinct column names, the
    orchestrator run on [get_metrics_in_df df] returns; every row of its
    aggregate frame has exactly those metrics, in that order; and none of them
    is a non-metric column. *)
Theorem analysis_of_the_frame_metrics_returns :
  NoDup (map fst (columns df)) ->
  exists a,
    analyze_data_significant_difference tppf df significance_level model input
      include_insignificant_output view_output save_output (get_metrics_in_df df)
    = Some a
    /\ Forall (fun row => map fst (agg_metrics row) = get_metrics_in_df df)
              (aggregate_df a)
    /\ Forall (fun metric => ~ In metric NON_METRIC_COLUMNS) (get_metrics_in_df df).
Proof.
  intros Hnd. pose proof (get_metrics_in_df_columns df) as Hm.
  assert (Hu : Frame.unique (get_metrics_in_df df) = get_metrics_in_df df).
  { apply unique_distinct. unfold get_metrics_in_df. now apply NoDup_filter. }
  destruct (select_metrics_total df (get_metrics_in_df df)) as [grouped Hsel].
  { eapply Forall_impl; [|exact Hm]. cbn. tauto. }
  unfold analyze_data_significant_difference. rewrite Hsel. eexists.
  split; [reflexivity|]. split.
  - rewrite (analyze_pairs_eq _ _ _ _ _ _ _ _ _ _ _ Hsel). cbn [aggregate_df].
    rewrite Forall_map. unfold initialize_aggregate_df. rewrite Forall_map.
    apply Forall_forall. intros m _. unfold settle_row.
    destruct (compared _ _); cbn [agg_metrics agg_deployment_mechanism];
      rewrite ?populate_keys, initialize_columns_unique, map_map, Hu; cbn [fst];
      apply map_id.
  - eapply Forall_impl; [|exact Hm]. cbn. tauto.
Qed.

(** X9.  When the orchestrator returns, its aggregate frame has one row for
    every distinct mechanism of the frame, in order of first appearance and
    none twice; every row carries the model and the input of the call and a
    group of cells for every distinct metric. *)
Theorem aggregate_has_one_row_per_mechanism (metrics : list string) (a : Analysis) :
  analyze_data_significant_difference tppf df significance_level model input
    include_insignificant_output view_output save_output metrics = Some a ->
  map agg_deployment_mechanism (aggregate_df a) = Frame.unique (deployment_mechanism df)
  /\ NoDup (map agg_deployment_mechanism (aggregate_df a))
  /\ Forall (fun row => agg_model row = model /\ agg_input row = input
                        /\ map fst (agg_metrics row) = Frame.unique metrics)
            (aggregate_df a).
Proof.
  unfold analyze_data_significant_difference.
  destruct (select_metrics df metrics) as [grouped|] eqn:Hsel; [|discriminate].
  intros H. injection H as <-.
  rewrite (analyze_pairs_eq _ _ _ _ _ _ _ _ _ _ _ Hsel). cbn [aggregate_df].
  unfold initialize_aggregate_df. rewrite !map_map.
  assert (E : map (fun m => agg_deployment_mechanism
                     (settle_row tppf df significance_level
                        (Frame.combinations (Frame.unique (deployment_mechanism df)))
                        (mkAggregateRow model input m (initialize_columns metrics))))
                  (Frame.unique (deployment_mechanism df))
              = Frame.unique (deployment_mechanism df)).
  { transitivity (map (fun m : string => m) (Frame.unique (deployment_mechanism df)));
      [|apply map_id].
    apply map_ext. intros m. unfold settle_row. now destruct (compared _ _). }
  rewrite E. split; [reflexivity|]. split; [apply unique_NoDup|].
  rewrite Forall_map. apply Forall_forall. intros m _. unfold settle_row.
  destruct (compared _ _); cbn [agg_model agg_input agg_metrics agg_deployment_mechanism];
    rewrite ?populate_keys, initialize_columns_unique, map_map; cbn [fst];
    rewrite map_id; auto.
Qed.

(** X10.  When the orchestrator returns: with [view_output] false it prints
    nothing, with [save_output] false it writes no comparison file, and a run
    with any other three flags returns as well, with the same aggregate frame,
    and with the same files when [save_output] is the same. *)
Theorem flags_only_gate_console_and_files (metrics : list string) (a : Analysis) :
  analyze_data_significant_difference tppf df significance_level model input
    include_insignificant_output view_output save_output metrics = Some a ->
  (view_output = false -> printed a = [])
  /\ (save_output = false -> saved a = [])
  /\ (forall include' view' save',
         exists b,
           analyze_data_significant_difference tppf df significance_level model input
             include' view' save' metrics = Some b
           /\ aggregate_df b = aggregate_df a
           /\ (save' = save_output -> saved b = saved a)).
Proof.
  unfold analyze_data_significant_difference.
  destruct (select_metrics df metrics) as [grouped|] eqn:Hsel; [|discriminate].
  intros H. injection H as <-.
  rewrite (analyze_pairs_eq _ _ _ _ _ _ _ _ _ _ _ Hsel). cbn [aggregate_df printed saved].
  split; [|split].
  - intros ->. unfold comparison_messages. apply flat_map_nil. intros xy. now apply flat_map_nil.
  - now intros ->.
  - intros include' view' save'. eexists. split; [reflexivity|].
    rewrite (analyze_pairs_eq _ _ _ _ _ _ _ _ _ _ _ Hsel). cbn [aggregate_df saved].
    split; [reflexivity|]. now intros ->.
Qed.
End OrchestratorOutcome.

(** *** Groups *)

Lemma select_false {A} (l : list string) (x : string) (col : list A) :
  ~ In x l -> Frame.select (map (String.eqb x) l) col = [].
Proof.
  revert col. induction l as [|a t IH]; intros col Hx; [reflexivity|].
  destruct col as [|v c]; [reflexivity|]. cbn.
  destruct (String.eqb x a) eqn:E.
  - apply String.eqb_eq in E. subst a. exfalso. apply Hx. now left.
  - apply IH. intros H. apply Hx. now right.
Qed.

Lemma NoDup_split_filter (x : string) (l : list string) :
  NoDup l -> In x l ->
  Permutation l (x :: filter (fun y => negb (String.eqb x y)) l).
Proof.
  induction 1 as [|a t Ha Ht IH]; cbn; [tauto|].
  intros [->|Hin].
  - rewrite String.eqb_refl. cbn [negb]. constructor.
    now rewrite filter_absent.
  - destruct (String.eqb x a) eqn:E.
    + apply String.eqb_eq in E. subst a. contradiction.
    + cbn [negb]. rewrite perm_swap. constructor. now apply IH.
Qed.

Lemma groups_partition {A} (l : list string) (col : list A) :
  List.length col = List.length l ->
  Permutation (flat_map (fun m => Frame.select (map (String.eqb m) l) col)
                        (Frame.unique l)) col.
Proof.
  revert col. induction l as [|x t IH]; intros col Hlen.
  - destruct col; [constructor | discriminate].
  - destruct col as [|v c]; [discriminate|]. injection Hlen as Hlen.
    cbn [Frame.unique flat_map map Frame.select]. rewrite String.eqb_refl.
    cbn [app]. constructor.
    transitivity (Frame.select (map (String.eqb x) t) c
                  ++ flat_map (fun m => Frame.select (map (String.eqb m) t) c)
                       (filter (fun y => negb (String.eqb x y)) (Frame.unique t))).
    { apply Permutation_app_head. clear IH.
      induction (Frame.unique t) as [|a u IHu]; cbn [filter]; [constructor|].
      destruct (String.eqb x a) eqn:E; cbn [negb]; [exact IHu|].
      cbn [flat_map map Frame.select]. rewrite (String.eqb_sym a x), E.
      now apply Permutation_app_head. }
    etransitivity; [|exact (IH c Hlen)].
    destruct (in_dec string_dec x (Frame.unique t)) as [Hin|Hno].
    + symmetry.
      exact (Permutation_flat_map _ (NoDup_split_filter x _ (unique_NoDup t) Hin)).
    + rewrite filter_absent by assumption. rewrite select_false; [reflexivity|].
      intros H. apply Hno. now apply unique_In.
Qed.

Lemma select_member {A} (l : list string) (x : string) (col : list A) :
  List.length col = List.length l -> In x l ->
  Frame.select (map (String.eqb x) l) col <> [].
Proof.
  revert col. induction l as [|a t IH]; intros col Hlen Hin; [contradiction|].
  destruct col as [|v c]; [discriminate|]. injection Hlen as Hlen. cbn.
  destruct (String.eqb x a) eqn:E; [discriminate|].
  destruct Hin as [->|Hin]; [now rewrite String.eqb_refl in E|]. now apply IH.
Qed.

Section OrchestratorOutputs.
Variable tppf : R -> R -> R.
Variable df : DataFrame.
Variable significance_level : R.
Variable model input : string.
Variable include_insignificant_output view_output save_output : bool.

(** X11.  The groups of line 128.  For a column as long as the frame: the
    groups of the distinct mechanisms, put one after the other, are a
    rearrangement of the column, so every observation is in the group of
    exactly one mechanism; and no group is empty. *)
Theorem groups_partition_the_rows (column : list R) :
  List.length column = List.length (deployment_mechanism df) ->
  Permutation (flat_map (fun m => get_group df m column)
                        (Frame.unique (deployment_mechanism df))) column
  /\ Forall (fun m => get_group df m column <> [])
            (Frame.unique (deployment_mechanism df)).
Proof.
  intros Hlen. split.
  - now apply groups_partition.
  - apply Forall_forall. intros m Hm. apply select_member; [assumption|].
    now apply unique_incl.
Qed.

(** X12.  In every populated group of cells of the aggregate frame the lower
    and the upper error are the same number, the mean is the mean of the group
    of the row's own mechanism, and [mean - lower] and [mean + upper] are the
    two bounds of the confidence interval of that group at the level of the
    call. *)
Theorem error_bars_are_symmetric (metrics : list string) (a : Analysis)
    (row : AggregateRow) (metric : string) (mean lower upper : R) :
  analyze_data_significant_difference tppf df significance_level model input
    include_insignificant_output view_output save_output metrics = Some a ->
  In row (aggregate_df a) ->
  In (metric, Some (mean, lower, upper)) (agg_metrics row) ->
  lower = upper
  /\ exists column,
       Frame.get_column metric (columns df) = Some column
       /\ let arr := get_group df (agg_deployment_mechanism row) column in
          mean = Stats.mean arr
          /\ (mean - lower, mean + upper)
             = Stats.tconfint_mean tppf arr significance_level.
Proof.
  intros Hrun Hrow Hcell.
  unfold analyze_data_significant_difference in Hrun.
  destruct (select_metrics df metrics) as [grouped|] eqn:Hsel; [|discriminate].
  injection Hrun as <-.
  rewrite (analyze_pairs_eq _ _ _ _ _ _ _ _ _ _ _ Hsel) in Hrow.
  cbn [aggregate_df] in Hrow. unfold initialize_aggregate_df in Hrow.
  rewrite map_map in Hrow. apply in_map_iff in Hrow.
  destruct Hrow as (m & <- & Hm).
  unfold settle_row in *.
  cbn [agg_deployment_mechanism agg_model agg_input agg_metrics] in *.
  assert (Hempty : ~ In (metric, Some (mean, lower, upper)) (initialize_columns metrics)).
  { intros Hin. pose proof (initialize_columns_empty metrics) as Hall.
    rewrite Forall_forall in Hall. specialize (Hall _ Hin). discriminate. }
  destruct (compared m _); cbn [agg_metrics agg_deployment_mechanism] in *;
    [|contradiction].
  unfold populate in Hcell. apply in_map_iff in Hcell. destruct Hcell as (c & Hc & Hin).
  destruct (Frame.get_column (fst c) (columns df)) as [column|] eqn:Ecol.
  - injection Hc as Hname Hmean Hlower Hupper. subst metric.
    unfold Stats.tconfint_mean, Stats.tconfint_generic in *. cbn [fst snd] in *.
    split; [lra|]. exists column. split; [assumption|]. cbv zeta.
    split; [now symmetry|]. f_equal; lra.
  - subst c. contradiction.
Qed.

(** X13.  A frame with fewer than two distinct mechanisms: the orchestrator,
    when it returns, has printed nothing and written no file, and its
    aggregate frame is the initial one, every cell empty.  The statistics of a
    lone mechanism are never computed, since they are computed inside the loop
    over the pairs. *)
Theorem nothing_is_compared_below_two_mechanisms (metrics : list string)
    (a : Analysis) :
  (List.length (Frame.unique (deployment_mechanism df)) < 2)%nat ->
  analyze_data_significant_difference tppf df significance_level model input
    include_insignificant_output view_output save_output metrics = Some a ->
  printed a = [] /\ saved a = []
  /\ aggregate_df a
     = initialize_aggregate_df metrics (Frame.unique (deployment_mechanism df))
         model input
  /\ Forall (fun row => Forall (fun c => snd c = None) (agg_metrics row))
            (aggregate_df a).
Proof.
  intros Hfew Hrun.
  unfold analyze_data_significant_difference in Hrun.
  destruct (select_metrics df metrics) as [grouped|]; [|discriminate].
  injection Hrun as <-.
  assert (E : Frame.combinations (Frame.unique (deployment_mechanism df)) = []).
  { destruct (Frame.unique (deployment_mechanism df)) as [|x [|y t]];
      cbn in Hfew; try lia; reflexivity. }
  rewrite E. cbn. repeat split.
  unfold initialize_aggregate_df. rewrite Forall_map. apply Forall_forall.
  intros m _. apply initialize_columns_empty.
Qed.

(** X14.  With [save_output] set, the comparison files are those of the pairs
    of distinct mechanisms, one per pair and in the order of the pairs; each
    has one row per requested metric, in the order of the metrics, and the
    name [model-input-x-y-comparison.csv] of its pair. *)
Theorem one_comparison_file_per_pair (metrics : list string) (a : Analysis) :
  analyze_data_significant_difference tppf df significance_level model input
    include_insignificant_output view_output true metrics = Some a ->
  map (fun f => (file_x f, file_y f)) (saved a)
  = Frame.combinations (Frame.unique (deployment_mechanism df))
  /\ Forall (fun f => map cmp_metric (file_rows f) = metrics
                      /\ file_name f
                         = (model ++ "-" ++ input ++ "-" ++ file_x f ++ "-"
                                  ++ file_y f ++ "-comparison.csv")%string)
            (saved a).
Proof.
  unfold analyze_data_significant_difference.
  destruct (select_metrics df metrics) as [grouped|] eqn:Hsel; [|discriminate].
  intros H. injection H as <-. destruct (select_metrics_spec _ _ _ Hsel) as [Hk _].
  rewrite (analyze_pairs_eq _ _ _ _ _ _ _ _ _ _ _ Hsel). cbn [saved].
  split.
  - rewrite map_map. cbn [comparison_file file_x file_y].
    transitivity (map (fun xy : string * string => xy)
                      (Frame.combinations (Frame.unique (deployment_mechanism df))));
      [|apply map_id].
    apply map_ext. now intros [x y].
  - rewrite Forall_map. apply Forall_forall. intros [x y] _.
    cbn [comparison_file file_rows file_name file_x file_y fst snd].
    rewrite map_map. cbn [comparison_row cmp_metric]. now split.
Qed.
End OrchestratorOutputs.

Lemma compared_member (x y : string) (pairs : list (string * string)) :
  In (x, y) pairs -> compared x pairs = true /\ compared y pairs = true.
Proof.
  intros Hin. unfold compared. split; apply existsb_exists; exists (x, y);
    (split; [assumption|]); cbn [fst snd]; rewrite String.eqb_refl;
    [reflexivity | apply orb_true_r].
Qed.

Lemma own_summary_interval (tppf : R -> R -> R) (df : DataFrame) (alpha : R)
    (m : string) (column : list R) :
  let s := own_summary tppf df alpha m column in
  (fst (fst s) - snd (fst s), fst (fst s) + snd s)
  = Stats.tconfint_mean tppf (get_group df m column) alpha.
Proof.
  cbv zeta. unfold own_summary. cbn [fst snd].
  destruct (Stats.tconfint_mean tppf (get_group df m column) alpha) as [lo hi].
  cbn [fst snd]. f_equal; ring.
Qed.

Section OrchestratorAgreement.
Variable tppf : R -> R -> R.
Variable df : DataFrame.
Variable significance_level : R.
Variable model input : string.
Variable include_insignificant_output view_output : bool.

Lemma settled_cell (metrics : list string) (grouped : list (string * list R))
    (pairs : list (string * string)) (m : string) (mc : string * list R) :
  select_metrics df metrics = Some grouped ->
  In mc grouped -> compared m pairs = true ->
  In (fst mc, Some (own_summary tppf df significance_level m (snd mc)))
     (agg_metrics (settle_row tppf df significance_level pairs
                     (mkAggregateRow model input m (initialize_columns metrics)))).
Proof.
  intros Hsel Hmc Hcmp. destruct (select_metrics_spec _ _ _ Hsel) as [Hk Hc].
  unfold settle_row. cbn [agg_deployment_mechanism agg_metrics agg_model agg_input].
  rewrite Hcmp. cbn [agg_metrics]. unfold populate. apply in_map_iff.
  exists (fst mc, None). cbn [fst]. unfold consistent in Hc.
  rewrite Forall_forall in Hc. rewrite (Hc _ Hmc). split; [reflexivity|].
  rewrite initialize_columns_unique. apply in_map_iff. exists (fst mc).
  split; [reflexivity|]. apply unique_In. rewrite <- Hk. now apply in_map.
Qed.

(** X15.  The two outputs agree.  For every row of every comparison file, the
    aggregate frame has a row of the file's first mechanism whose cells for
    the metric of the row are populated, and the interval in the file's
    [x-value] column is [mean - lower, mean + upper] of those cells; the same
    for the second mechanism and the [y-value] column. *)
Theorem comparison_files_agree_with_the_aggregate (metrics : list string)
    (a : Analysis) (f : ComparisonFile) (r : ComparisonRow) :
  analyze_data_significant_difference tppf df significance_level model input
    include_insignificant_output view_output true metrics = Some a ->
  In f (saved a) -> In r (file_rows f) ->
  exists row_x row_y sx sy,
    In row_x (aggregate_df a) /\ agg_deployment_mechanism row_x = file_x f
    /\ In (cmp_metric r, Some sx) (agg_metrics row_x)
    /\ cmp_x_value r = (fst (fst sx) - snd (fst sx), fst (fst sx) + snd sx)
    /\ In row_y (aggregate_df a) /\ agg_deployment_mechanism row_y = file_y f
    /\ In (cmp_metric r, Some sy) (agg_metrics row_y)
    /\ cmp_y_value r = (fst (fst sy) - snd (fst sy), fst (fst sy) + snd sy).
Proof.
  unfold analyze_data_significant_difference.
  destruct (select_metrics df metrics) as [grouped|] eqn:Hsel; [|discriminate].
  intros H Hf Hr. injection H as <-.
  rewrite (analyze_pairs_eq _ _ _ _ _ _ _ _ _ _ _ Hsel) in *.
  cbn [saved aggregate_df] in *.
  apply in_map_iff in Hf. destruct Hf as ([x y] & <- & Hxy).
  cbn [comparison_file file_rows file_x file_y fst snd] in *.
  apply in_map_iff in Hr. destruct Hr as (mc & <- & Hmc).
  cbn [comparison_row cmp_metric cmp_x_value cmp_y_value].
  destruct (compared_member _ _ _ Hxy) as [Hcx Hcy].
  destruct (combinations_members _ _ _ Hxy) as [Hx Hy].
  set (pairs := Frame.combinations (Frame.unique (deployment_mechanism df))) in *.
  exists (settle_row tppf df significance_level pairs
            (mkAggregateRow model input x (initialize_columns metrics))),
         (settle_row tppf df significance_level pairs
            (mkAggregateRow model input y (initialize_columns metrics))),
         (own_summary tppf df significance_level x (snd mc)),
         (own_summary tppf df significance_level y (snd mc)).
  assert (Hrow : forall m, In m (Frame.unique (deployment_mechanism df)) ->
            In (settle_row tppf df significance_level pairs
                  (mkAggregateRow model input m (initialize_columns metrics)))
               (map (settle_row tppf df significance_level pairs)
                  (initialize_aggregate_df metrics
                     (Frame.unique (deployment_mechanism df)) model input))).
  { intros m Hm. apply in_map. unfold initialize_aggregate_df.
    apply in_map_iff. now exists m. }
  assert (Hmech : forall m,
            agg_deployment_mechanism
              (settle_row tppf df significance_level pairs
                 (mkAggregateRow model input m (initialize_columns metrics))) = m).
  { intros m. unfold settle_row. cbn [agg_deployment_mechanism].
    now destruct (compared m pairs). }
  assert (Hux : In x (Frame.unique (deployment_mechanism df))) by assumption.
  assert (Huy : In y (Frame.unique (deployment_mechanism df))) by assumption.
  split; [now apply Hrow|]. split; [apply Hmech|].
  split; [now apply (settled_cell metrics grouped)|]. split.
  2: split; [now apply Hrow|]; split; [apply Hmech|];
     split; [now apply (settled_cell metrics grouped)|].
  - unfold comparison. cbn [x_ci welch_t_test_with_confidence_interval].
    symmetry. apply own_summary_interval.
  - unfold comparison. cbn [y_ci welch_t_test_with_confidence_interval].
    symmetry. apply own_summary_interval.
Qed.
End OrchestratorAgreement.

(** *** Columns *)

Lemma select_then {A} (first second : list bool) (xs : list A) :
  Frame.select second (Frame.select first xs)
  = Frame.select (then_mask first second) xs.
Proof.
  revert second xs. induction first as [|b first IH]; intros second xs.
  - cbn. now destruct second.
  - destruct xs as [|x xs]; [cbn; destruct b, second; reflexivity|].
    destruct b; cbn [Frame.select then_mask].
    + destruct second as [|c second]; cbn [Frame.select].
      * rewrite <- IH. cbn. reflexivity.
      * rewrite IH. reflexivity.
    + apply IH.
Qed.

Lemma then_mask_length (first second : list bool) :
  List.length (then_mask first second) = List.length first.
Proof.
  revert second. induction first as [|[|] first IH]; intros second; cbn; [reflexivity| |].
  - destruct second; cbn; now rewrite IH.
  - now rewrite IH.
Qed.

Lemma select_length_le {A} (mask : list bool) (xs : list A) :
  (List.length (Frame.select mask xs) <= List.length xs)%nat.
Proof.
  revert xs. induction mask as [|b mask IH]; intros [|x xs]; cbn; try lia.
  destruct b; cbn; specialize (IH xs); lia.
Qed.

Lemma select_same_length {A B} (mask : list bool) (xs : list A) (ys : list B) :
  List.length xs = List.length ys ->
  List.length (Frame.select mask xs) = List.length (Frame.select mask ys).
Proof.
  revert xs ys. induction mask as [|b mask IH]; intros [|x xs] [|y ys] H;
    try discriminate; try reflexivity.
  injection H as H. cbn. destruct b; cbn; now rewrite (IH xs ys H).
Qed.

Lemma get_column_filter (name : string) (keep : string -> bool)
    (cols : list (string * list R)) :
  keep name = true ->
  Frame.get_column name (filter (fun c => keep (fst c)) cols)
  = Frame.get_column name cols.
Proof.
  intros Hk. induction cols as [|[n c] cols IH]; cbn; [reflexivity|].
  destruct (String.eqb n name) eqn:E.
  - apply String.eqb_eq in E. subst n. rewrite Hk. cbn. now rewrite String.eqb_refl.
  - destruct (keep n); cbn; [now rewrite E|]; exact IH.
Qed.

Lemma get_column_filter_out (name : string) (keep : string -> bool)
    (cols : list (string * list R)) :
  keep name = false ->
  Frame.get_column name (filter (fun c => keep (fst c)) cols) = None.
Proof.
  intros Hk. induction cols as [|[n c] cols IH]; cbn; [reflexivity|].
  destruct (keep n) eqn:En; cbn; [|exact IH].
  destruct (String.eqb n name) eqn:E; [|exact IH].
  apply String.eqb_eq in E. congruence.
Qed.

Lemma get_column_select (name : string) (mask : list bool)
    (cols : list (string * list R)) :
  Frame.get_column name (map (fun c => (fst c, Frame.select mask (snd c))) cols)
  = option_map (Frame.select mask) (Frame.get_column name cols).
Proof.
  induction cols as [|[n c] cols IH]; cbn; [reflexivity|].
  destruct (String.eqb n name); [reflexivity | exact IH].
Qed.

Lemma get_set_column_same (name : string) (values : list R)
    (cols : list (string * list R)) :
  Frame.get_column name (Frame.set_column name values cols) = Some values.
Proof.
  induction cols as [|[n c] cols IH]; cbn.
  - now rewrite String.eqb_refl.
  - destruct (String.eqb n name) eqn:E; cbn; rewrite E; [reflexivity | exact IH].
Qed.

Lemma get_set_column_other (name other : string) (values : list R)
    (cols : list (string * list R)) :
  other <> name ->
  Frame.get_column other (Frame.set_column name values cols)
  = Frame.get_column other cols.
Proof.
  intros Hne. induction cols as [|[n c] cols IH]; cbn.
  - destruct (String.eqb name other) eqn:E; [|reflexivity].
    apply String.eqb_eq in E. congruence.
  - destruct (String.eqb n name) eqn:E; cbn.
    + apply String.eqb_eq in E. subst n.
      destruct (String.eqb name other) eqn:E2; [|reflexivity].
      apply String.eqb_eq in E2. congruence.
    + destruct (String.eqb n other); [reflexivity | exact IH].
Qed.

Lemma set_column_keys (name : string) (values : list R)
    (cols : list (string * list R)) :
  forall other, In other (map fst (Frame.set_column name values cols))
                <-> other = name \/ In other (map fst cols).
Proof.
  intros other. induction cols as [|[n c] cols IH]; cbn.
  - split; [intros [<-|[]]; now left | intros [->|[]]; now left].
  - destruct (String.eqb n name) eqn:E; cbn.
    + apply String.eqb_eq in E. subst n. split; [intros [<-|H]; auto | intros [->|[<-|H]]; auto].
    + rewrite IH. split; [intros [<-|[->|H]]; auto | intros [->|[<-|H]]; auto].
Qed.

Lemma divide_length (xs ys : list R) :
  List.length xs = List.length ys ->
  List.length (Frame.divide xs ys) = List.length xs.
Proof.
  revert ys. induction xs as [|x xs IH]; intros [|y ys] H; try discriminate;
    [reflexivity|].
  injection H as H. cbn. now rewrite IH.
Qed.

Lemma divide_reciprocal (xs ys : list R) :
  Forall (fun x => x <> 0) xs -> Forall (fun y => y <> 0) ys ->
  Forall2 (fun p q => p * q = 1) (Frame.divide xs ys) (Frame.divide ys xs).
Proof.
  intros Hx. revert ys. induction Hx as [|x xs Hx0 Hx IH]; intros ys Hy.
  - destruct ys; constructor.
  - destruct Hy as [|y ys Hy0 Hy]; cbn; constructor.
    + now field.
    + now apply IH.
Qed.

(** *** The views *)

Lemma select_all {A} (n : nat) (xs : list A) :
  (List.length xs <= n)%nat -> Frame.select (repeat true n) xs = xs.
Proof.
  revert xs. induction n as [|n IH]; intros [|x xs] H; cbn in *; try reflexivity; try lia.
  f_equal. apply IH. lia.
Qed.

Lemma overhead_view_mechanism (docker_overhead_view : Z) (df : DataFrame) :
  well_shaped df ->
  exists mask,
    List.length mask = List.length (deployment_mechanism df)
    /\ apply_docker_overhead_view docker_overhead_view df
       = Frame.select_rows mask
           (Frame.apply_mechanism (docker_overhead_rename docker_overhead_view) df).
Proof.
  intros Hshape.
  assert (Htwice : forall p1 p2 (d : DataFrame),
             List.length (deployment_mechanism d) = List.length (deployment_mechanism df) ->
             exists mask,
               List.length mask = List.length (deployment_mechanism df)
               /\ Frame.drop_startswith p2 (Frame.drop_startswith p1 d)
                  = Frame.select_rows mask d).
  { intros p1 p2 d Hd. unfold Frame.drop_startswith at 1.
    set (m1 := map (fun m => negb (String.prefix p1 m)) (deployment_mechanism d)).
    set (d1 := Frame.drop_startswith p1 d).
    set (m2 := map (fun m => negb (String.prefix p2 m)) (deployment_mechanism d1)).
    exists (then_mask m1 m2). split.
    - rewrite then_mask_length. unfold m1. now rewrite length_map.
    - unfold d1, Frame.drop_startswith. fold m1. unfold Frame.select_rows.
      cbn [deployment_mechanism columns]. f_equal.
      + apply select_then.
      + rewrite map_map. apply map_ext. intros c. cbn [fst snd]. f_equal.
        apply select_then. }
  unfold apply_docker_overhead_view, docker_overhead_rename.
  destruct (Z.eqb docker_overhead_view DOCKER_OVERHEAD_EXCLUDE_DAEMON);
    [|destruct (Z.eqb docker_overhead_view DOCKER_OVERHEAD_INCLUDE_FULL_DAEMON);
      [|destruct (Z.eqb docker_overhead_view DOCKER_OVERHEAD_INCLUDE_ADDITIONAL_DAEMON)]].
  - eexists. split; [|reflexivity]. cbn. now rewrite !length_map.
  - apply Htwice. cbn. now rewrite length_map.
  - apply Htwice. cbn. now rewrite length_map.
  - exists (repeat true (List.length (deployment_mechanism df))). split;
      [now rewrite repeat_length|].
    destruct df as [mech cols]. unfold Frame.select_rows, Frame.apply_mechanism.
    unfold well_shaped in Hshape. cbn [deployment_mechanism columns] in *.
    rewrite map_id. f_equal.
    + symmetry. now apply select_all.
    + symmetry. transitivity (map (fun c : string * list R => c) cols);
        [|apply map_id].
      apply map_ext_in. intros [n c] Hin. rewrite Forall_forall in Hshape.
      specialize (Hshape _ Hin). cbn [fst snd] in *. rewrite select_all; [reflexivity|lia].
Qed.

(** *** The shape of a frame *)

Lemma well_shaped_keep (keep : list string) (df : DataFrame) :
  well_shaped df -> well_shaped (Frame.keep_columns keep df).
Proof.
  unfold well_shaped, Frame.keep_columns. cbn [columns deployment_mechanism].
  intros H. apply Forall_forall. intros c Hc. apply filter_In in Hc.
  rewrite Forall_forall in H. now apply H.
Qed.

Lemma well_shaped_select_rows (mask : list bool) (df : DataFrame) :
  well_shaped df -> well_shaped (Frame.select_rows mask df).
Proof.
  unfold well_shaped, Frame.select_rows. cbn [columns deployment_mechanism].
  intros H. rewrite Forall_map. eapply Forall_impl; [|exact H].
  intros c Hc. cbn [snd]. now apply select_same_length.
Qed.

Lemma well_shaped_apply_mechanism (f : string -> string) (df : DataFrame) :
  well_shaped df -> well_shaped (Frame.apply_mechanism f df).
Proof.
  unfold well_shaped, Frame.apply_mechanism. cbn [columns deployment_mechanism].
  now rewrite length_map.
Qed.

Lemma well_shaped_view (docker_overhead_view : Z) (df : DataFrame) :
  well_shaped df -> well_shaped (apply_docker_overhead_view docker_overhead_view df).
Proof.
  intros H. destruct (overhead_view_mechanism docker_overhead_view df H) as (mask & _ & ->).
  now apply well_shaped_select_rows, well_shaped_apply_mechanism.
Qed.

Lemma get_column_shape (name : string) (column : list R) (df : DataFrame) :
  well_shaped df -> Frame.get_column name (columns df) = Some column ->
  List.length column = List.length (deployment_mechanism df).
Proof.
  unfold well_shaped. generalize (List.length (deployment_mechanism df)). intros n.
  induction 1 as [|[k c] cols Hc _ IH]; cbn; [discriminate|].
  destruct (String.eqb k name); [|exact IH]. intros E. now injection E as <-.
Qed.

Lemma well_shaped_set_column (name : string) (values : list R) (mech : list string)
    (cols : list (string * list R)) :
  List.length values = List.length mech ->
  well_shaped (mkDataFrame mech cols) ->
  well_shaped (mkDataFrame mech (Frame.set_column name values cols)).
Proof.
  unfold well_shaped. cbn [columns deployment_mechanism]. intros Hv.
  induction 1 as [|[k c] cols Hc Hrest IH]; cbn.
  - now repeat constructor.
  - destruct (String.eqb k name); constructor; assumption.
Qed.

Lemma well_shaped_computed (df : DataFrame) :
  well_shaped df -> well_shaped (add_computed_columns df).
Proof.
  intros H. unfold add_computed_columns.
  destruct (Frame.get_column "cpu-cycles" (columns df)) as [cycles|] eqn:Ec;
    [|assumption].
  destruct (Frame.get_column "instructions" (columns df)) as [instructions|] eqn:Ei;
    [|assumption].
  pose proof (get_column_shape _ _ _ H Ec) as Lc.
  pose proof (get_column_shape _ _ _ H Ei) as Li.
  apply well_shaped_set_column; [rewrite divide_length; congruence|].
  apply well_shaped_set_column; [rewrite divide_length; congruence|].
  now destruct df.
Qed.

Lemma add_computed_columns_other (name : string) (df : DataFrame) :
  ~ In name COMPUTED_COLUMNS ->
  Frame.get_column name (columns (add_computed_columns df))
  = Frame.get_column name (columns df).
Proof.
  intros Hno. unfold add_computed_columns.
  destruct (Frame.get_column "cpu-cycles" (columns df)); [|reflexivity].
  destruct (Frame.get_column "instructions" (columns df)); [|reflexivity].
  cbn [columns]. rewrite !get_set_column_other; [reflexivity| |];
    intros ->; apply Hno; cbn; tauto.
Qed.

Lemma view_column_names (docker_overhead_view : Z) (df : DataFrame) :
  map fst (columns (apply_docker_overhead_view docker_overhead_view df))
  = map fst (columns df).
Proof.
  unfold apply_docker_overhead_view.
  destruct (Z.eqb docker_overhead_view DOCKER_OVERHEAD_EXCLUDE_DAEMON);
    [|destruct (Z.eqb docker_overhead_view DOCKER_OVERHEAD_INCLUDE_FULL_DAEMON);
      [|destruct (Z.eqb docker_overhead_view DOCKER_OVERHEAD_INCLUDE_ADDITIONAL_DAEMON)]];
    cbn; rewrite ?map_map; reflexivity.
Qed.

Lemma select_filter_map {A} (p q : string -> bool) (l : list string) (xs : list A) :
  Frame.select (map q (filter p l)) (Frame.select (map p l) xs)
  = Frame.select (map (fun m => p m && q m) l) xs.
Proof.
  revert xs. induction l as [|a t IH]; intros xs; [reflexivity|].
  destruct xs as [|x xs]; cbn [map filter Frame.select].
  - destruct (p a); cbn; [destruct (q a)|]; destruct (filter p t); reflexivity.
  - destruct (p a); cbn [map Frame.select andb]; [|apply IH].
    destruct (q a); now rewrite IH.
Qed.

Lemma select_filter_self (p : string -> bool) (l : list string) :
  Frame.select (map p l) l = filter p l.
Proof. apply select_map. Qed.

Lemma loader_mask_renamed (docker_overhead_view : Z) (requested raw : list string) :
  loader_mask docker_overhead_view requested raw
  = map (fun r => docker_overhead_keeps docker_overhead_view r && Frame.mem r requested)
        (map (docker_overhead_rename docker_overhead_view) raw).
Proof. unfold loader_mask. now rewrite map_map. Qed.

Lemma filter_filter_and (p q : string -> bool) (l : list string) :
  filter q (filter p l) = filter (fun m => p m && q m) l.
Proof.
  induction l as [|a t IH]; [reflexivity|]. cbn [filter].
  destruct (p a); cbn [filter andb]; [destruct (q a)|]; now rewrite ?IH.
Qed.

Lemma select_two_filters {A} (p q r : string -> bool) (l : list string) (xs : list A) :
  Frame.select (map r (filter q (filter p l)))
    (Frame.select (map q (filter p l)) (Frame.select (map p l) xs))
  = Frame.select (map (fun m => (p m && q m) && r m) l) xs.
Proof.
  rewrite !select_filter_map. f_equal. apply map_ext. intros m.
  apply andb_assoc.
Qed.

(** A view followed by the choice of the requested mechanisms, on the
    mechanism column and on any column of the frame. *)
Lemma view_as_mask (docker_overhead_view : Z) (df : DataFrame) (requested : list string) :
  let renamed := map (docker_overhead_rename docker_overhead_view)
                     (deployment_mechanism df) in
  let viewed := apply_docker_overhead_view docker_overhead_view df in
  let last := map (fun m => Frame.mem m requested) (deployment_mechanism viewed) in
  let mask := loader_mask docker_overhead_view requested (deployment_mechanism df) in
  Frame.select last (deployment_mechanism viewed) = Frame.select mask renamed
  /\ forall name,
       option_map (Frame.select last) (Frame.get_column name (columns viewed))
       = option_map (Frame.select mask) (Frame.get_column name (columns df)).
Proof.
  cbv zeta. rewrite loader_mask_renamed.
  unfold apply_docker_overhead_view, docker_overhead_rename, docker_overhead_keeps.
  destruct (Z.eqb docker_overhead_view DOCKER_OVERHEAD_EXCLUDE_DAEMON);
    [|destruct (Z.eqb docker_overhead_view DOCKER_OVERHEAD_INCLUDE_FULL_DAEMON);
      [|destruct (Z.eqb docker_overhead_view DOCKER_OVERHEAD_INCLUDE_ADDITIONAL_DAEMON)]].
  - cbv zeta. unfold Frame.drop_startswith, Frame.select_rows, Frame.apply_mechanism.
    cbn [columns deployment_mechanism].
    set (l := map _ (deployment_mechanism df)).
    rewrite !select_filter_self. split.
    + apply filter_filter_and.
    + intros name. rewrite get_column_select.
      destruct (Frame.get_column name (columns df)); cbn [option_map]; [|reflexivity].
      f_equal. apply select_filter_map.
  - cbv zeta. unfold Frame.drop_startswith, Frame.select_rows, Frame.apply_mechanism.
    cbn [columns deployment_mechanism].
    set (l := map _ (deployment_mechanism df)).
    rewrite !select_filter_self. split.
    + rewrite !filter_filter_and. apply filter_ext. intros m. now rewrite andb_assoc.
    + intros name. rewrite !get_column_select.
      destruct (Frame.get_column name (columns df)); cbn [option_map]; [|reflexivity].
      f_equal. apply select_two_filters.
  - cbv zeta. unfold Frame.drop_startswith, Frame.select_rows, Frame.apply_mechanism.
    cbn [columns deployment_mechanism].
    set (l := map _ (deployment_mechanism df)).
    rewrite !select_filter_self. split.
    + rewrite !filter_filter_and. apply filter_ext. intros m. now rewrite andb_assoc.
    + intros name. rewrite !get_column_select.
      destruct (Frame.get_column name (columns df)); cbn [option_map]; [|reflexivity].
      f_equal. apply select_two_filters.
  - rewrite map_id. cbn [andb]. split; [reflexivity|]. intros name. reflexivity.
Qed.

(** X16.  The loader as one selection of rows.  Row [i] of the raw frame comes
    out exactly when [loader_mask] holds at [i]: the name the view gives to
    its mechanism is one the view keeps and one that was requested.  The
    mechanism column of the result is that selection of the renamed raw
    column; every column other than the two computed ones is absent unless it
    is a non-metric column or a requested metric, and is otherwise that same
    selection of the raw column: the cells of a row stay together.  A frame
    whose columns all have the length of the mechanism column stays one. *)
Theorem loader_selects_whole_rows (df : DataFrame)
    (deployment_mechanisms metrics : list string) (docker_overhead_view : Z)
    (is_perf_file : bool) :
  let parsed := parse_csv_rows df deployment_mechanisms metrics docker_overhead_view
                  is_perf_file in
  let mask := loader_mask docker_overhead_view deployment_mechanisms
                (deployment_mechanism df) in
  deployment_mechanism parsed
  = Frame.select mask (map (docker_overhead_rename docker_overhead_view)
                           (deployment_mechanism df))
  /\ (forall name,
         ~ In name COMPUTED_COLUMNS ->
         Frame.get_column name (columns parsed)
         = if Frame.mem name (NON_METRIC_COLUMNS ++ metrics)
           then option_map (Frame.select mask) (Frame.get_column name (columns df))
           else None)
  /\ (well_shaped df -> well_shaped parsed).
Proof.
  cbv zeta. unfold parse_csv_rows.
  set (kept := Frame.keep_columns (NON_METRIC_COLUMNS ++ metrics) df).
  set (viewed := apply_docker_overhead_view docker_overhead_view kept).
  set (derived := if is_perf_file then add_computed_columns viewed else viewed).
  assert (Emech : deployment_mechanism derived = deployment_mechanism viewed).
  { unfold derived. destruct is_perf_file;
      [apply add_computed_columns_mechanism | reflexivity]. }
  destruct (view_as_mask docker_overhead_view kept deployment_mechanisms)
    as [Hmech Hcols].
  cbv zeta in Hmech, Hcols. fold viewed in Hmech, Hcols.
  change (deployment_mechanism kept) with (deployment_mechanism df) in Hmech, Hcols.
  split; [|split].
  - cbn [Frame.select_rows deployment_mechanism]. rewrite Emech. exact Hmech.
  - intros name Hname. cbn [Frame.select_rows columns]. rewrite get_column_select, Emech.
    assert (E : Frame.get_column name (columns derived)
                = Frame.get_column name (columns viewed)).
    { unfold derived. destruct is_perf_file;
        [now apply add_computed_columns_other | reflexivity]. }
    rewrite E, Hcols. unfold kept, Frame.keep_columns. cbn [columns].
    destruct (Frame.mem name (NON_METRIC_COLUMNS ++ metrics)) eqn:Ek.
    + now rewrite (get_column_filter name
                     (fun n => Frame.mem n (NON_METRIC_COLUMNS ++ metrics))).
    + now rewrite (get_column_filter_out name
                     (fun n => Frame.mem n (NON_METRIC_COLUMNS ++ metrics))).
  - intros Hshape. apply well_shaped_select_rows.
    assert (Hviewed : well_shaped viewed)
      by now apply well_shaped_view, well_shaped_keep.
    unfold derived. destruct is_perf_file; [now apply well_shaped_computed|assumption].
Qed.

Lemma Forall_filter_holds {A} (p : A -> bool) (l : list A) :
  Forall (fun x => p x = true) (filter p l).
Proof. apply Forall_forall. intros x Hx. now apply filter_In in Hx. Qed.

Lemma view_drops_the_variants (docker_overhead_view : Z) (df : DataFrame) :
  docker_overhead_view = DOCKER_OVERHEAD_EXCLUDE_DAEMON
  \/ docker_overhead_view = DOCKER_OVERHEAD_INCLUDE_FULL_DAEMON
  \/ docker_overhead_view = DOCKER_OVERHEAD_INCLUDE_ADDITIONAL_DAEMON ->
  Forall (fun m => ~ In m DOCKER_VARIANTS)
         (deployment_mechanism (apply_docker_overhead_view docker_overhead_view df)).
Proof.
  assert (Hpre : forall m, String.prefix "docker_container" m = false ->
                           ~ In m DOCKER_VARIANTS).
  { intros m Hm [<-|[<-|[<-|[]]]]; discriminate. }
  intros [->|[->| ->]].
  - change (apply_docker_overhead_view DOCKER_OVERHEAD_EXCLUDE_DAEMON df)
      with (Frame.drop_startswith "docker_container_and_daemon"
              (Frame.apply_mechanism
                 (fun m => if String.eqb m "docker_container" then "docker" else m) df)).
    rewrite drop_startswith_mechanism. cbn [Frame.apply_mechanism deployment_mechanism].
    apply Forall_forall. intros m Hm. apply filter_In in Hm. destruct Hm as [Hin Hp].
    apply negb_true_iff in Hp. apply in_map_iff in Hin. destruct Hin as (r & E & _).
    intros [<-|[<-|[<-|[]]]]; try discriminate.
    destruct (String.eqb r "docker_container") eqn:Er; [discriminate|].
    apply String.eqb_neq in Er. congruence.
  - rewrite full_daemon_view_mechanism.
    eapply Forall_impl; [|apply Forall_filter_holds]. cbn beta.
    intros m Hm. apply Hpre. now apply negb_true_iff.
  - change (apply_docker_overhead_view DOCKER_OVERHEAD_INCLUDE_ADDITIONAL_DAEMON df)
      with (Frame.drop_startswith "docker_container_and_daemon"
              (Frame.drop_startswith "docker_container"
                 (Frame.apply_mechanism
                    (fun m => if String.prefix
                                   "docker_container_and_daemon_extra_overhead" m
                              then "docker" else m) df))).
    rewrite !drop_startswith_mechanism. apply Forall_filter_weaken.
    eapply Forall_impl; [|apply Forall_filter_holds]. cbn beta.
    intros m Hm. apply Hpre. now apply negb_true_iff.
Qed.

(** X17.  Under each of the three views no row of the result is named
    [docker_container], [docker_container_and_daemon] or
    [docker_container_and_daemon_extra_overhead], for every frame and request,
    even when a raw name is among the requested mechanisms. *)
Theorem variant_names_never_survive_a_view (df : DataFrame)
    (deployment_mechanisms metrics : list string) (docker_overhead_view : Z)
    (is_perf_file : bool) :
  docker_overhead_view = DOCKER_OVERHEAD_EXCLUDE_DAEMON
  \/ docker_overhead_view = DOCKER_OVERHEAD_INCLUDE_FULL_DAEMON
  \/ docker_overhead_view = DOCKER_OVERHEAD_INCLUDE_ADDITIONAL_DAEMON ->
  Forall (fun m => ~ In m DOCKER_VARIANTS)
         (deployment_mechanism
            (parse_csv_rows df deployment_mechanisms metrics docker_overhead_view
               is_perf_file)).
Proof.
  intros Hview. rewrite parse_csv_rows_mechanism. apply Forall_filter_weaken.
  now apply view_drops_the_variants.
Qed.

(** X18.  A view other than 0, 1 and 2 falls through the chain of line 249: no
    mechanism is renamed and none dropped, and the result holds the rows whose
    raw name was requested.  A raw variant name then comes out when it was
    itself requested, and a variant is never turned into [docker]. *)
Theorem unknown_view_renames_nothing (df : DataFrame)
    (deployment_mechanisms metrics : list string) (docker_overhead_view : Z)
    (is_perf_file : bool) :
  docker_overhead_view <> DOCKER_OVERHEAD_EXCLUDE_DAEMON ->
  docker_overhead_view <> DOCKER_OVERHEAD_INCLUDE_FULL_DAEMON ->
  docker_overhead_view <> DOCKER_OVERHEAD_INCLUDE_ADDITIONAL_DAEMON ->
  deployment_mechanism
    (parse_csv_rows df deployment_mechanisms metrics docker_overhead_view is_perf_file)
  = filter (fun m => Frame.mem m deployment_mechanisms) (deployment_mechanism df).
Proof.
  intros H0 H1 H2. rewrite parse_csv_rows_mechanism. unfold apply_docker_overhead_view.
  apply Z.eqb_neq in H0, H1, H2. now rewrite H0, H1, H2.
Qed.

Lemma get_column_names (name : string) (cols cols' : list (string * list R)) :
  map fst cols = map fst cols' ->
  Frame.get_column name cols = None -> Frame.get_column name cols' = None.
Proof.
  intros E H. apply get_column_none. rewrite <- E. now apply get_column_none.
Qed.

(** X19.  When [cpu-cycles] or [instructions] is not among the requested
    metrics, a perf file is read exactly as a time file: the unrequested
    counter was dropped at line 247, the test of line 275 fails, and no
    computed column is added. *)
Theorem computed_columns_need_both_raw_metrics (df : DataFrame)
    (deployment_mechanisms metrics : list string) (docker_overhead_view : Z) :
  ~ In "cpu-cycles" metrics \/ ~ In "instructions" metrics ->
  parse_csv_rows df deployment_mechanisms metrics docker_overhead_view true
  = parse_csv_rows df deployment_mechanisms metrics docker_overhead_view false.
Proof.
  intros Hmissing. unfold parse_csv_rows.
  set (kept := Frame.keep_columns (NON_METRIC_COLUMNS ++ metrics) df).
  set (viewed := apply_docker_overhead_view docker_overhead_view kept).
  assert (E : add_computed_columns viewed = viewed); [|now rewrite E].
  assert (Hout : forall name, ~ In name metrics -> ~ In name NON_METRIC_COLUMNS ->
                              Frame.get_column name (columns viewed) = None).
  { intros name Hm Hn.
    apply (get_column_names name (columns kept)).
    - symmetry. apply view_column_names.
    - unfold kept, Frame.keep_columns. cbn [columns].
      apply (get_column_filter_out name
               (fun n => Frame.mem n (NON_METRIC_COLUMNS ++ metrics))).
      destruct (Frame.mem name (NON_METRIC_COLUMNS ++ metrics)) eqn:Ek; [|reflexivity].
      apply mem_true_iff, in_app_iff in Ek. tauto. }
  unfold add_computed_columns. destruct Hmissing as [Hc|Hi].
  - rewrite (Hout "cpu-cycles" Hc); [reflexivity|].
    intros [H|[H|[H|[]]]]; discriminate.
  - rewrite (Hout "instructions" Hi).
    + now destruct (Frame.get_column "cpu-cycles" (columns viewed)).
    + intros [H|[H|[H|[]]]]; discriminate.
Qed.

(** X20.  On a frame that holds both counters, the two computed columns are
    the element-wise quotients of the instructions by the cycles and of the
    cycles by the instructions, every other column and the mechanism column
    are unchanged, and where no counter is zero the two computed values of a
    row multiply to one. *)
Theorem computed_columns_are_the_two_quotients (df : DataFrame)
    (cycles instructions : list R) :
  Frame.get_column "cpu-cycles" (columns df) = Some cycles ->
  Frame.get_column "instructions" (columns df) = Some instructions ->
  let derived := add_computed_columns df in
  Frame.get_column "instructions-per-cycle" (columns derived)
  = Some (Frame.divide instructions cycles)
  /\ Frame.get_column "cycles-per-instruction" (columns derived)
     = Some (Frame.divide cycles instructions)
  /\ (forall name, ~ In name COMPUTED_COLUMNS ->
                   Frame.get_column name (columns derived)
                   = Frame.get_column name (columns df))
  /\ deployment_mechanism derived = deployment_mechanism df
  /\ (Forall (fun x => x <> 0) cycles -> Forall (fun x => x <> 0) instructions ->
      Forall2 (fun ipc cpi => ipc * cpi = 1)
              (Frame.divide instructions cycles) (Frame.divide cycles instructions)).
Proof.
  intros Hc Hi. cbv zeta. split; [|split; [|split; [|split]]].
  - unfold add_computed_columns. rewrite Hc, Hi. cbn [columns].
    rewrite get_set_column_other by discriminate. apply get_set_column_same.
  - unfold add_computed_columns. rewrite Hc, Hi. cbn [columns].
    apply get_set_column_same.
  - intros name Hname. now apply add_computed_columns_other.
  - apply add_computed_columns_mechanism.
  - intros Zc Zi. now apply divide_reciprocal.
Qed.

(** *** The store *)

Lemma NoDup_filter_notin (old new : list string) :
  NoDup old -> NoDup new ->
  NoDup (old ++ filter (fun c => negb (Frame.mem c old)) new).
Proof.
  intros Ho Hn. apply NoDup_app; [assumption | now apply NoDup_filter |].
  intros c Hc Hf. apply filter_In in Hf. destruct Hf as [_ Hf].
  apply negb_true_iff in Hf. apply mem_true_iff in Hc. congruence.
Qed.

(** Two updates on frames: the rows are put one after the other, the
    headers united. *)
Lemma concat_twice (first second : AggregateTable)
    (store : option AggregateTable) :
  let old_rows := match store with Some s => table_rows s | None => [] end in
  let after := create_or_update_aggregate_csv second
                 (Some (create_or_update_aggregate_csv first store)) in
  table_rows after = old_rows ++ table_rows first ++ table_rows second
  /\ (forall c, In c (table_columns after) <->
                (match store with Some s => In c (table_columns s) | None => False end)
                \/ In c (table_columns first) \/ In c (table_columns second))
  /\ (match store with Some s => NoDup (table_columns s) | None => True end ->
      NoDup (table_columns first) -> NoDup (table_columns second) ->
      NoDup (table_columns after)).
Proof.
  assert (Hin : forall old new c,
             In c (old ++ filter (fun c => negb (Frame.mem c old)) new)
             <-> In c old \/ In c new).
  { intros old new c. rewrite in_app_iff, filter_In, negb_true_iff. split.
    - tauto.
    - intros [H|H]; [now left|].
      destruct (Frame.mem c old) eqn:E; [left; now apply mem_true_iff | now right]. }
  cbv zeta. destruct store as [s|]; cbn.
  - split; [now rewrite app_assoc|]. split.
    + intros c. rewrite !Hin. tauto.
    + intros Hs Hf Hn. now repeat apply NoDup_filter_notin.
  - split; [reflexivity|]. split.
    + intros c. rewrite Hin. tauto.
    + intros _ Hf Hn. now apply NoDup_filter_notin.
Qed.

(** X21.  The store over two runs, starting from a file that may not exist,
    when pandas reads the old store and the store after the first run back
    as they were written: its rows are the old rows, then those of the first
    run, then those of the second; a column is in its header exactly when it
    is in one of the three headers; and the header has no column twice when
    none of the three has. *)
Theorem store_keeps_every_run (read_header : list string -> list string)
    (read_other : list string -> string -> string)
    (first second : AggregateTable) (store : option AggregateTable) :
  match store with
  | Some s => read_csv read_header read_other s = s
  | None => True
  end ->
  read_csv read_header read_other (store_after read_header read_other first store)
  = store_after read_header read_other first store ->
  let old_rows := match store with Some s => table_rows s | None => [] end in
  let after := store_after read_header read_other second
                 (Some (store_after read_header read_other first store)) in
  table_rows after = old_rows ++ table_rows first ++ table_rows second
  /\ (forall c, In c (table_columns after) <->
                (match store with Some s => In c (table_columns s) | None => False end)
                \/ In c (table_columns first) \/ In c (table_columns second))
  /\ (match store with Some s => NoDup (table_columns s) | None => True end ->
      NoDup (table_columns first) -> NoDup (table_columns second) ->
      NoDup (table_columns after)).
Proof.
  intros Hold Hfirst. cbv zeta.
  assert (E : store_after read_header read_other second
                (Some (store_after read_header read_other first store))
              = create_or_update_aggregate_csv second
                  (Some (create_or_update_aggregate_csv first store))).
  { unfold store_after at 1. cbn [option_map]. rewrite Hfirst.
    unfold store_after. destruct store as [s|]; cbn [option_map]; [|reflexivity].
    now rewrite Hold. }
  rewrite E. exact (concat_twice first second store).
Qed.

(** *** The charts *)

Section ChartFacts.
Variable aggregate_df : AggregateTable.
Variable across_models : bool.
Variable variable_values : list string.
Variable constant_value : string.
Variable save_output : bool.

Lemma chart_raised (metrics : list string) (plots : list string) :
  fold_left (Aggregate.chart_metric aggregate_df across_models variable_values
               constant_value save_output) metrics (Aggregate.Raised plots)
  = Aggregate.Raised plots.
Proof. induction metrics as [|m t IH]; cbn; [reflexivity | exact IH]. Qed.

Lemma chart_from (metrics : list string) (plots : list string) :
  match fold_left (Aggregate.chart_metric aggregate_df across_models variable_values
                     constant_value save_output) metrics (Aggregate.Completed plots) with
  | Aggregate.Completed ps =>
      ps = plots ++ plots_named aggregate_df across_models variable_values
                      constant_value save_output metrics
      /\ Forall (fun metric => metric_is_present aggregate_df metric = true ->
                               metric_is_drawable aggregate_df variable_values metric
                               = true) metrics
  | Aggregate.Raised ps =>
      exists before metric after,
        metrics = before ++ metric :: after
        /\ ps = plots ++ plots_named aggregate_df across_models variable_values
                         constant_value save_output before
        /\ metric_is_present aggregate_df metric = true
        /\ metric_is_drawable aggregate_df variable_values metric = false
        /\ Forall (fun metric => metric_is_present aggregate_df metric = true ->
                               metric_is_drawable aggregate_df variable_values metric
                               = true) before
  end.
Proof.
  revert plots. induction metrics as [|m t IH]; intros plots.
  - cbn. unfold plots_named. destruct save_output; cbn; rewrite app_nil_r; now split.
  - cbn [fold_left Aggregate.chart_metric]. fold (metric_is_present aggregate_df m).
    fold (metric_is_drawable aggregate_df variable_values m).
    destruct (metric_is_present aggregate_df m) eqn:Ep.
    + destruct (metric_is_drawable aggregate_df variable_values m) eqn:Ed.
      * specialize (IH (if save_output
                        then plots ++ [Aggregate.plot_filename across_models
                                         variable_values constant_value m]
                        else plots)).
        destruct (fold_left _ t _) as [ps|ps].
        -- destruct IH as [E Hall]. split.
           ++ rewrite E. unfold plots_named. cbn [filter]. rewrite Ep.
              destruct save_output; [|reflexivity]. cbn [map].
              now rewrite <- app_assoc.
           ++ constructor; auto.
        -- destruct IH as (before & metric & after & E & Eps & Hp & Hd & Hall).
           exists (m :: before), metric, after. repeat split; try assumption.
           ++ now rewrite E.
           ++ rewrite Eps. unfold plots_named. cbn [filter]. rewrite Ep.
              destruct save_output; [|reflexivity]. cbn [map].
              now rewrite <- app_assoc.
           ++ constructor; auto.
      * rewrite chart_raised. exists [], m, t. repeat split; try assumption.
        -- unfold plots_named. destruct save_output; cbn; now rewrite app_nil_r.
        -- constructor.
    + specialize (IH plots). destruct (fold_left _ t _) as [ps|ps].
      * destruct IH as [E Hall]. split.
        -- rewrite E. unfold plots_named. cbn [filter]. now rewrite Ep.
        -- constructor; [congruence | assumption].
      * destruct IH as (before & metric & after & E & Eps & Hp & Hd & Hall).
        exists (m :: before), metric, after. repeat split; try assumption.
        -- now rewrite E.
        -- rewrite Eps. unfold plots_named. cbn [filter]. now rewrite Ep.
        -- constructor; [congruence | assumption].
Qed.
End ChartFacts.

(** X22.  The charting loop without the loop, on a frame without a negative
    error (matplotlib refuses one).  When it completes, the plots
    saved are those of the metrics whose [-mean] column is in the frame, in
    the order of the metrics (none when [save_output] is off), and every such
    metric could be drawn for every mechanism.  When it raises, it does so at
    the first present metric that cannot be drawn, the plots of the present
    metrics before it are saved, and nothing after it is. *)
Theorem charts_follow_the_present_metrics (aggregate_df : AggregateTable)
    (across_models : bool) (variable_values : list string) (constant_value : string)
    (save_output : bool) (metrics : list string) :
  errors_are_non_negative aggregate_df ->
  match Aggregate.chart_compare_across_models_or_inputs aggregate_df across_models
          variable_values constant_value save_output metrics with
  | Aggregate.Completed plots =>
      plots = plots_named aggregate_df across_models variable_values constant_value
                save_output metrics
      /\ Forall (fun metric => metric_is_present aggregate_df metric = true ->
                               metric_is_drawable aggregate_df variable_values metric
                               = true) metrics
  | Aggregate.Raised plots =>
      exists before metric after,
        metrics = before ++ metric :: after
        /\ plots = plots_named aggregate_df across_models variable_values constant_value
                     save_output before
        /\ metric_is_present aggregate_df metric = true
        /\ metric_is_drawable aggregate_df variable_values metric = false
        /\ Forall (fun metric => metric_is_present aggregate_df metric = true ->
                                 metric_is_drawable aggregate_df variable_values metric
                                 = true) before
  end.
Proof.
  intros _.
  exact (chart_from aggregate_df across_models variable_values constant_value
           save_output metrics []).
Qed.

Lemma filter_none {A} (p : A -> bool) (l : list A) :
  Forall (fun x => p x = false) l -> filter p l = [].
Proof. induction 1 as [|x l Hx _ IH]; cbn; [reflexivity|]. now rewrite Hx. Qed.

Lemma chart_blocked (aggregate_df : AggregateTable)
    (across_models : bool) (variable_values : list string) (constant_value : string)
    (save_output : bool) (metrics : list string) (m : string) :
  In m (map agg_deployment_mechanism (table_rows aggregate_df)) ->
  Aggregate.has_key m Aggregate.DEPLOYMENT_MECHANISM_TO_COLOR = false
  \/ List.length variable_values <> List.length (rows_of_mechanism aggregate_df m) ->
  Aggregate.plots_of
    (Aggregate.chart_compare_across_models_or_inputs aggregate_df across_models
       variable_values constant_value save_output metrics) = []
  /\ (Exists (fun metric => metric_is_present aggregate_df metric = true) metrics ->
      Aggregate.chart_compare_across_models_or_inputs aggregate_df across_models
        variable_values constant_value save_output metrics = Aggregate.Raised []).
Proof.
  intros Hm Hbad.
  assert (Hno : forall metric,
             metric_is_drawable aggregate_df variable_values metric = false).
  { intros metric. unfold metric_is_drawable.
    destruct (forallb _ _) eqn:E; [|reflexivity].
    rewrite forallb_forall in E. specialize (E m (proj2 (unique_In _ _) Hm)).
    unfold Aggregate.errorbar_ok in E. fold (rows_of_mechanism aggregate_df m) in E.
    rewrite !andb_true_iff in E. destruct E as [[[[_ _] Hlen] Hcolor] _].
    destruct Hbad as [Hc|Hl]; [congruence|].
    apply Nat.eqb_eq in Hlen. contradiction. }
  assert (Hnone : forall l,
             Forall (fun metric => metric_is_present aggregate_df metric = true ->
                                   metric_is_drawable aggregate_df variable_values metric
                                   = true) l ->
             plots_named aggregate_df across_models variable_values constant_value
               save_output l = []).
  { intros l Hall. unfold plots_named. rewrite filter_none.
    - now destruct save_output.
    - eapply Forall_impl; [|exact Hall]. cbn beta. intros metric H.
      destruct (metric_is_present aggregate_df metric); [|reflexivity].
      specialize (H eq_refl). now rewrite Hno in H. }
  pose proof (chart_from aggregate_df across_models variable_values constant_value
                save_output metrics []) as H.
  unfold Aggregate.chart_compare_across_models_or_inputs.
  destruct (fold_left _ metrics _) as [ps|ps].
  - destruct H as [-> Hall]. cbn [app Aggregate.plots_of]. split; [now apply Hnone|].
    intros Hex. exfalso. apply Exists_exists in Hex. destruct Hex as (metric & Hin & Hp).
    rewrite Forall_forall in Hall. specialize (Hall _ Hin Hp). now rewrite Hno in Hall.
  - destruct H as (before & metric & after & _ & -> & _ & _ & Hall).
    cbn [app Aggregate.plots_of]. rewrite (Hnone _ Hall). now split.
Qed.

(** X23.  When a mechanism of the frame has no colour, or not as many rows as
    there are values on the x axis, no plot is saved at all, and the function
    raises as soon as one requested metric is present. *)
Theorem no_plot_when_a_mechanism_cannot_be_drawn (aggregate_df : AggregateTable)
    (across_models : bool) (variable_values : list string) (constant_value : string)
    (save_output : bool) (metrics : list string) (m : string) :
  In m (map agg_deployment_mechanism (table_rows aggregate_df)) ->
  Aggregate.has_key m Aggregate.DEPLOYMENT_MECHANISM_TO_COLOR = false
  \/ List.length variable_values <> List.length (rows_of_mechanism aggregate_df m) ->
  Aggregate.plots_of
    (Aggregate.chart_compare_across_models_or_inputs aggregate_df across_models
       variable_values constant_value save_output metrics) = []
  /\ (Exists (fun metric => metric_is_present aggregate_df metric = true) metrics ->
      Aggregate.chart_compare_across_models_or_inputs aggregate_df across_models
        variable_values constant_value save_output metrics = Aggregate.Raised []).
Proof.
  exact (chart_blocked aggregate_df across_models variable_values constant_value
           save_output metrics m).
Qed.

(** X24.  The columns [remove_irrelevant_df_columns] keeps, for the metric
    columns [main] builds: each is a column of the frame, so the selection
    cannot fail; a column of a requested metric is kept exactly when the frame
    has it, and so is each of the three non-metric columns. *)
Theorem kept_columns_exist_and_keep_the_requested_metrics
    (df_columns metrics : list string) :
  let kept := AggregateMain.cols_to_keep df_columns (AggregateMain.metric_cols metrics) in
  Forall (fun col => In col df_columns) kept
  /\ (forall metric suffix,
         In metric metrics -> In suffix METRIC_SUFFIXES ->
         Frame.mem (metric ++ suffix)%string kept
         = Frame.mem (metric ++ suffix)%string df_columns)
  /\ (forall col, In col AggregateMain.NON_METRIC_COLUMNS ->
                  Frame.mem col kept = Frame.mem col df_columns).
Proof.
  cbv zeta. unfold AggregateMain.cols_to_keep.
  assert (Hmem : forall col l,
             In col l ->
             Frame.mem col (filter (fun c => Frame.mem c df_columns) l)
             = Frame.mem col df_columns).
  { intros col l Hin. destruct (Frame.mem col df_columns) eqn:E.
    - apply mem_true_iff, filter_In. now split.
    - destruct (Frame.mem col (filter _ l)) eqn:E2; [|reflexivity].
      apply mem_true_iff, filter_In in E2. destruct E2 as [_ E2]. congruence. }
  split; [|split].
  - apply Forall_forall. intros col Hcol. apply filter_In in Hcol.
    now apply mem_true_iff.
  - intros metric suffix Hm Hs. apply Hmem. apply in_or_app. right.
    unfold AggregateMain.metric_cols. apply in_flat_map. exists metric.
    split; [assumption|]. apply in_map_iff. now exists suffix.
  - intros col Hcol. apply Hmem. apply in_or_app. now left.
Qed.

(** *** The effect size and the flag *)

Section EffectSizeAndFlag.
Variable tppf : R -> R -> R.

Lemma Rmax_minus_Rmin (a b : R) : Rmax a b - Rmin a b = Rabs (b - a).
Proof.
  unfold Rmax, Rmin, Rabs. destruct (Rle_dec a b), (Rcase_abs (b - a)); lra.
Qed.

(** X25.  For two samples of at least two observations, of non-zero
    variance and of positive means, and a quantile that is not negative: the
    effect-size range is ordered, its midpoint, the ratio of the larger mean
    to the smaller, is at least 1, and the flag is set exactly
    when the lower end of the range is above 1.  A range that reaches down to
    1 is an insignificant comparison. *)
Theorem effect_size_range_tells_significance (x y : string) (arr_x arr_y : list R)
    (alpha : R) :
  (2 <= List.length arr_x)%nat -> (2 <= List.length arr_y)%nat ->
  Stats.var arr_x <> 0 -> Stats.var arr_y <> 0 ->
  0 < Stats.mean arr_x -> 0 < Stats.mean arr_y ->
  0 <= tppf (1 - alpha / 2) (Stats.dof_satt arr_x arr_y) ->
  let w := welch_t_test_with_confidence_interval tppf arr_x arr_y alpha in
  let range := fst (effect_size x y (x_mean w) (y_mean w) (ci_half_width w)) in
  fst range <= snd range
  /\ 1 <= (fst range + snd range) / 2
  /\ (statistically_significant w = true <-> 1 < fst range).
Proof.
  intros _ _ _ _ Hx Hy Hq. cbv zeta.
  destruct (welch_interval_facts tppf arr_x arr_y alpha Hq)
    as (_ & Hh & Hs).
  cbv zeta in Hh, Hs. rewrite Hs. rewrite effect_size_bounds. cbn [fst snd].
  set (h := ci_half_width _) in *.
  cbn [x_mean y_mean mean_diff welch_t_test_with_confidence_interval].
  rewrite <- Rmax_minus_Rmin.
  set (small := Rmin (Stats.mean arr_x) (Stats.mean arr_y)).
  set (large := Rmax (Stats.mean arr_x) (Stats.mean arr_y)).
  assert (Hsmall : 0 < small) by (unfold small; now apply Rmin_glb_lt).
  assert (Hle : small <= large).
  { unfold small, large. eapply Rle_trans; [apply Rmin_l | apply Rmax_l]. }
  assert (Hinv : 0 < / small) by now apply Rinv_0_lt_compat.
  unfold Rdiv. repeat split.
  - nra.
  - assert (Hr : 1 <= large * / small).
    { apply (Rmult_le_reg_r small); [assumption|]. rewrite Rmult_assoc, Rinv_l; lra. }
    lra.
  - intros H. apply (Rmult_lt_reg_r small); [assumption|].
    replace ((large * / small - h * / small) * small) with (large - h) by (field; lra).
    lra.
  - intros H. apply (Rmult_lt_compat_r small) in H; [|assumption].
    replace ((large * / small - h * / small) * small) with (large - h) in H
      by (field; lra).
    lra.
Qed.
End EffectSizeAndFlag.

(** *** The store and the charts *)







(* ================================================================= *)
(** ** The further properties on the worked data *)

(** The quantile of the worked data at the 5% level. *)
Lemma t_ppf_small_worked (dof : R) : 0 <= t_ppf_small (1 - 5 / 100 / 2) dof.
Proof. apply Rlt_le, t_ppf_small_pos. lra. Qed.

(** The samples [1; 3] and [5; 7]: two observations each, of variance 1. *)
Lemma worked_samples :
  (2 <= List.length [1; 3])%nat /\ (2 <= List.length [5; 7])%nat
  /\ Stats.var [1; 3] <> 0 /\ Stats.var [5; 7] <> 0.
Proof.
  split; [cbn; lia|]. split; [cbn; lia|].
  rewrite var_1_3, var_5_7. split; lra.
Qed.

(** The samples [1; 3] and [5; 7] at the 5% level. *)
Lemma significant_iff_difference_exceeds_half_width_witness :
  let w := welch_t_test_with_confidence_interval t_ppf_small [1; 3] [5; 7] (5 / 100) in
  (2 <= List.length [1; 3])%nat /\ (2 <= List.length [5; 7])%nat
  /\ Stats.var [1; 3] <> 0 /\ Stats.var [5; 7] <> 0
  /\ 0 <= t_ppf_small (1 - 5 / 100 / 2) (Stats.dof_satt [1; 3] [5; 7])
  /\ ci_lower w <= x_mean w - y_mean w <= ci_upper w
  /\ 0 <= ci_half_width w
  /\ (statistically_significant w = true <-> ci_half_width w < mean_diff w).
Proof.
  cbv zeta. destruct worked_samples as (Hnx & Hny & Hvx & Hvy).
  split; [exact Hnx|]. split; [exact Hny|]. split; [exact Hvx|]. split; [exact Hvy|].
  split; [apply t_ppf_small_worked|].
  exact (significant_iff_difference_exceeds_half_width t_ppf_small [1; 3] [5; 7]
           (5 / 100) Hnx Hny Hvx Hvy (t_ppf_small_worked _)).
Defined.

(** The samples [1; 3] and [5; 7], in milliseconds and in microseconds. *)
Lemma significance_ignores_the_unit_witness :
  let w := welch_t_test_with_confidence_interval t_ppf_small [1; 3] [5; 7] (5 / 100) in
  let w' := welch_t_test_with_confidence_interval t_ppf_small
              (map (Rmult 1000) [1; 3]) (map (Rmult 1000) [5; 7]) (5 / 100) in
  0 < 1000
  /\ statistically_significant w' = statistically_significant w
  /\ mean_diff w' = 1000 * mean_diff w
  /\ ci_lower w' = 1000 * ci_lower w /\ ci_upper w' = 1000 * ci_upper w.
Proof.
  cbv zeta. assert (Hc : 0 < 1000) by lra. split; [exact Hc|].
  exact (significance_ignores_the_unit t_ppf_small 1000 [1; 3] [5; 7] (5 / 100) Hc).
Defined.

(** The samples [1; 3] and [5; 7], both moved by ten. *)
Lemma significance_ignores_the_origin_witness :
  let w := welch_t_test_with_confidence_interval t_ppf_small [1; 3] [5; 7] (5 / 100) in
  let w' := welch_t_test_with_confidence_interval t_ppf_small
              (map (Rplus 10) [1; 3]) (map (Rplus 10) [5; 7]) (5 / 100) in
  statistically_significant w' = statistically_significant w
  /\ mean_diff w' = mean_diff w
  /\ ci_lower w' = ci_lower w /\ ci_upper w' = ci_upper w
  /\ x_mean w' = 10 + x_mean w /\ y_mean w' = 10 + y_mean w.
Proof.
  cbv zeta.
  apply (significance_ignores_the_origin t_ppf_small 10 [1; 3] [5; 7] (5 / 100));
    discriminate.
Defined.

(** The samples [1; 3] and [5; 7]: positive means. *)
Lemma effect_size_range_tells_significance_witness :
  let w := welch_t_test_with_confidence_interval t_ppf_small [1; 3] [5; 7] (5 / 100) in
  let range := fst (effect_size "native" "docker" (x_mean w) (y_mean w)
                      (ci_half_width w)) in
  Stats.var [1; 3] <> 0 /\ Stats.var [5; 7] <> 0
  /\ 0 < Stats.mean [1; 3] /\ 0 < Stats.mean [5; 7]
  /\ fst range <= snd range
  /\ 1 <= (fst range + snd range) / 2
  /\ (statistically_significant w = true <-> 1 < fst range).
Proof.
  cbv zeta.
  assert (Hx : 0 < Stats.mean [1; 3]) by (rewrite mean_1_3; lra).
  assert (Hy : 0 < Stats.mean [5; 7]) by (rewrite mean_5_7; lra).
  destruct worked_samples as (Hnx & Hny & Hvx & Hvy).
  split; [exact Hvx|]. split; [exact Hvy|]. split; [exact Hx|]. split; [exact Hy|].
  exact (effect_size_range_tells_significance t_ppf_small "native" "docker"
           [1; 3] [5; 7] (5 / 100) Hnx Hny Hvx Hvy Hx Hy (t_ppf_small_worked _)).
Defined.

(** [df_apart] asked for a metric it does not hold. *)
Lemma analysis_fails_exactly_on_a_missing_metric_witness :
  NoDup ["latency"; "task-clock"]
  /\ ~ In "deployment-mechanism" ["latency"; "task-clock"]
  /\ analyze_data_significant_difference t_ppf_small df_apart (5 / 100) "resnet" "cat"
       false true true ["latency"; "task-clock"] = None.
Proof.
  assert (Hnd : NoDup ["latency"; "task-clock"]).
  { constructor; [intros [H|[]]; discriminate H|].
    constructor; [intros []|constructor]. }
  assert (Hno : ~ In "deployment-mechanism" ["latency"; "task-clock"]).
  { intros [H|[H|[]]]; discriminate H. }
  split; [exact Hnd|]. split; [exact Hno|].
  apply (proj2 (analysis_fails_exactly_on_a_missing_metric t_ppf_small df_apart
                  (5 / 100) "resnet" "cat" false true true ["latency"; "task-clock"]
                  Hnd Hno)).
  exists "task-clock". split; [right; left; reflexivity|].
  intros [H|[]]. discriminate H.
Defined.

(** [df_apart] analysed on the metrics it holds. *)
Lemma analysis_of_the_frame_metrics_returns_witness :
  NoDup (map fst (columns df_apart))
  /\ exists a,
       analyze_data_significant_difference t_ppf_small df_apart (5 / 100) "resnet" "cat"
         false true true (get_metrics_in_df df_apart) = Some a
       /\ Forall (fun row => map fst (agg_metrics row) = get_metrics_in_df df_apart)
                 (aggregate_df a)
       /\ Forall (fun metric => ~ In metric NON_METRIC_COLUMNS)
                 (get_metrics_in_df df_apart).
Proof.
  assert (Hnd : NoDup (map fst (columns df_apart))).
  { constructor; [intros []|constructor]. }
  split; [exact Hnd|].
  exact (analysis_of_the_frame_metrics_returns t_ppf_small df_apart (5 / 100)
           "resnet" "cat" false true true Hnd).
Defined.

(** The run on [df_apart]. *)
Lemma aggregate_has_one_row_per_mechanism_witness :
  exists a,
    analyze_data_significant_difference t_ppf_small df_apart (5 / 100) "resnet" "cat"
      false true true ["latency"] = Some a
    /\ map agg_deployment_mechanism (aggregate_df a) = ["native"; "docker"]
    /\ NoDup (map agg_deployment_mechanism (aggregate_df a))
    /\ Forall (fun row => agg_model row = "resnet" /\ agg_input row = "cat"
                          /\ map fst (agg_metrics row) = ["latency"])
              (aggregate_df a).
Proof.
  eexists. split; [reflexivity|].
  exact (aggregate_has_one_row_per_mechanism t_ppf_small df_apart (5 / 100)
           "resnet" "cat" false true true ["latency"] _ eq_refl).
Defined.

(** The run on [df_apart], silent and without files. *)
Lemma flags_only_gate_console_and_files_witness :
  exists a,
    analyze_data_significant_difference t_ppf_small df_apart (5 / 100) "resnet" "cat"
      false false false ["latency"] = Some a
    /\ printed a = [] /\ saved a = []
    /\ exists b,
         analyze_data_significant_difference t_ppf_small df_apart (5 / 100)
           "resnet" "cat" true true true ["latency"] = Some b
         /\ aggregate_df b = aggregate_df a.
Proof.
  eexists. split; [reflexivity|].
  destruct (flags_only_gate_console_and_files t_ppf_small df_apart (5 / 100)
              "resnet" "cat" false false false ["latency"] _ eq_refl)
    as (Hprinted & Hsaved & Hothers).
  split; [exact (Hprinted eq_refl)|]. split; [exact (Hsaved eq_refl)|].
  destruct (Hothers true true true) as (b & Hb & Hagg & _).
  exists b. split; [exact Hb | exact Hagg].
Defined.

(** The latency column of [df_apart]. *)
Lemma groups_partition_the_rows_witness :
  List.length [1; 3; 5; 7] = List.length (deployment_mechanism df_apart)
  /\ Permutation (flat_map (fun m => get_group df_apart m [1; 3; 5; 7])
                           (Frame.unique (deployment_mechanism df_apart)))
                 [1; 3; 5; 7]
  /\ Forall (fun m => get_group df_apart m [1; 3; 5; 7] <> [])
            (Frame.unique (deployment_mechanism df_apart)).
Proof.
  split; [reflexivity|].
  exact (groups_partition_the_rows df_apart [1; 3; 5; 7] eq_refl).
Defined.

(** The native row of the run on [df_apart]. *)
Lemma error_bars_are_symmetric_witness :
  let ci := Stats.tconfint_mean t_ppf_small [1; 3] (5 / 100) in
  let mean := Stats.mean [1; 3] in
  mean - fst ci = snd ci - mean
  /\ exists column,
       Frame.get_column "latency" (columns df_apart) = Some column
       /\ mean = Stats.mean (get_group df_apart "native" column)
       /\ (mean - (mean - fst ci), mean + (snd ci - mean))
          = Stats.tconfint_mean t_ppf_small (get_group df_apart "native" column)
              (5 / 100).
Proof.
  cbv zeta.
  apply (error_bars_are_symmetric t_ppf_small df_apart (5 / 100) "resnet" "cat"
           false true true ["latency"]
           (analyze_pairs t_ppf_small df_apart (5 / 100) "resnet" "cat" false true true
              ["latency"] [("latency", [1; 3; 5; 7])]
              (Frame.combinations (Frame.unique (deployment_mechanism df_apart))))
           (mkAggregateRow "resnet" "cat" "native"
              [("latency",
                Some (own_summary t_ppf_small df_apart (5 / 100) "native" [1; 3; 5; 7]))])
           "latency").
  - reflexivity.
  - rewrite (analyze_pairs_eq t_ppf_small df_apart (5 / 100) "resnet" "cat" false true true
               ["latency"] [("latency", [1; 3; 5; 7])] _ eq_refl).
    left. reflexivity.
  - left. reflexivity.
Defined.

(** The run on [df_single], which has one mechanism. *)
Lemma nothing_is_compared_below_two_mechanisms_witness :
  exists a,
    (List.length (Frame.unique (deployment_mechanism df_single)) < 2)%nat
    /\ analyze_data_significant_difference t_ppf_small df_single (5 / 100)
         "resnet" "cat" true true true ["latency"] = Some a
    /\ printed a = [] /\ saved a = []
    /\ aggregate_df a = [mkAggregateRow "resnet" "cat" "native" [("latency", None)]].
Proof.
  eexists. split; [cbn; lia|]. split; [reflexivity|].
  destruct (nothing_is_compared_below_two_mechanisms t_ppf_small df_single (5 / 100)
              "resnet" "cat" true true true ["latency"] _ ltac:(cbn; lia) eq_refl)
    as (Hprinted & Hsaved & Hagg & _).
  split; [exact Hprinted|]. split; [exact Hsaved|]. exact Hagg.
Defined.

(** The one file of the run on [df_apart]. *)
Lemma one_comparison_file_per_pair_witness :
  exists a,
    analyze_data_significant_difference t_ppf_small df_apart (5 / 100) "resnet" "cat"
      false true true ["latency"] = Some a
    /\ map (fun f => (file_x f, file_y f)) (saved a) = [("native", "docker")]
    /\ Forall (fun f => map cmp_metric (file_rows f) = ["latency"]
                        /\ file_name f
                           = ("resnet" ++ "-" ++ "cat" ++ "-" ++ file_x f ++ "-"
                                 ++ file_y f ++ "-comparison.csv")%string)
              (saved a).
Proof.
  eexists. split; [reflexivity|].
  exact (one_comparison_file_per_pair t_ppf_small df_apart (5 / 100) "resnet" "cat"
           false true ["latency"] _ eq_refl).
Defined.

(** The latency row of the one file of the run on [df_apart]. *)
Lemma comparison_files_agree_with_the_aggregate_witness :
  let grouped := [("latency", [1; 3; 5; 7])] in
  let a := analyze_pairs t_ppf_small df_apart (5 / 100) "resnet" "cat" false true true
             ["latency"] grouped
             (Frame.combinations (Frame.unique (deployment_mechanism df_apart))) in
  let f := comparison_file t_ppf_small df_apart (5 / 100) "resnet" "cat" grouped
             ("native", "docker") in
  let r := comparison_row t_ppf_small df_apart (5 / 100) "native" "docker"
             ("latency", [1; 3; 5; 7]) in
  In f (saved a) /\ In r (file_rows f)
  /\ exists row_x row_y sx sy,
       In row_x (aggregate_df a) /\ agg_deployment_mechanism row_x = file_x f
       /\ In (cmp_metric r, Some sx) (agg_metrics row_x)
       /\ cmp_x_value r = (fst (fst sx) - snd (fst sx), fst (fst sx) + snd sx)
       /\ In row_y (aggregate_df a) /\ agg_deployment_mechanism row_y = file_y f
       /\ In (cmp_metric r, Some sy) (agg_metrics row_y)
       /\ cmp_y_value r = (fst (fst sy) - snd (fst sy), fst (fst sy) + snd sy).
Proof.
  cbv zeta.
  assert (Hf : In (comparison_file t_ppf_small df_apart (5 / 100) "resnet" "cat"
                     [("latency", [1; 3; 5; 7])] ("native", "docker"))
                  (saved (analyze_pairs t_ppf_small df_apart (5 / 100) "resnet" "cat"
                            false true true ["latency"] [("latency", [1; 3; 5; 7])]
                            (Frame.combinations
                               (Frame.unique (deployment_mechanism df_apart)))))).
  { rewrite (analyze_pairs_eq t_ppf_small df_apart (5 / 100) "resnet" "cat" false true true
               ["latency"] [("latency", [1; 3; 5; 7])] _ eq_refl).
    left. reflexivity. }
  assert (Hr : In (comparison_row t_ppf_small df_apart (5 / 100) "native" "docker"
                     ("latency", [1; 3; 5; 7]))
                  (file_rows (comparison_file t_ppf_small df_apart (5 / 100) "resnet"
                                "cat" [("latency", [1; 3; 5; 7])] ("native", "docker"))))
    by (left; reflexivity).
  split; [exact Hf|]. split; [exact Hr|].
  exact (comparison_files_agree_with_the_aggregate t_ppf_small df_apart (5 / 100)
           "resnet" "cat" false true ["latency"] _ _ _ eq_refl Hf Hr).
Defined.

(** The full-daemon view of [df_variants]. *)
Lemma variant_names_never_survive_a_view_witness :
  Forall (fun m => ~ In m DOCKER_VARIANTS)
         (deployment_mechanism
            (parse_csv_rows df_variants ["docker"; "native"] ["task-clock"]
               DOCKER_OVERHEAD_INCLUDE_FULL_DAEMON false)).
Proof.
  apply (variant_names_never_survive_a_view df_variants ["docker"; "native"]
           ["task-clock"] DOCKER_OVERHEAD_INCLUDE_FULL_DAEMON false).
  right. left. reflexivity.
Defined.

(** View 7 on [df_variants]. *)
Lemma unknown_view_renames_nothing_witness :
  deployment_mechanism
    (parse_csv_rows df_variants ["docker_container"; "native"] ["task-clock"] 7 false)
  = ["docker_container"; "native"].
Proof.
  apply (unknown_view_renames_nothing df_variants ["docker_container"; "native"]
           ["task-clock"] 7 false); discriminate.
Defined.

(** [df_counters] read for its cycles alone. *)
Lemma computed_columns_need_both_raw_metrics_witness :
  parse_csv_rows df_counters ["native"] ["cpu-cycles"] DOCKER_OVERHEAD_EXCLUDE_DAEMON true
  = parse_csv_rows df_counters ["native"] ["cpu-cycles"] DOCKER_OVERHEAD_EXCLUDE_DAEMON
      false.
Proof.
  apply (computed_columns_need_both_raw_metrics df_counters ["native"] ["cpu-cycles"]
           DOCKER_OVERHEAD_EXCLUDE_DAEMON).
  right. intros [H|[]]. discriminate H.
Defined.

(** [df_counters] with its two counters. *)
Lemma computed_columns_are_the_two_quotients_witness :
  let derived := add_computed_columns df_counters in
  Frame.get_column "cpu-cycles" (columns df_counters) = Some [1000]
  /\ Frame.get_column "instructions" (columns df_counters) = Some [500]
  /\ Frame.get_column "instructions-per-cycle" (columns derived)
     = Some (Frame.divide [500] [1000])
  /\ Frame.get_column "cycles-per-instruction" (columns derived)
     = Some (Frame.divide [1000] [500]).
Proof.
  cbv zeta. split; [reflexivity|]. split; [reflexivity|].
  destruct (computed_columns_are_the_two_quotients df_counters [1000] [500]
              eq_refl eq_refl) as (Hipc & Hcpi & _).
  split; [exact Hipc | exact Hcpi].
Defined.

(** [store_two_inputs] charted against one input name: the native
    mechanism has two rows. *)
Lemma no_plot_when_a_mechanism_cannot_be_drawn_witness :
  In "native" (map agg_deployment_mechanism (table_rows store_two_inputs))
  /\ List.length ["cat"] <> List.length (rows_of_mechanism store_two_inputs "native")
  /\ Aggregate.chart_compare_across_models_or_inputs store_two_inputs false
       ["cat"] "resnet" true ["task-clock"] = Aggregate.Raised [].
Proof.
  assert (Hm : In "native" (map agg_deployment_mechanism (table_rows store_two_inputs)))
    by (left; reflexivity).
  assert (Hl : List.length ["cat"]
               <> List.length (rows_of_mechanism store_two_inputs "native"))
    by discriminate.
  split; [exact Hm|]. split; [exact Hl|].
  apply (no_plot_when_a_mechanism_cannot_be_drawn store_two_inputs false ["cat"]
           "resnet" true ["task-clock"] "native" Hm (or_intror Hl)).
  apply Exists_cons_hd. reflexivity.
Defined.


(** [store_two_inputs] after two more analyses of the experiment on
    ["cat"], its names read back as written. *)
Lemma store_keeps_every_run_witness :
  let after := store_after header_as_written read_as_written aggregate_cat_again
                 (Some (store_after header_as_written read_as_written
                          aggregate_cat_again (Some store_two_inputs))) in
  read_csv header_as_written read_as_written store_two_inputs = store_two_inputs
  /\ table_rows after
     = table_rows store_two_inputs ++ table_rows aggregate_cat_again
       ++ table_rows aggregate_cat_again
  /\ NoDup (table_columns after).
Proof.
  cbv zeta.
  assert (Hold : read_csv header_as_written read_as_written store_two_inputs
                 = store_two_inputs)
    by reflexivity.
  split; [exact Hold|].
  destruct (store_keeps_every_run header_as_written read_as_written aggregate_cat_again
              aggregate_cat_again (Some store_two_inputs) Hold eq_refl)
    as (Hrows & _ & Hheader).
  split; [exact Hrows|].
  assert (Hcolumns : NoDup (table_columns store_two_inputs)).
  { repeat (constructor; [cbn; intuition discriminate|]). constructor. }
  exact (Hheader Hcolumns Hcolumns Hcolumns).
Defined.

(** [store_two_inputs], whose errors are 1, charted across its two inputs. *)
Lemma store_two_inputs_errors : errors_are_non_negative store_two_inputs.
Proof.
  unfold errors_are_non_negative. cbn [table_rows store_two_inputs].
  repeat (constructor; cbn [agg_metrics snd]); lra.
Qed.

Lemma charts_follow_the_present_metrics_witness :
  errors_are_non_negative store_two_inputs
  /\ Aggregate.chart_compare_across_models_or_inputs store_two_inputs false
       ["cat"; "dog"] "resnet" true ["task-clock"]
     = Aggregate.Completed
         (plots_named store_two_inputs false ["cat"; "dog"] "resnet" true
            ["task-clock"]).
Proof.
  split; [exact store_two_inputs_errors|].
  pose proof (charts_follow_the_present_metrics store_two_inputs false
                ["cat"; "dog"] "resnet" true ["task-clock"] store_two_inputs_errors)
    as H.
  change (Aggregate.chart_compare_across_models_or_inputs store_two_inputs false
            ["cat"; "dog"] "resnet" true ["task-clock"])
    with (Aggregate.Completed
            ["aggregate_models_cat_dog_for_model_resnet-task_clock-lineplot.png"])
    in H |- *.
  destruct H as [H _]. now rewrite H.
Defined.
